(** * DummyRainSwitch: a shallow embedding of the plugin's core logic

    The development follows the TypeScript sources:
    - [src/util/hysteresis.ts]      -> [Module Hysteresis]
    - [src/providers/provider.ts]   -> [Module Provider]
    - [src/platform.ts], [src/rainAccessory.ts] -> [Module Platform], [Module RainAccessory]
    - [src/providers/*.ts]          -> [Module Adapters]
    - [src/util/geo.ts]             -> [Module Geo]

    Conventions.  Millisecond timestamps and minute counts are integers
    ([Z]); a reading of [Date.now()] is a non-negative count of epoch
    milliseconds ([N], injected into [Z] for arithmetic).  Precipitation
    rates, probabilities, thresholds and coordinates are IEEE-754 doubles
    ([float], the kernel's binary64), as JavaScript numbers are.  Strings
    are ASCII strings; [toLowerCase] acts on the letters A-Z.  An [async]
    function is embedded as the run in which nothing else is handled while
    it waits; [RainAccessory.evaluate], during whose wait HomeKit can
    deliver a toggle, is given in its two halves as well. *)

From Stdlib Require Import ZArith Lia Bool Ascii List Floats.
From stdpp Require Import gmap strings list.
Import ListNotations.

Set Warnings "-inexact-float".

(* ===================================================================== *)
(** * src/util/hysteresis.ts *)
(* ===================================================================== *)

Module Hysteresis.
Local Open Scope Z_scope.

(** A configuration number: a finite value or one of NaN / +-Infinity. *)
Inductive number := Num (z : Z) | NonFinite.

Record HysteresisOptions := { minOnMs : number; minOffMs : number }.

(** The closure variables [state] and [lastFlip] of [makeHysteresis]. *)
Record Gate := { state : bool; lastFlip : Z }.

Definition clamp (value : number) : Z :=
  match value with
  | NonFinite => 0
  | Num z => Z.max 0 z
  end.

Definition minOn (o : HysteresisOptions) : Z := clamp (minOnMs o).
Definition minOff (o : HysteresisOptions) : Z := clamp (minOffMs o).

(** The gate as [makeHysteresis] leaves it: [state = false], [lastFlip = 0]. *)
Definition makeHysteresis : Gate := {| state := false; lastFlip := 0 |}.

(** [next(desired, now)]: the returned boolean and the updated closure. *)
Definition next (o : HysteresisOptions) (g : Gate) (desired : bool) (now : Z)
  : bool * Gate :=
  if lastFlip g =? 0 then
    (desired, {| state := desired; lastFlip := now |})
  else if Bool.eqb desired (state g) then
    (state g, g)
  else
    let elapsed := now - lastFlip g in
    let gate := if state g then minOn o else minOff o in
    if gate <=? elapsed then
      (desired, {| state := desired; lastFlip := now |})
    else
      (state g, g).

(** [reset(initial = false)] *)
Definition reset (initial : option bool) (g : Gate) : Gate :=
  {| state := match initial with Some b => b | None => false end;
     lastFlip := 0 |}.

Definition getState (g : Gate) : bool := state g.

(** A call of [next] as the caller sees it: its arguments. *)
Definition call := (bool * Z)%type.

(** Run a sequence of calls; the returned values, oldest first, paired
    with the time of the call, and the final closure. *)
Fixpoint run (o : HysteresisOptions) (g : Gate) (calls : list call)
  : list (Z * bool) * Gate :=
  match calls with
  | [] => ([], g)
  | (desired, now) :: rest =>
      let '(out, g1) := next o g desired now in
      let '(outs, g2) := run o g1 rest in
      ((now, out) :: outs, g2)
  end.

(** What an observer who only sees the returned values knows: the
    current stable value and the time it was adopted (the first call's
    time, then the time of each call whose result differs from the one
    before). *)
Definition observe (acc : option (bool * Z)) (ev : Z * bool) : option (bool * Z) :=
  match acc with
  | None => Some (snd ev, fst ev)
  | Some (s, t) => if Bool.eqb s (snd ev) then Some (s, t) else Some (snd ev, fst ev)
  end.

Definition observed (history : list (Z * bool)) : option (bool * Z) :=
  fold_left observe history None.

(** The dwell of the state being exited. *)
Definition dwell (o : HysteresisOptions) (s : bool) : Z :=
  if s then minOn o else minOff o.

(** The debounce property at one call [(desired, now)] made after the
    calls [pre] on a fresh gate: the first call adopts [desired] and
    records [now]; a later call changes the result only when the time
    since the observed last flip reaches the dwell of the state left. *)
Definition debounced (o : HysteresisOptions) (pre : list call)
    (desired : bool) (now : Z) : Prop :=
  let '(history, g) := run o makeHysteresis pre in
  let '(out, g') := next o g desired now in
  match observed history with
  | None => out = desired /\ g' = {| state := desired; lastFlip := now |}
  | Some (s, t) => out <> s -> dwell o s <= now - t
  end.

(** The closure agrees with what an observer of the results has seen. *)
Definition agrees (acc : option (bool * Z)) (g : Gate) : Prop :=
  match acc with
  | None => lastFlip g = 0
  | Some (s, t) => s = state g /\ t = lastFlip g /\ t <> 0
  end.

End Hysteresis.

(* ===================================================================== *)
(** * JavaScript helpers used by several modules *)
(* ===================================================================== *)

Module Js.

(** [!!s] for a string: the empty string is falsy. *)
Definition truthy_string (s : string) : bool :=
  match s with EmptyString => false | String _ _ => true end.

(** [Boolean(o)] for an optional string field ([undefined] is falsy). *)
Definition truthy_opt_string (o : option string) : bool :=
  match o with Some s => truthy_string s | None => false end.

Definition lower_ascii (c : ascii) : ascii :=
  let n := nat_of_ascii c in
  if (Nat.leb 65 n && Nat.leb n 90)%bool then ascii_of_nat (n + 32) else c.

(** [s.toLowerCase()] *)
Fixpoint toLowerCase (s : string) : string :=
  match s with
  | EmptyString => EmptyString
  | String c rest => String (lower_ascii c) (toLowerCase rest)
  end.

(** [s.includes(needle)] *)
Fixpoint includes (s needle : string) : bool :=
  (String.prefix needle s
   || match s with
      | EmptyString => false
      | String _ rest => includes rest needle
      end)%bool.

(** [a ?? b] *)
Definition nullish {A} (a : option A) (b : A) : A :=
  match a with Some x => x | None => b end.

(** [Number.isFinite(x)] for a double. *)
Definition isFinite (x : float) : bool := PrimFloat.is_finite x.

(** The value of [Date.now()]: epoch milliseconds. *)
Definition ms_of_clock (clock : N) : Z := Z.of_N clock.

End Js.

(* ===================================================================== *)
(** * src/types.ts *)
(* ===================================================================== *)

Module Types.

Inductive PrecipType := rain | snow | sleet | none.

Definition PrecipType_eqb (a b : PrecipType) : bool :=
  match a, b with
  | rain, rain | snow, snow | sleet, sleet | none, none => true
  | _, _ => false
  end.

Record WeatherNowcast := {
  ts : Z;
  providerName : string;
  precipMmHr : float;
  pop : option float;
  type : PrecipType;
  temperatureC : option float;
}.

Record WeatherForecastSlice := {
  slice_ts : Z;
  minutesFromNow : Z;
  slice_providerName : string;
  slice_precipMmHr : float;
  slice_pop : option float;
  slice_type : PrecipType;
}.

Inductive AccessoryType := rain_now | rain_soon | snow_mode.

Record RainAccessoryConfig := {
  acc_type : AccessoryType;
  acc_name : string;
  thresholdMmPerHr : option float;
  lookaheadMinutes : option Z;
  popThreshold : option float;
  intensityThresholdMmPerHr : option float;
  enabled : option bool;
}.

Record WeatherKitConfig := {
  teamId : option string;
  keyId : option string;
  privateKey : option string;
  serviceId : option string;
}.

Record OpenWeatherMapConfig := { owm_apiKey : option string }.
Record TomorrowConfig := { tomorrow_apiKey : option string }.
Record NwsConfig := { nws_enabled : option bool }.

Inductive ProviderMode :=
  mode_auto | mode_weatherkit | mode_openweathermap | mode_nws | mode_tomorrow.

Record ProviderConfig := {
  mode : option ProviderMode;
  weatherkit : option WeatherKitConfig;
  openweathermap : option OpenWeatherMapConfig;
  tomorrow : option TomorrowConfig;
  nws : option NwsConfig;
}.

Inductive LocationMode := loc_explicit | loc_auto | loc_geocode.

Record LocationConfig := {
  cfg_lat : option float;
  cfg_lon : option float;
  address : option string;
  loc_mode : option LocationMode;
}.

Record PollingConfig := {
  intervalSeconds : option Z;
  minOnDurationSeconds : option Z;
  minOffDurationSeconds : option Z;
  polling_timeoutMs : option Z;
}.

Inductive LogLevel := level_debug | level_info | level_warn | level_error.

Record QuietHoursConfig := { quiet_start : option string; quiet_end : option string }.

Record AdvancedConfig := {
  logLevel : option LogLevel;
  adv_cacheTtlSeconds : option Z;
  adv_retryBackoffSeconds : option (list Z);
  adv_overrideMinutes : option Z;
  quietHours : option QuietHoursConfig;
}.

Record RainSwitchPlatformConfig := {
  platform_name : string;
  location : option LocationConfig;
  provider : option ProviderConfig;
  polling : option PollingConfig;
  accessories : option (list RainAccessoryConfig);
  advanced : option AdvancedConfig;
}.

(** [ResolvedLocation] of src/util/geo.ts. *)
Record ResolvedLocation := { lat : float; lon : float; source : string }.

End Types.

(* ===================================================================== *)
(** * The environment: clock, upstream services, log and HomeKit sinks *)
(* ===================================================================== *)

Module Env.
Import Types.
Local Open Scope Z_scope.

(** A request a weather provider receives from the chain. *)
Inductive Request := ReqNowcast | ReqForecast (lookahead : Z).

(** The [Error] objects the core creates, by the place that creates them;
    [UpstreamError] is whatever a provider raises. *)
Inductive Error :=
| UpstreamError (message : string)
| TimedOut (timeoutMs : Z)             (* `Timed out after ${timeoutMs}ms` *)
| BackoffInEffect (seconds : Z)        (* `Providers backoff in effect for ${s}s` *)
| AllProvidersFailed                   (* 'All providers failed' *)
| NoProvidersEnabled                   (* 'No weather providers enabled' *)
| ChainNotReady.                       (* 'Provider chain not ready' *)

(** Calls of [log.info] and [log.warn], and of [log.debug] through
    [platform.debug]. *)
Inductive LogEvent :=
| WarnProviderFailed (provider : string) (e : Error)
| InfoTransition (accessory : string) (on : bool)
| InfoOverrideExpired (accessory : string)
| InfoManualSet (accessory : string) (on : bool) (minutes : Z)
| WarnMarkingFault (accessory : string)
| DebugOverride (accessory : string) (until : Z)
| DebugQuiet (accessory : string) (on : bool).

(** Calls of [updateCharacteristic] / [updateValue] on the switch service. *)
Inductive HapEvent :=
| UpdateOn (accessory : string) (on : bool)
| UpdateStatusFault (accessory : string) (fault : bool)
| PublishMetadata (accessory : string) (weather : WeatherNowcast)
    (slice : option WeatherForecastSlice).

(** The world outside the plugin: the clock read by [Date.now()], the
    requests the upstream providers have received so far, and the log and
    HomeKit calls made so far (oldest first).  Synchronous code takes no
    time: the clock moves only while an upstream call is awaited, or
    between two calls into the plugin ([elapse]). *)
Record World := {
  clock : N;
  attempts : list (string * Request);
  logs : list LogEvent;
  hap : list HapEvent;
}.

Definition Date_now (w : World) : Z := Js.ms_of_clock (clock w).

Definition elapse (d : N) (w : World) : World :=
  {| clock := clock w + d; attempts := attempts w; logs := logs w; hap := hap w |}.

Definition record_attempt (a : string * Request) (w : World) : World :=
  {| clock := clock w; attempts := attempts w ++ [a]; logs := logs w; hap := hap w |}.

Definition log (e : LogEvent) (w : World) : World :=
  {| clock := clock w; attempts := attempts w; logs := logs w ++ [e]; hap := hap w |}.

Definition emit (e : HapEvent) (w : World) : World :=
  {| clock := clock w; attempts := attempts w; logs := logs w; hap := hap w ++ [e] |}.

(** A settled promise of an upstream call: how it settles and how long
    after the call.  It may depend on the clock and on everything the
    upstream services were asked before. *)
Record Reply (T : Type) := { outcome : Error + T; took : N }.
Arguments outcome {T} _.
Arguments took {T} _.

End Env.

(* ===================================================================== *)
(** * src/providers/provider.ts *)
(* ===================================================================== *)

Module Provider.
Import Types Env.
Local Open Scope Z_scope.

Record ProviderChainOptions := {
  timeoutMs : Z;
  cacheTtlSeconds : Z;
  retryBackoffSeconds : list Z;
}.

(** [Partial<ProviderChainOptions>] *)
Record PartialOptions := {
  opt_timeoutMs : option Z;
  opt_cacheTtlSeconds : option Z;
  opt_retryBackoffSeconds : option (list Z);
}.

Definition DEFAULT_OPTIONS : ProviderChainOptions :=
  {| timeoutMs := 5000; cacheTtlSeconds := 60; retryBackoffSeconds := [30; 60; 120; 300] |}.

(** [{ ...DEFAULT_OPTIONS, ...options }] *)
Definition mergeOptions (options : option PartialOptions) : ProviderChainOptions :=
  match options with
  | None => DEFAULT_OPTIONS
  | Some o =>
      {| timeoutMs := Js.nullish (opt_timeoutMs o) (timeoutMs DEFAULT_OPTIONS);
         cacheTtlSeconds := Js.nullish (opt_cacheTtlSeconds o) (cacheTtlSeconds DEFAULT_OPTIONS);
         retryBackoffSeconds :=
           Js.nullish (opt_retryBackoffSeconds o) (retryBackoffSeconds DEFAULT_OPTIONS) |}
  end.

(** The [WeatherProvider] interface.  The two methods are the adapter's
    network call and parsing, seen from the chain as a promise. *)
Record WeatherProvider := {
  name : string;
  isSupported : bool;
  getNowcast : World -> Reply WeatherNowcast;
  getForecast : Z -> World -> Reply (list WeatherForecastSlice);
}.

(** What an upstream service answers to one adapter. *)
Record Upstream := {
  up_nowcast : World -> Reply WeatherNowcast;
  up_forecast : Z -> World -> Reply (list WeatherForecastSlice);
}.

Record Network := {
  net_weatherkit : Upstream;
  net_openweathermap : Upstream;
  net_nws : Upstream;
  net_tomorrow : Upstream;
}.

Definition is_some {A} (o : option A) : bool :=
  match o with Some _ => true | None => false end.

(** The four provider classes: [name] and [isSupported()] as in the
    sources, the methods delegated to the upstream service. *)
Definition WeatherKitProvider (up : Upstream) (cfg : option WeatherKitConfig)
    (location : option ResolvedLocation) : WeatherProvider :=
  {| name := "Apple WeatherKit";
     isSupported :=
       match cfg with
       | Some c => Js.truthy_opt_string (teamId c) && Js.truthy_opt_string (keyId c)
                   && Js.truthy_opt_string (privateKey c) && is_some location
       | None => false
       end;
     getNowcast := up_nowcast up;
     getForecast := up_forecast up |}.

Definition OpenWeatherMapProvider (up : Upstream) (cfg : option OpenWeatherMapConfig)
    (location : option ResolvedLocation) : WeatherProvider :=
  {| name := "OpenWeatherMap";
     isSupported :=
       match cfg with
       | Some c => Js.truthy_opt_string (owm_apiKey c) && is_some location
       | None => false
       end;
     getNowcast := up_nowcast up;
     getForecast := up_forecast up |}.

Definition NwsProvider (up : Upstream) (cfg : option NwsConfig)
    (location : option ResolvedLocation) : WeatherProvider :=
  {| name := "NOAA/NWS";
     isSupported := is_some location;
     getNowcast := up_nowcast up;
     getForecast := up_forecast up |}.

Definition TomorrowProvider (up : Upstream) (cfg : option TomorrowConfig)
    (location : option ResolvedLocation) : WeatherProvider :=
  {| name := "Tomorrow.io";
     isSupported :=
       match cfg with
       | Some c => Js.truthy_opt_string (tomorrow_apiKey c) && is_some location
       | None => false
       end;
     getNowcast := up_nowcast up;
     getForecast := up_forecast up |}.

(** The immutable part of a chain: [providers] and [opts]. *)
Record ProviderChain := {
  providers : list WeatherProvider;
  opts : ProviderChainOptions;
}.

Record CacheEntry (T : Type) := { data : T; entry_ts : Z }.
Arguments data {T} _.
Arguments entry_ts {T} _.

(** The mutable closure variables of a chain.  [nextAllowedTs] is [None]
    when the arithmetic that sets it yields NaN (a schedule index out of
    range). *)
Record ChainState := {
  nowcastCache : option (CacheEntry WeatherNowcast);
  forecastCache : gmap Z (CacheEntry (list WeatherForecastSlice));
  backoffIndex : Z;
  nextAllowedTs : option Z;
}.

Definition initialState : ChainState :=
  {| nowcastCache := None; forecastCache := ∅; backoffIndex := 0; nextAllowedTs := Some 0 |}.

Definition addProvider (provider : WeatherProvider) (providers : list WeatherProvider)
  : list WeatherProvider :=
  if isSupported provider then providers ++ [provider] else providers.

Definition mode_is (m expected : ProviderMode) : bool :=
  match m, expected with
  | mode_auto, _ => true
  | mode_weatherkit, mode_weatherkit
  | mode_openweathermap, mode_openweathermap
  | mode_nws, mode_nws
  | mode_tomorrow, mode_tomorrow => true
  | _, _ => false
  end.

Definition option_bind {A B} (o : option A) (f : A -> option B) : option B :=
  match o with Some a => f a | None => None end.

(** [makeProviderChain(log, cfg, location, options)] *)
Definition makeProviderChain (net : Network) (cfg : option ProviderConfig)
    (location : option ResolvedLocation) (options : option PartialOptions)
  : Error + ProviderChain :=
  let opts := mergeOptions options in
  let mode := Js.nullish (option_bind cfg mode) mode_auto in
  let providers := [] in
  let providers :=
    if mode_is mode mode_weatherkit
    then addProvider (WeatherKitProvider (net_weatherkit net) (option_bind cfg weatherkit) location) providers
    else providers in
  let providers :=
    if mode_is mode mode_openweathermap
    then addProvider (OpenWeatherMapProvider (net_openweathermap net) (option_bind cfg openweathermap) location) providers
    else providers in
  let providers :=
    if mode_is mode mode_nws
       && Js.nullish (option_bind (option_bind cfg nws) nws_enabled) true
    then addProvider (NwsProvider (net_nws net) (option_bind cfg nws) location) providers
    else providers in
  let providers :=
    if mode_is mode mode_tomorrow
    then addProvider (TomorrowProvider (net_tomorrow net) (option_bind cfg tomorrow) location) providers
    else providers in
  match providers with
  | [] => inl NoProvidersEnabled
  | _ => inr {| providers := providers; opts := opts |}
  end.

(** The longest delay a timer of Node takes. *)
Definition TIMEOUT_MAX : Z := 2147483647.

(** The delay [setTimeout(callback, ms)] runs with: Node replaces a delay
    below 1 or above [TIMEOUT_MAX] by 1. *)
Definition timerDelay (ms : Z) : Z :=
  if (1 <=? ms) && (ms <=? TIMEOUT_MAX) then ms else 1.

(** [withTimeout(promise, timeoutMs)]: the promise races a timer; the
    result and the time until the race settles. The promise was started
    before the timer, so a promise that settles in the millisecond the
    timer is due wins the race. *)
Definition withTimeout {T} (promise : Reply T) (timeoutMs : Z) : (Error + T) * N :=
  let delay := timerDelay timeoutMs in
  if Z.of_N (took promise) <=? delay
  then (outcome promise, took promise)
  else (inl (TimedOut timeoutMs), Z.to_N delay).

(** The closure passed to [pickProvider], with the request it sends. *)
Definition Call (T : Type) : Type := WeatherProvider -> Request * (World -> Reply T).

Definition callNowcast : Call WeatherNowcast :=
  fun p => (ReqNowcast, getNowcast p).

Definition callForecast (rounded : Z) : Call (list WeatherForecastSlice) :=
  fun p => (ReqForecast rounded, getForecast p rounded).

(** [await withTimeout(fn(provider), opts.timeoutMs)] *)
Definition attempt {T} (o : ProviderChainOptions) (fn : Call T) (provider : WeatherProvider)
    (w : World) : (Error + T) * World :=
  let '(req, send) := fn provider in
  let '(result, d) := withTimeout (send w) (timeoutMs o) in
  (result, elapse d (record_attempt (name provider, req) w)).

(** [opts.retryBackoffSeconds[i]] *)
Definition schedule_at (schedule : list Z) (i : Z) : option Z :=
  if i <? 0 then None else schedule !! Z.to_nat i.

(** The two assignments made on exhaustion and in [markFailure]. *)
Definition advanceBackoff (o : ProviderChainOptions) (c : ChainState) (w : World) : ChainState :=
  let backoffIndex' :=
    Z.min (backoffIndex c + 1) (Z.of_nat (length (retryBackoffSeconds o)) - 1) in
  {| nowcastCache := nowcastCache c;
     forecastCache := forecastCache c;
     backoffIndex := backoffIndex';
     nextAllowedTs :=
       match schedule_at (retryBackoffSeconds o) backoffIndex' with
       | Some seconds => Some (Date_now w + seconds * 1000)
       | None => None
       end |}.

Definition resetBackoff (c : ChainState) : ChainState :=
  {| nowcastCache := nowcastCache c;
     forecastCache := forecastCache c;
     backoffIndex := 0;
     nextAllowedTs := Some 0 |}.

(** The [for] loop of [pickProvider] over the remaining providers. *)
Fixpoint pickProvider_from {T} (o : ProviderChainOptions) (fn : Call T)
    (remaining : list WeatherProvider) (lastError : option Error)
    (c : ChainState) (w : World) : (Error + T) * ChainState * World :=
  match remaining with
  | [] => (inl (Js.nullish lastError AllProvidersFailed), advanceBackoff o c w, w)
  | provider :: rest =>
      match attempt o fn provider w with
      | (inr result, w1) => (inr result, resetBackoff c, w1)
      | (inl error, w1) =>
          pickProvider_from o fn rest (Some error) c
            (log (WarnProviderFailed (name provider) error) w1)
      end
  end.

Definition pickProvider {T} (ch : ProviderChain) (fn : Call T) (c : ChainState) (w : World)
  : (Error + T) * ChainState * World :=
  pickProvider_from (opts ch) fn (providers ch) None c w.

Definition isCacheValid {T} (o : ProviderChainOptions) (w : World)
    (entry : option (CacheEntry T)) : bool :=
  match entry with
  | None => false
  | Some e => Date_now w - entry_ts e <? cacheTtlSeconds o * 1000
  end.

(** [nextAllowedTs && Date.now() < nextAllowedTs] *)
Definition backoffActive (c : ChainState) (w : World) : bool :=
  match nextAllowedTs c with
  | Some t => negb (t =? 0) && (Date_now w <? t)
  | None => false
  end.

(** [Math.round(wait / 1000)] for [wait = Math.max(0, nextAllowedTs - Date.now())] *)
Definition backoffSeconds (c : ChainState) (w : World) : Z :=
  let wait := Z.max 0 (Js.nullish (nextAllowedTs c) 0 - Date_now w) in
  (wait + 500) / 1000.

Definition set_nowcastCache (e : CacheEntry WeatherNowcast) (c : ChainState) : ChainState :=
  {| nowcastCache := Some e;
     forecastCache := forecastCache c;
     backoffIndex := backoffIndex c;
     nextAllowedTs := nextAllowedTs c |}.

Definition set_forecastCache (rounded : Z) (e : CacheEntry (list WeatherForecastSlice))
    (c : ChainState) : ChainState :=
  {| nowcastCache := nowcastCache c;
     forecastCache := <[rounded := e]> (forecastCache c);
     backoffIndex := backoffIndex c;
     nextAllowedTs := nextAllowedTs c |}.

(** [entry!.data] guarded by [isCacheValid(entry)]. *)
Definition validData {T} (o : ProviderChainOptions) (w : World)
    (entry : option (CacheEntry T)) : option T :=
  match entry with
  | Some e => if isCacheValid o w entry then Some (data e) else None
  | None => None
  end.

(** [getNowcast(force = false)] *)
Definition chain_getNowcast (ch : ProviderChain) (force : bool) (c : ChainState) (w : World)
  : (Error + WeatherNowcast) * ChainState * World :=
  match (if force then None else validData (opts ch) w (nowcastCache c)) with
  | Some cached => (inr cached, c, w)
  | None =>
      if backoffActive c w then
        match validData (opts ch) w (nowcastCache c) with
        | Some cached => (inr cached, c, w)
        | None => (inl (BackoffInEffect (backoffSeconds c w)), c, w)
        end
      else
        match pickProvider ch callNowcast c w with
        | (inr d, c1, w1) =>
            (inr d, set_nowcastCache {| data := d; entry_ts := Date_now w1 |} c1, w1)
        | (inl err, c1, w1) => (inl err, c1, w1)
        end
  end.

(** [Math.max(5, Math.ceil(lookaheadMinutes / 5) * 5)] *)
Definition roundLookahead (lookaheadMinutes : Z) : Z :=
  Z.max 5 (- ((- lookaheadMinutes) / 5) * 5).

(** [getForecast(lookaheadMinutes, force = false)] *)
Definition chain_getForecast (ch : ProviderChain) (lookaheadMinutes : Z) (force : bool)
    (c : ChainState) (w : World)
  : (Error + list WeatherForecastSlice) * ChainState * World :=
  let rounded := roundLookahead lookaheadMinutes in
  let cacheEntry := forecastCache c !! rounded in
  match (if force then None else validData (opts ch) w cacheEntry) with
  | Some cached => (inr cached, c, w)
  | None =>
      if backoffActive c w then
        match validData (opts ch) w cacheEntry with
        | Some cached => (inr cached, c, w)
        | None => (inl (BackoffInEffect (backoffSeconds c w)), c, w)
        end
      else
        match pickProvider ch (callForecast rounded) c w with
        | (inr d, c1, w1) =>
            (inr d, set_forecastCache rounded {| data := d; entry_ts := Date_now w1 |} c1, w1)
        | (inl err, c1, w1) => (inl err, c1, w1)
        end
  end.

(** [describe()] *)
Definition describe (ch : ProviderChain) : string :=
  String.concat " -> " (map name (providers ch)).

(** [markFailure()] *)
Definition markFailure (ch : ProviderChain) (c : ChainState) (w : World) : ChainState :=
  advanceBackoff (opts ch) c w.

(** Every provider of [ps] fails in turn, starting in world [w]: the last
    error and the world after the last failure was logged. *)
Fixpoint allFail {T} (o : ProviderChainOptions) (fn : Call T)
    (ps : list WeatherProvider) (lastError : option Error) (w : World)
  : option (option Error * World) :=
  match ps with
  | [] => Some (lastError, w)
  | provider :: rest =>
      match attempt o fn provider w with
      | (inl error, w1) =>
          allFail o fn rest (Some error) (log (WarnProviderFailed (name provider) error) w1)
      | (inr _, _) => None
      end
  end.

(** A call gets past the cache and the backoff gate to the providers. *)
Definition reachesProviders {T} (ch : ProviderChain) (force : bool)
    (entry : option (CacheEntry T)) (c : ChainState) (w : World) : Prop :=
  (if force then None else validData (opts ch) w entry) = None
  /\ backoffActive c w = false.

(** The providers [makeProviderChain] considers, in its fixed order. *)
Definition candidates (net : Network) (cfg : option ProviderConfig)
    (location : option ResolvedLocation) : list WeatherProvider :=
  let mode := Js.nullish (option_bind cfg mode) mode_auto in
  (if mode_is mode mode_weatherkit
   then [WeatherKitProvider (net_weatherkit net) (option_bind cfg weatherkit) location] else [])
  ++ (if mode_is mode mode_openweathermap
      then [OpenWeatherMapProvider (net_openweathermap net) (option_bind cfg openweathermap) location]
      else [])
  ++ (if mode_is mode mode_nws
         && Js.nullish (option_bind (option_bind cfg nws) nws_enabled) true
      then [NwsProvider (net_nws net) (option_bind cfg nws) location] else [])
  ++ (if mode_is mode mode_tomorrow
      then [TomorrowProvider (net_tomorrow net) (option_bind cfg tomorrow) location] else []).

End Provider.

(* ===================================================================== *)
(** * src/platform.ts *)
(* ===================================================================== *)

Module Platform.
Import Types Env.
Local Open Scope Z_scope.

Definition MIN_INTERVAL_SECONDS : Z := 60.
Definition MAX_INTERVAL_SECONDS : Z := 15 * 60.

Definition clamp (value min max : Z) : Z := Z.min max (Z.max min value).

(** The fields of a [RainSwitchPlatform] the core reads.  [localOffsetMs]
    is the host's time zone: local time minus UTC at an instant, in
    milliseconds, as [Date#getHours] and [Date#getMinutes] apply it. *)
Record RainSwitchPlatform := {
  providerChain : option Provider.ProviderChain;
  intervalMs : Z;
  minOnMs : Z;
  minOffMs : Z;
  timeoutMs : Z;
  cacheTtlSeconds : Z;
  retryBackoffSeconds : list Z;
  overrideMinutes : option Z;
  quietSchedule : option (Z * Z);
  debugEnabled : bool;
  localOffsetMs : Z -> Z;
}.

Definition is_space (c : ascii) : bool :=
  let n := nat_of_ascii c in
  (Nat.leb 9 n && Nat.leb n 13 || Nat.eqb n 32)%bool.

Fixpoint trimStart (s : string) : string :=
  match s with
  | String c rest => if is_space c then trimStart rest else s
  | EmptyString => EmptyString
  end.

Fixpoint trimEnd (s : string) : string :=
  match s with
  | EmptyString => EmptyString
  | String c rest =>
      match trimEnd rest with
      | EmptyString => if is_space c then EmptyString else String c EmptyString
      | rest' => String c rest'
      end
  end.

(** [value.trim()] *)
Definition trim (s : string) : string := trimEnd (trimStart s).

(** [\d] with the digit's value. *)
Definition digit (c : ascii) : option Z :=
  let n := nat_of_ascii c in
  if (Nat.leb 48 n && Nat.leb n 57)%bool then Some (Z.of_nat n - 48) else None.

(** The match of [/^(\d{1,2}):(\d{2})$/] with both groups read by
    [parseInt(_, 10)]. *)
Definition matchTime (s : string) : option (Z * Z) :=
  match String.list_ascii_of_string s with
  | [h; colon; m1; m2] =>
      match digit h, Ascii.eqb colon ":", digit m1, digit m2 with
      | Some a, true, Some c, Some d => Some (a, c * 10 + d)
      | _, _, _, _ => None
      end
  | [h1; h2; colon; m1; m2] =>
      match digit h1, digit h2, Ascii.eqb colon ":", digit m1, digit m2 with
      | Some a, Some b, true, Some c, Some d => Some (a * 10 + b, c * 10 + d)
      | _, _, _, _, _ => None
      end
  | _ => None
  end.

Definition parseTimeString (value : string) : option Z :=
  match matchTime (trim value) with
  | None => None
  | Some (hours, minutes) =>
      if (hours <? 0) || (24 <=? hours) || (minutes <? 0) || (60 <=? minutes)
      then None
      else Some (hours * 60 + minutes)
  end.

Definition parseQuietHours (quietHours : option QuietHoursConfig) : option (Z * Z) :=
  match quietHours with
  | None => None
  | Some q =>
      if negb (Js.truthy_opt_string (quiet_start q)) || negb (Js.truthy_opt_string (quiet_end q))
      then None
      else
        match parseTimeString (Js.nullish (quiet_start q) ""),
              parseTimeString (Js.nullish (quiet_end q) "") with
        | Some start, Some end_ => Some (start, end_)
        | _, _ => None
        end
  end.

(** The constructor's field initialisation. *)
Definition newPlatform (config : RainSwitchPlatformConfig) (localOffsetMs : Z -> Z)
  : RainSwitchPlatform :=
  let pol := polling config in
  let adv := advanced config in
  let intervalSeconds :=
    clamp (Js.nullish (Provider.option_bind pol intervalSeconds) 180)
          MIN_INTERVAL_SECONDS MAX_INTERVAL_SECONDS in
  {| providerChain := None;
     intervalMs := intervalSeconds * 1000;
     minOnMs := Js.nullish (Provider.option_bind pol minOnDurationSeconds) 300 * 1000;
     minOffMs := Js.nullish (Provider.option_bind pol minOffDurationSeconds) 300 * 1000;
     timeoutMs := Js.nullish (Provider.option_bind pol polling_timeoutMs) 5000;
     cacheTtlSeconds := Js.nullish (Provider.option_bind adv adv_cacheTtlSeconds) 60;
     retryBackoffSeconds :=
       match Provider.option_bind adv adv_retryBackoffSeconds with
       | Some (x :: l) => x :: l
       | _ => [30; 60; 120; 300]
       end;
     overrideMinutes := Provider.option_bind adv adv_overrideMinutes;
     quietSchedule := parseQuietHours (Provider.option_bind adv quietHours);
     debugEnabled :=
       match Provider.option_bind adv logLevel with
       | Some level_debug => true
       | _ => false
       end;
     localOffsetMs := localOffsetMs |}.

(** [new Date(now).getHours()] and [.getMinutes()] *)
Definition getHours (p : RainSwitchPlatform) (now : Z) : Z :=
  ((now + localOffsetMs p now) / 3600000) mod 24.

Definition getMinutes (p : RainSwitchPlatform) (now : Z) : Z :=
  ((now + localOffsetMs p now) / 60000) mod 60.

(** The minute of the local day of a timestamp. *)
Definition minuteOfDay (p : RainSwitchPlatform) (now : Z) : Z :=
  getHours p now * 60 + getMinutes p now.

Definition isWithinQuietHours (p : RainSwitchPlatform) (now : Z) : bool :=
  match quietSchedule p with
  | None => false
  | Some (start, end_) =>
      let minutes := minuteOfDay p now in
      if start <=? end_
      then (start <=? minutes) && (minutes <? end_)
      else (start <=? minutes) || (minutes <? end_)
  end.

(** [platform.getForecast(lookaheadMinutes)] *)
Definition getForecast (p : RainSwitchPlatform) (lookaheadMinutes : Z)
    (c : Provider.ChainState) (w : World)
  : (Error + list WeatherForecastSlice) * Provider.ChainState * World :=
  match providerChain p with
  | None => (inl ChainNotReady, c, w)
  | Some ch => Provider.chain_getForecast ch lookaheadMinutes false c w
  end.

Definition getHysteresisConfig (p : RainSwitchPlatform) : Hysteresis.HysteresisOptions :=
  {| Hysteresis.minOnMs := Hysteresis.Num (minOnMs p);
     Hysteresis.minOffMs := Hysteresis.Num (minOffMs p) |}.

Definition getOverrideMinutes (p : RainSwitchPlatform) : option Z := overrideMinutes p.

(** [platform.debug(...)]: logs only when [debugEnabled]. *)
Definition debug (p : RainSwitchPlatform) (e : LogEvent) (w : World) : World :=
  if debugEnabled p then log e w else w.

End Platform.

(* ===================================================================== *)
(** * src/rainAccessory.ts *)
(* ===================================================================== *)

Module RainAccessory.
Import Types Env.
Local Open Scope Z_scope.

Definition DEFAULT_RAIN_THRESHOLD : float := 0.05.
Definition DEFAULT_SNOW_THRESHOLD : float := 0.05.
Definition DEFAULT_LOOKAHEAD_MINUTES : Z := 60.
Definition DEFAULT_POP_THRESHOLD : float := 40.
Definition DEFAULT_INTENSITY_THRESHOLD : float := 0.2.

Record AccessoryMetadata := {
  lastUpdate : Z;
  meta_providerName : string;
  meta_precipMmHr : float;
  probability : option float;
}.

Record ForecastResult := {
  triggeredSlice : option WeatherForecastSlice;
  shouldActivate : bool;
}.

(** The fields of a [RainAccessory]. *)
Record RainAccessory := {
  platform : Platform.RainSwitchPlatform;
  config : RainAccessoryConfig;
  overrideMinutes : option Z;
  hysteresis : Hysteresis.Gate;
  currentState : bool;
  overrideState : option bool;
  overrideUntil : Z;
  faulted : bool;
  metadata : AccessoryMetadata;
}.

Definition set_metadata (m : AccessoryMetadata) (a : RainAccessory) : RainAccessory :=
  {| platform := platform a; config := config a; overrideMinutes := overrideMinutes a;
     hysteresis := hysteresis a; currentState := currentState a;
     overrideState := overrideState a; overrideUntil := overrideUntil a;
     faulted := faulted a; metadata := m |}.

Definition set_currentState (s : bool) (a : RainAccessory) : RainAccessory :=
  {| platform := platform a; config := config a; overrideMinutes := overrideMinutes a;
     hysteresis := hysteresis a; currentState := s;
     overrideState := overrideState a; overrideUntil := overrideUntil a;
     faulted := faulted a; metadata := metadata a |}.

Definition set_hysteresis (g : Hysteresis.Gate) (a : RainAccessory) : RainAccessory :=
  {| platform := platform a; config := config a; overrideMinutes := overrideMinutes a;
     hysteresis := g; currentState := currentState a;
     overrideState := overrideState a; overrideUntil := overrideUntil a;
     faulted := faulted a; metadata := metadata a |}.

Definition set_override (s : option bool) (until : Z) (a : RainAccessory) : RainAccessory :=
  {| platform := platform a; config := config a; overrideMinutes := overrideMinutes a;
     hysteresis := hysteresis a; currentState := currentState a;
     overrideState := s; overrideUntil := until;
     faulted := faulted a; metadata := metadata a |}.

Definition set_faulted (f : bool) (a : RainAccessory) : RainAccessory :=
  {| platform := platform a; config := config a; overrideMinutes := overrideMinutes a;
     hysteresis := hysteresis a; currentState := currentState a;
     overrideState := overrideState a; overrideUntil := overrideUntil a;
     faulted := f; metadata := metadata a |}.

(** The constructor: field initialisers and the [StatusFault] update. *)
Definition newRainAccessory (p : Platform.RainSwitchPlatform) (cfg : RainAccessoryConfig)
    (w : World) : RainAccessory * World :=
  ({| platform := p; config := cfg;
      overrideMinutes := Platform.getOverrideMinutes p;
      hysteresis := Hysteresis.makeHysteresis;
      currentState := false;
      overrideState := None;
      overrideUntil := 0;
      faulted := false;
      metadata := {| lastUpdate := 0; meta_providerName := ""; meta_precipMmHr := 0;
                     probability := None |} |},
   emit (UpdateStatusFault (acc_name cfg) false) w).

Definition isRain (weather : WeatherNowcast) : bool :=
  match type weather with
  | rain | sleet => true
  | _ => false
  end.

(** [a >= b] on doubles. *)
Definition geq (a b : float) : bool := PrimFloat.leb b a.

(** The [desired] of a 'rain-now' accessory. *)
Definition desiredRainNow (cfg : RainAccessoryConfig) (weather : WeatherNowcast) : bool :=
  isRain weather
  && geq (precipMmHr weather) (Js.nullish (thresholdMmPerHr cfg) DEFAULT_RAIN_THRESHOLD).

(** The [nowActive] of a 'snow-mode' accessory. *)
Definition nowActiveSnow (cfg : RainAccessoryConfig) (weather : WeatherNowcast) : bool :=
  PrecipType_eqb (type weather) snow
  && geq (precipMmHr weather) (Js.nullish (thresholdMmPerHr cfg) DEFAULT_SNOW_THRESHOLD).

(** One iteration of the loop in [evaluateForecast]: [true] when the
    slice reaches [shouldActivate = true], [false] on each [continue]. *)
Definition sliceTriggers (target : PrecipType) (lookahead : Z)
    (popThreshold intensityThreshold : float) (slice : WeatherForecastSlice) : bool :=
  if (minutesFromNow slice <? 0) || (lookahead <? minutesFromNow slice) then false
  else if negb (PrecipType_eqb (slice_type slice) target) then false
  else if PrimFloat.ltb (Js.nullish (slice_pop slice) 0%float) popThreshold then false
  else if PrimFloat.ltb (slice_precipMmHr slice) intensityThreshold then false
  else true.

Fixpoint scanSlices (target : PrecipType) (lookahead : Z)
    (popThreshold intensityThreshold : float) (slices : list WeatherForecastSlice)
  : ForecastResult :=
  match slices with
  | [] => {| triggeredSlice := None; shouldActivate := false |}
  | slice :: rest =>
      if sliceTriggers target lookahead popThreshold intensityThreshold slice
      then {| triggeredSlice := Some slice; shouldActivate := true |}
      else scanSlices target lookahead popThreshold intensityThreshold rest
  end.

(** [evaluateForecast(target)], [target] being 'rain' or 'snow'. *)
Definition evaluateForecast (a : RainAccessory) (target : PrecipType)
    (c : Provider.ChainState) (w : World)
  : (Error + ForecastResult) * Provider.ChainState * World :=
  let lookahead := Js.nullish (lookaheadMinutes (config a)) DEFAULT_LOOKAHEAD_MINUTES in
  let popThreshold := Js.nullish (popThreshold (config a)) DEFAULT_POP_THRESHOLD in
  let intensityThreshold :=
    Js.nullish (intensityThresholdMmPerHr (config a)) DEFAULT_INTENSITY_THRESHOLD in
  match Platform.getForecast (platform a) lookahead c w with
  | (inl err, c1, w1) => (inl err, c1, w1)
  | (inr slices, c1, w1) =>
      (inr (scanSlices target lookahead popThreshold intensityThreshold slices), c1, w1)
  end.

(** [updateState(state, logChange)] *)
Definition updateState (state logChange : bool) (a : RainAccessory) (w : World)
  : RainAccessory * World :=
  if Bool.eqb (currentState a) state then
    (a, emit (UpdateOn (acc_name (config a)) state) w)
  else
    let a1 := set_currentState state a in
    let w1 := if logChange then log (InfoTransition (acc_name (config a)) state) w else w in
    (a1, emit (UpdateOn (acc_name (config a)) state) w1).

(** [publishMetadata(weather, slice)] *)
Definition publishMetadata (weather : WeatherNowcast) (slice : option WeatherForecastSlice)
    (a : RainAccessory) (w : World) : World :=
  emit (PublishMetadata (acc_name (config a)) weather slice) w.

(** [clearFault()] *)
Definition clearFault (a : RainAccessory) (w : World) : RainAccessory * World :=
  (set_faulted false a, emit (UpdateStatusFault (acc_name (config a)) false) w).

(** [markFault()] *)
Definition markFault (a : RainAccessory) (w : World) : RainAccessory * World :=
  let '(a1, w1) :=
    if faulted a then (a, w)
    else (set_faulted true a, log (WarnMarkingFault (acc_name (config a))) w) in
  (a1, emit (UpdateStatusFault (acc_name (config a)) true) w1).

(** The tail of [evaluate] once [desired] and [forecastOutcome] are known. *)
Definition settle (quiet : bool) (now : Z) (weather : WeatherNowcast) (desired : bool)
    (forecastOutcome : option ForecastResult) (a : RainAccessory) (w : World)
  : RainAccessory * World :=
  let slice := Provider.option_bind forecastOutcome triggeredSlice in
  if quiet then
    let w1 := Platform.debug (platform a)
                (DebugQuiet (acc_name (config a)) (currentState a)) w in
    clearFault a (publishMetadata weather slice a w1)
  else
    let '(nextState, g) :=
      Hysteresis.next (Platform.getHysteresisConfig (platform a)) (hysteresis a) desired now in
    let a1 := set_hysteresis g a in
    let '(a2, w1) := updateState nextState (negb (Bool.eqb desired (currentState a1))) a1 w in
    clearFault a2 (publishMetadata weather slice a2 w1).

(** [this.overrideUntil && now < this.overrideUntil && this.overrideState !== null],
    with the pinned value when it holds. *)
Definition activeOverride (a : RainAccessory) (now : Z) : option bool :=
  if negb (overrideUntil a =? 0) && (now <? overrideUntil a) then overrideState a else None.

(** The three assignments made when an override has expired:
    [overrideUntil = 0], [overrideState = null],
    [hysteresis.reset(this.currentState)]. *)
Definition expireOverride (a : RainAccessory) : RainAccessory :=
  set_hysteresis (Hysteresis.reset (Some (currentState a)) (hysteresis a))
    (set_override None 0 a).

(** [evaluate(weather)] when nothing else runs while it awaits the
    forecast; [evaluate_begin] and [evaluate_resume] below are its two
    halves, and [evaluate_interrupted] is the call during whose wait manual
    toggles are handled. *)
Definition evaluate (a : RainAccessory) (weather : WeatherNowcast)
    (c : Provider.ChainState) (w : World)
  : (Error + unit) * RainAccessory * Provider.ChainState * World :=
  let now := Date_now w in
  let quiet := Platform.isWithinQuietHours (platform a) now in
  let a := set_metadata {| lastUpdate := now;
                           meta_providerName := providerName weather;
                           meta_precipMmHr := precipMmHr weather;
                           probability := pop weather |} a in
  match activeOverride a now with
  | Some pinned =>
      let w1 := Platform.debug (platform a)
                  (DebugOverride (acc_name (config a)) (overrideUntil a)) w in
      let '(a1, w2) := updateState pinned false a w1 in
      let '(a2, w3) := clearFault a1 (publishMetadata weather None a1 w2) in
      (inr tt, a2, c, w3)
  | None =>
      let '(a, w) :=
        if negb (overrideUntil a =? 0) && (overrideUntil a <=? now) then
          (expireOverride a, log (InfoOverrideExpired (acc_name (config a))) w)
        else (a, w) in
      match acc_type (config a) with
      | rain_now =>
          let '(a1, w1) := settle quiet now weather (desiredRainNow (config a) weather) None a w in
          (inr tt, a1, c, w1)
      | rain_soon =>
          match evaluateForecast a rain c w with
          | (inl err, c1, w1) => (inl err, a, c1, w1)
          | (inr forecastOutcome, c1, w1) =>
              let '(a1, w2) :=
                settle quiet now weather (shouldActivate forecastOutcome)
                  (Some forecastOutcome) a w1 in
              (inr tt, a1, c1, w2)
          end
      | snow_mode =>
          let nowActive := nowActiveSnow (config a) weather in
          match evaluateForecast a snow c w with
          | (inl err, c1, w1) => (inl err, a, c1, w1)
          | (inr forecastOutcome, c1, w1) =>
              let '(a1, w2) :=
                settle quiet now weather (nowActive || shouldActivate forecastOutcome)
                  (Some forecastOutcome) a w1 in
              (inr tt, a1, c1, w2)
          end
      end
  end.

(** A value HomeKit passes to the [On] setter. *)
Inductive JsValue := VBool (b : bool) | VNumber (z : Z) | VOther.

(** [value === true || value === 1] *)
Definition toggledValue (value : JsValue) : bool :=
  match value with
  | VBool true => true
  | VNumber 1 => true
  | _ => false
  end.

(** [handleSetOn(value)] *)
Definition handleSetOn (value : JsValue) (a : RainAccessory) (w : World)
  : RainAccessory * World :=
  let desired := toggledValue value in
  let a := set_currentState desired a in
  let w := emit (UpdateOn (acc_name (config a)) desired) w in
  match overrideMinutes a with
  | Some minutes =>
      if 0 <? minutes then
        let a := set_override (Some desired) (Date_now w + minutes * 60000) a in
        let w := log (InfoManualSet (acc_name (config a)) desired minutes) w in
        (set_hysteresis (Hysteresis.reset (Some desired) (hysteresis a)) a, w)
      else
        (set_hysteresis (Hysteresis.reset (Some desired) (hysteresis a)) a, w)
  | None =>
      (set_hysteresis (Hysteresis.reset (Some desired) (hysteresis a)) a, w)
  end.

(** The locals [evaluate] holds while it awaits [evaluateForecast]:
    [now], [quiet], [weather], the target of the forecast and [nowActive]
    (which a 'rain-soon' accessory does not have: false). *)
Record Awaiting := {
  aw_now : Z;
  aw_quiet : bool;
  aw_weather : WeatherNowcast;
  aw_target : PrecipType;
  aw_nowActive : bool;
}.

(** [evaluate(weather)] as far as it runs without waiting: to its end
    under an active override and for a 'rain-now' accessory, and otherwise
    up to the [await] of the forecast, where it keeps its locals. *)
Definition evaluate_begin (a : RainAccessory) (weather : WeatherNowcast) (w : World)
  : RainAccessory * World * option Awaiting :=
  let now := Date_now w in
  let quiet := Platform.isWithinQuietHours (platform a) now in
  let a := set_metadata {| lastUpdate := now;
                           meta_providerName := providerName weather;
                           meta_precipMmHr := precipMmHr weather;
                           probability := pop weather |} a in
  match activeOverride a now with
  | Some pinned =>
      let w1 := Platform.debug (platform a)
                  (DebugOverride (acc_name (config a)) (overrideUntil a)) w in
      let '(a1, w2) := updateState pinned false a w1 in
      let '(a2, w3) := clearFault a1 (publishMetadata weather None a1 w2) in
      (a2, w3, None)
  | None =>
      let '(a, w) :=
        if negb (overrideUntil a =? 0) && (overrideUntil a <=? now) then
          (expireOverride a, log (InfoOverrideExpired (acc_name (config a))) w)
        else (a, w) in
      match acc_type (config a) with
      | rain_now =>
          let '(a1, w1) := settle quiet now weather (desiredRainNow (config a) weather) None a w in
          (a1, w1, None)
      | rain_soon =>
          (a, w, Some {| aw_now := now; aw_quiet := quiet; aw_weather := weather;
                         aw_target := rain; aw_nowActive := false |})
      | snow_mode =>
          (a, w, Some {| aw_now := now; aw_quiet := quiet; aw_weather := weather;
                         aw_target := snow;
                         aw_nowActive := nowActiveSnow (config a) weather |})
      end
  end.

(** The rest of [evaluate], from the moment the awaited
    [platform.getForecast] has settled with [fetched]: it runs on the
    accessory as it is then, with the locals of before the wait. *)
Definition evaluate_resume (k : Awaiting) (fetched : Error + list WeatherForecastSlice)
    (a : RainAccessory) (w : World) : (Error + unit) * RainAccessory * World :=
  match fetched with
  | inl err => (inl err, a, w)
  | inr slices =>
      let forecastOutcome :=
        scanSlices (aw_target k)
          (Js.nullish (lookaheadMinutes (config a)) DEFAULT_LOOKAHEAD_MINUTES)
          (Js.nullish (popThreshold (config a)) DEFAULT_POP_THRESHOLD)
          (Js.nullish (intensityThresholdMmPerHr (config a)) DEFAULT_INTENSITY_THRESHOLD)
          slices in
      let '(a1, w1) :=
        settle (aw_quiet k) (aw_now k) (aw_weather k)
          (aw_nowActive k || shouldActivate forecastOutcome) (Some forecastOutcome) a w in
      (inr tt, a1, w1)
  end.

(** The manual toggles HomeKit delivers while an evaluation waits, each
    handled [offset] ms after the evaluation [began] to wait: [handleSetOn]
    reads the clock of that moment; what it logs and sends to HomeKit is
    added to the events of [w]. *)
Fixpoint toggledDuring (toggles : list (N * JsValue)) (began : World)
    (a : RainAccessory) (w : World) : RainAccessory * World :=
  match toggles with
  | [] => (a, w)
  | (offset, value) :: rest =>
      toggledDuring rest began
        (fst (handleSetOn value a (elapse offset began)))
        (snd (handleSetOn value a w))
  end.

(** [evaluate(weather)] with the manual toggles that are handled while it
    awaits its forecast. The evaluation runs to the [await], where the
    request for the forecast has been made; the toggles are handled during
    the wait, each at its offset (at most the time the request takes); when
    the request has settled the evaluation resumes on the accessory as it
    is then. An evaluation that does not wait leaves no room for them. *)
Definition evaluate_interrupted (a : RainAccessory) (weather : WeatherNowcast)
    (toggles : list (N * JsValue)) (c : Provider.ChainState) (w : World)
  : (Error + unit) * RainAccessory * Provider.ChainState * World :=
  match evaluate_begin a weather w with
  | (a1, w1, None) => (inr tt, a1, c, w1)
  | (a1, w1, Some k) =>
      let lookahead := Js.nullish (lookaheadMinutes (config a1)) DEFAULT_LOOKAHEAD_MINUTES in
      let '(fetched, c1, w2) := Platform.getForecast (platform a1) lookahead c w1 in
      let '(a2, w3) := toggledDuring toggles w1 a1 w2 in
      let '(r, a3, w4) := evaluate_resume k fetched a2 w3 in
      (r, a3, c1, w4)
  end.


(** Two accessory states of the same accessory: same platform, same
    configuration, same override duration. *)
Definition sameSetup (a a' : RainAccessory) : Prop :=
  platform a' = platform a /\ config a' = config a /\ overrideMinutes a' = overrideMinutes a.



(** The same reading reported with another precipitation type. *)
Definition withType (t : PrecipType) (weather : WeatherNowcast) : WeatherNowcast :=
  {| ts := ts weather; providerName := providerName weather;
     precipMmHr := precipMmHr weather; pop := pop weather; type := t;
     temperatureC := temperatureC weather |}.

End RainAccessory.

(* ===================================================================== *)
(** * The adapters' condition mappings (src/providers/*.ts) *)
(* ===================================================================== *)

Module Adapters.
Import Types.

(** ** nws.ts *)

(** An element of an NWS weather value: [{ weather?, coverage? }]. *)
Record NwsCondition := { nws_weather : option string; nws_coverage : option string }.

(** The text a condition is matched on:
    [(condition.weather ?? condition.coverage ?? '').toLowerCase()]. *)
Definition conditionText (condition : NwsCondition) : string :=
  Js.toLowerCase (Js.nullish (nws_weather condition) (Js.nullish (nws_coverage condition) "")).

Definition impliesSnow (weather : string) : bool := Js.includes weather "snow".

Definition impliesRainNws (weather : string) : bool :=
  Js.includes weather "rain" || Js.includes weather "showers"
  || Js.includes weather "rain showers".

(** The [for] loop of [determineWeatherType]. *)
Fixpoint determineWeatherType_loop (value : list NwsCondition) : PrecipType :=
  match value with
  | [] => none
  | condition :: rest =>
      let weather := conditionText condition in
      if impliesSnow weather then snow
      else if impliesRainNws weather then rain
      else determineWeatherType_loop rest
  end.

Definition determineWeatherType (value : option (list NwsCondition)) : PrecipType :=
  match value with
  | None | Some [] => none
  | Some l => determineWeatherType_loop l
  end.

(** ** openweathermap.ts *)

Record OwmWeather := { owm_main : option string; owm_description : option string }.

(** [(x ?? 0) > 0.01] *)
Definition above_trace (x : option float) : bool :=
  PrimFloat.ltb 0.01%float (Js.nullish x 0%float).

(** [(entry?.main ?? entry?.description ?? '').toLowerCase()] for
    [entry = weather?.[0]]. *)
Definition owmText (weather : option (list OwmWeather)) : string :=
  let entry := match weather with Some (e :: _) => Some e | _ => None end in
  Js.toLowerCase
    (match entry with
     | Some e => Js.nullish (owm_main e) (Js.nullish (owm_description e) "")
     | None => ""
     end).

Definition resolveType (weather : option (list OwmWeather)) (rain_ snow_ : option float)
  : PrecipType :=
  if above_trace snow_ then snow
  else if above_trace rain_ then rain
  else
    let text := owmText weather in
    if Js.includes text "snow" then snow
    else if Js.includes text "rain" || Js.includes text "drizzle" || Js.includes text "shower"
    then rain
    else none.

(** ** weatherkit.ts *)

Definition resolvePrecipType (value : option string) : PrecipType :=
  if negb (Js.truthy_opt_string value) then none
  else
    let normalized := Js.toLowerCase (Js.nullish value "") in
    if Js.includes normalized "snow" then snow
    else if Js.includes normalized "sleet" || Js.includes normalized "mix" then sleet
    else if Js.includes normalized "rain" || Js.includes normalized "drizzle"
            || Js.includes normalized "showers"
    then rain
    else none.

(** ** tomorrow.ts *)

Definition mapPrecipitationType (value : option float) : PrecipType :=
  match value with
  | None => none
  | Some v =>
      if PrimFloat.eqb v 1 then rain
      else if PrimFloat.eqb v 2 then snow
      else if PrimFloat.eqb v 3 || PrimFloat.eqb v 4 then sleet
      else none
  end.

(** An NWS condition that mentions no precipitation keyword. *)
Definition silent (condition : NwsCondition) : Prop :=
  impliesSnow (conditionText condition) = false
  /\ impliesRainNws (conditionText condition) = false.

(** Snow precedence over a whole NWS condition list: a list with a
    snow-implying entry maps to snow, wherever the entry stands. *)
Definition snowWinsInList (value : list NwsCondition) : Prop :=
  (exists condition, In condition value /\ impliesSnow (conditionText condition) = true) ->
  determineWeatherType (Some value) = snow.

End Adapters.

(* ===================================================================== *)
(** * src/util/geo.ts *)
(* ===================================================================== *)

Module Geo.
Import Types.
Local Open Scope Z_scope.

Record LocationCacheEntry := {
  entry_lat : float;
  entry_lon : float;
  entry_source : string;
  entry_ts : Z;
}.

(** A value of type [LocationCache] at run time. [JSON.parse] returns
    whatever the file holds and the cast to [LocationCache] checks nothing,
    so the value is a JSON object (its entries, read as the interface
    [LocationCacheEntry] declares them), an array, [null], or a number,
    string or boolean, which carries the text an error message shows it
    with, such as [number '5']. *)
Inductive LocationCache :=
| Object (entries : gmap string LocationCacheEntry)
| Array
| Null
| Primitive (shown : string).

(** The entry [cache[key]] holds under one of the keys the resolver uses
    ('explicit', 'auto', 'addr:...'): only an object has such properties. *)
#[global] Instance cache_lookup : Lookup string LocationCacheEntry LocationCache :=
  fun key cache =>
    match cache with
    | Object entries => entries !! key
    | Array | Null | Primitive _ => None
    end.

(** What a cache file holds: text that parses to a value, or something
    [readFile] / [JSON.parse] throws on. *)
Inductive File :=
| Json (cache : LocationCache)
| Unreadable.

(** A [TypeError] of the engine, with its message as V8 words it. *)
Inductive Thrown := TypeError (message : string).

Definition message_of (e : Thrown) : string :=
  match e with TypeError message => message end.

(** Reading [cache[key]]: [undefined] where there is no such property,
    and a [TypeError] on [null]. *)
Definition get (key : string) (cache : LocationCache)
  : Thrown + option LocationCacheEntry :=
  match cache with
  | Null =>
      inl (TypeError (String.append "Cannot read properties of null (reading '"
                        (String.append key "')")))
  | _ => inr (cache !! key)
  end.

(** The assignment [cache[key] = entry] in strict mode. An array takes the
    property, but nothing reads it before the call returns and
    [JSON.stringify] leaves it out, so the array stands for itself; [null]
    and the primitive values throw. *)
Definition set (key : string) (entry : LocationCacheEntry) (cache : LocationCache)
  : Thrown + LocationCache :=
  match cache with
  | Object entries => inr (Object (<[key := entry]> entries))
  | Array => inr Array
  | Null =>
      inl (TypeError (String.append "Cannot set properties of null (setting '"
                        (String.append key "')")))
  | Primitive shown =>
      inl (TypeError (String.append "Cannot create property '"
                        (String.append key (String.append "' on " shown))))
  end.

Inductive GeoRequest := Geocode (address : string) | IpLookup.

Inductive GeoLog :=
| DebugCachedGeocode (address : string)
| InfoGeocoded (address : string) (lat lon : float)
| WarnGeocodeFailed (address : string)
| WarnGeocodeError (address : string) (message : string)
| DebugCachedAuto
| InfoResolvedAuto (lat lon : float)
| WarnAutoFailed (message : string)
| DebugFallbackExplicit.

(** The answer of the geocoding service: an HTTP or parse failure, or the
    result array with [parseFloat] applied to each [lat] and [lon]. *)
Definition GeocodeReply : Type := (string + list (float * float)) * N.

(** A field of the IP service's answer: missing ([undefined] or [null]),
    a number, or a value of another type. *)
Inductive Field := Missing | Number (x : float) | NotANumber.

(** [a ?? b] *)
Definition coalesce (a b : Field) : Field :=
  match a with Missing => b | _ => a end.

(** The answer of the IP service: the fields [latitude], [longitude],
    [lat], [lon]. *)
Record IpData := {
  ip_latitude : Field;
  ip_longitude : Field;
  ip_lat : Field;
  ip_lon : Field;
}.

Definition IpReply : Type := (string + IpData) * N.

(** The world of the resolver: clock, files by path, whether writing to a
    path succeeds, the network requests made and the log, oldest first. *)
Record World := {
  clock : N;
  files : gmap string File;
  writable : string -> bool;
  requests : list GeoRequest;
  geolog : list GeoLog;
}.

Record Services := {
  homedir : string;
  geocoder : string -> World -> GeocodeReply;
  iplookup : World -> IpReply;
}.

Definition Date_now (w : World) : Z := Js.ms_of_clock (clock w).

Definition CACHE_DIR_NAME : string := "rain-switch".
Definition CACHE_FILE_NAME : string := "location-cache.json".

(** [path.join(a, b)] on names that need no normalising. *)
Definition join (a b : string) : string := String.append a (String.append "/" b).

Definition LEGACY_CACHE_FILE (sv : Services) : string :=
  join (homedir sv) ".homebridge-rain-switch-cache.json".

Definition getCacheFile (sv : Services) (storagePath : option string) : string :=
  match storagePath with
  | Some p =>
      if Js.truthy_string p then join (join p CACHE_DIR_NAME) CACHE_FILE_NAME
      else LEGACY_CACHE_FILE sv
  | None => LEGACY_CACHE_FILE sv
  end.

Definition existsSync (w : World) (path : string) : bool :=
  match files w !! path with Some _ => true | None => false end.

Definition write_file (path : string) (f : File) (w : World) : World :=
  {| clock := clock w; files := <[path := f]> (files w); writable := writable w;
     requests := requests w; geolog := geolog w |}.

Definition log (e : GeoLog) (w : World) : World :=
  {| clock := clock w; files := files w; writable := writable w;
     requests := requests w; geolog := geolog w ++ [e] |}.

Definition request (r : GeoRequest) (d : N) (w : World) : World :=
  {| clock := (clock w + d)%N; files := files w; writable := writable w;
     requests := requests w ++ [r]; geolog := geolog w |}.

(** [saveCache(storagePath, cache)]: failures of [mkdir] and [writeFile]
    are swallowed. *)
Definition saveCache (sv : Services) (storagePath : option string)
    (cache : LocationCache) (w : World) : World :=
  let cacheFile := getCacheFile sv storagePath in
  if writable w cacheFile then write_file cacheFile (Json cache) w else w.

(** [loadCache(storagePath)] *)
Definition loadCache (sv : Services) (storagePath : option string) (w : World)
  : LocationCache * World :=
  let cacheFile := getCacheFile sv storagePath in
  match files w !! cacheFile with
  | Some (Json cache) => (cache, w)
  | Some Unreadable => (Object ∅, w)
  | None =>
      if Js.truthy_opt_string storagePath then
        match files w !! LEGACY_CACHE_FILE sv with
        | Some (Json legacyCache) => (legacyCache, saveCache sv storagePath legacyCache w)
        | Some Unreadable => (Object ∅, w)
        | None => (Object ∅, w)
        end
      else (Object ∅, w)
  end.

(** [isFiniteCoordinate(value)] *)
Definition isFiniteCoordinate (value : option float) : bool :=
  match value with
  | Some v => Js.isFinite v
  | None => false
  end.

Definition resolved (e : LocationCacheEntry) : ResolvedLocation :=
  {| lat := entry_lat e; lon := entry_lon e; source := entry_source e |}.

(** What [resolveLocation] settles with: a rejection with the error
    thrown, or the location, [None] for [null]. *)
Definition Outcome : Type := (Thrown + option ResolvedLocation) * World.

(** The last step of [resolveLocation]: the cached explicit coordinates. *)
Definition fallbackExplicit (cache : LocationCache) (w : World) : Outcome :=
  match get "explicit" cache with
  | inl err => (inl err, w)
  | inr (Some e) => (inr (Some (resolved e)), log DebugFallbackExplicit w)
  | inr None => (inr None, w)
  end.

(** The cached automatic location while younger than seven days. *)
Definition cachedAuto (cached : option LocationCacheEntry) (w : World)
  : option LocationCacheEntry :=
  match cached with
  | Some cached =>
      if Date_now w - entry_ts cached <? 7 * 24 * 60 * 60 * 1000 then Some cached else None
  | None => None
  end.

(** The [cfg?.mode === 'auto' || !cfg] step and what follows it. The read
    of [cache['auto']] stands before the [try]; the assignment stands
    inside it, so that what it throws is logged as a failed lookup. A
    field of the answer passes [isFiniteCoordinate] when it is a finite
    number. *)
Definition resolveAuto (sv : Services) (cfg : option LocationConfig)
    (storagePath : option string) (cache : LocationCache) (w : World) : Outcome :=
  let isAuto :=
    match cfg with
    | None => true
    | Some c => match loc_mode c with Some loc_auto => true | _ => false end
    end in
  if isAuto then
    match get "auto" cache with
    | inl err => (inl err, w)
    | inr cached =>
        match cachedAuto cached w with
        | Some cached => (inr (Some (resolved cached)), log DebugCachedAuto w)
        | None =>
            let '(reply, d) := iplookup sv w in
            let w := request IpLookup d w in
            match reply with
            | inr data =>
                let lat := coalesce (ip_latitude data) (ip_lat data) in
                let lon := coalesce (ip_longitude data) (ip_lon data) in
                match lat, lon with
                | Number la, Number lo =>
                    if Js.isFinite la && Js.isFinite lo then
                      match set "auto" {| entry_lat := la; entry_lon := lo;
                                          entry_source := "ip";
                                          entry_ts := Date_now w |} cache with
                      | inr cache =>
                          let w := saveCache sv storagePath cache w in
                          (inr (Some {| lat := la; lon := lo; source := "ip" |}),
                           log (InfoResolvedAuto la lo) w)
                      | inl err =>
                          fallbackExplicit cache (log (WarnAutoFailed (message_of err)) w)
                      end
                    else fallbackExplicit cache w
                | _, _ => fallbackExplicit cache w
                end
            | inl message => fallbackExplicit cache (log (WarnAutoFailed message) w)
            end
        end
    end
  else fallbackExplicit cache w.

(** The [cfg?.address] step and what follows it; the read of [cache[key]]
    stands before the [try], the assignment inside it. *)
Definition resolveAddress (sv : Services) (cfg : option LocationConfig)
    (storagePath : option string) (cache : LocationCache) (w : World) : Outcome :=
  match Provider.option_bind cfg address with
  | Some addr =>
      if Js.truthy_string addr then
        let key := String.append "addr:" (Js.toLowerCase addr) in
        match get key cache with
        | inl err => (inl err, w)
        | inr (Some cached) => (inr (Some (resolved cached)), log (DebugCachedGeocode addr) w)
        | inr None =>
            let '(reply, d) := geocoder sv addr w in
            let w := request (Geocode addr) d w in
            match reply with
            | inr ((la, lo) :: _) =>
                if Js.isFinite la && Js.isFinite lo then
                  match set key {| entry_lat := la; entry_lon := lo;
                                   entry_source := "geocode"; entry_ts := Date_now w |} cache with
                  | inr cache =>
                      let w := saveCache sv storagePath cache w in
                      (inr (Some {| lat := la; lon := lo; source := "geocode" |}),
                       log (InfoGeocoded addr la lo) w)
                  | inl err =>
                      resolveAuto sv cfg storagePath cache
                        (log (WarnGeocodeError addr (message_of err)) w)
                  end
                else resolveAuto sv cfg storagePath cache (log (WarnGeocodeFailed addr) w)
            | inr [] => resolveAuto sv cfg storagePath cache (log (WarnGeocodeFailed addr) w)
            | inl message =>
                resolveAuto sv cfg storagePath cache (log (WarnGeocodeError addr message) w)
            end
        end
      else resolveAuto sv cfg storagePath cache w
  | None => resolveAuto sv cfg storagePath cache w
  end.

(** [resolveLocation(log, cfg, storagePath, timeoutMs)]; the assignment of
    the explicit entry stands outside every [try]. *)
Definition resolveLocation (sv : Services) (cfg : option LocationConfig)
    (storagePath : option string) (w : World) : Outcome :=
  let '(cache, w) := loadCache sv storagePath w in
  match cfg with
  | Some c =>
      if isFiniteCoordinate (cfg_lat c) && isFiniteCoordinate (cfg_lon c) then
        let lat := Js.nullish (cfg_lat c) 0%float in
        let lon := Js.nullish (cfg_lon c) 0%float in
        let source := "config" in
        match set "explicit" {| entry_lat := lat; entry_lon := lon;
                                entry_source := source; entry_ts := Date_now w |} cache with
        | inr cache =>
            let w := saveCache sv storagePath cache w in
            (inr (Some {| lat := lat; lon := lon; source := source |}), w)
        | inl err => (inl err, w)
        end
      else resolveAddress sv cfg storagePath cache w
  | None => resolveAddress sv cfg storagePath cache w
  end.

End Geo.

(* ===================================================================== *)
(** * Concrete configurations used to exercise the model *)
(* ===================================================================== *)

Module Scenario.
Import Types Env.
Local Open Scope Z_scope.

Definition drizzle : WeatherNowcast :=
  {| ts := 1700000000000; providerName := "OpenWeatherMap"; precipMmHr := 0.06;
     pop := None; type := rain; temperatureC := Some 11.5%float |}.

Definition shower_in_30 : WeatherForecastSlice :=
  {| slice_ts := 1700001800000; minutesFromNow := 30; slice_providerName := "OpenWeatherMap";
     slice_precipMmHr := 0.3; slice_pop := Some 50%float; slice_type := rain |}.

(** An upstream service that is down: every call is rejected after 120 ms. *)
Definition down (message : string) : Provider.Upstream :=
  {| Provider.up_nowcast := fun _ => {| outcome := inl (UpstreamError message); took := 120 |};
     Provider.up_forecast := fun _ _ => {| outcome := inl (UpstreamError message); took := 120 |} |}.

(** An upstream service that answers after 250 ms. *)
Definition up : Provider.Upstream :=
  {| Provider.up_nowcast := fun _ => {| outcome := inr drizzle; took := 250 |};
     Provider.up_forecast := fun _ _ => {| outcome := inr [shower_in_30]; took := 250 |} |}.

Definition here : ResolvedLocation := {| lat := 40; lon := -73; source := "config" |}.

Definition keys : ProviderConfig :=
  {| mode := None;
     weatherkit := Some {| teamId := Some "TEAM"; keyId := Some "KEY";
                           privateKey := Some "/key.p8"; serviceId := None |};
     openweathermap := Some {| owm_apiKey := Some "owm" |};
     tomorrow := None;
     nws := Some {| nws_enabled := Some false |} |}.

Definition chainOf (r : Error + Provider.ProviderChain) : Provider.ProviderChain :=
  match r with
  | inr ch => ch
  | inl _ => {| Provider.providers := []; Provider.opts := Provider.DEFAULT_OPTIONS |}
  end.

(** WeatherKit is down, OpenWeatherMap answers. *)
Definition fallbackNet : Provider.Network :=
  {| Provider.net_weatherkit := down "HTTP 503"; Provider.net_openweathermap := up;
     Provider.net_nws := up; Provider.net_tomorrow := up |}.

(** Both configured services are down. *)
Definition deadNet : Provider.Network :=
  {| Provider.net_weatherkit := down "HTTP 503"; Provider.net_openweathermap := down "HTTP 500";
     Provider.net_nws := up; Provider.net_tomorrow := up |}.

(** Only OpenWeatherMap is configured, and it answers. *)
Definition owmOnly : ProviderConfig :=
  {| mode := Some mode_openweathermap; weatherkit := None;
     openweathermap := Some {| owm_apiKey := Some "owm" |}; tomorrow := None; nws := None |}.

Definition fallbackChain : Provider.ProviderChain :=
  chainOf (Provider.makeProviderChain fallbackNet (Some keys) (Some here) None).

Definition deadChain : Provider.ProviderChain :=
  chainOf (Provider.makeProviderChain deadNet (Some keys) (Some here) None).

Definition owmChain : Provider.ProviderChain :=
  chainOf (Provider.makeProviderChain fallbackNet (Some owmOnly) (Some here) None).

Definition boot : World :=
  {| clock := 1700000000000; attempts := []; logs := []; hap := [] |}.

(** A chain whose last attempt failed 10 s before [boot]: its window
    stays shut for another 20 s. *)
Definition backingOff : Provider.ChainState :=
  {| Provider.nowcastCache := None; Provider.forecastCache := ∅;
     Provider.backoffIndex := 1; Provider.nextAllowedTs := Some 1700000020000 |}.

(** A platform with quiet hours 22:00-06:00 and a 30 minute override,
    on a host five hours behind UTC. *)
Definition nightConfig : RainSwitchPlatformConfig :=
  {| platform_name := "Rain Switch"; location := None; provider := None; polling := None;
     accessories := None;
     advanced := Some {| logLevel := None; adv_cacheTtlSeconds := None;
                         adv_retryBackoffSeconds := None; adv_overrideMinutes := Some 30;
                         quietHours := Some {| quiet_start := Some "22:00";
                                               quiet_end := Some "06:00" |} |} |}.

Definition eastern : Z -> Z := fun _ => -18000000.

Definition house : Platform.RainSwitchPlatform := Platform.newPlatform nightConfig eastern.

(** A platform without quiet hours and without an override duration. *)
Definition plainConfig : RainSwitchPlatformConfig :=
  {| platform_name := "Rain Switch"; location := None; provider := None; polling := None;
     accessories := None; advanced := None |}.

Definition cabin : Platform.RainSwitchPlatform := Platform.newPlatform plainConfig eastern.

Definition rainNow : RainAccessoryConfig :=
  {| acc_type := rain_now; acc_name := "Rain Now"; thresholdMmPerHr := Some 0.05%float;
     lookaheadMinutes := None; popThreshold := None; intensityThresholdMmPerHr := None;
     enabled := None |}.

(** Local 23:30, 12:00 and 05:59 on the [eastern] host, and local 14:00
    as the time of a manual toggle. *)
Definition at_2330 : Z := 1700022600000.
Definition at_1200 : Z := 1699981200000.
Definition at_0559 : Z := 1699959540000.


Definition heavySnow : WeatherNowcast :=
  {| ts := 1700000000000; providerName := "OpenWeatherMap"; precipMmHr := 10;
     pop := None; type := snow; temperatureC := None |}.

Definition lightRain : WeatherNowcast :=
  {| ts := 1700000000000; providerName := "OpenWeatherMap"; precipMmHr := 0.04;
     pop := None; type := rain; temperatureC := None |}.






Definition rainThenSnow : list Adapters.NwsCondition :=
  [ {| Adapters.nws_weather := Some "rain"; Adapters.nws_coverage := Some "likely" |};
    {| Adapters.nws_weather := Some "snow"; Adapters.nws_coverage := Some "chance" |} ].




End Scenario.

(* ===================================================================== *)
(** * src/platform.ts: the polling loop *)
(* ===================================================================== *)

Module Polling.
Import Types Env.
Local Open Scope Z_scope.

(** The platform's own [log.warn('Weather polling failed: %s', ...)]. *)
Inductive PlatformLog := WarnPollingFailed (e : Error).

(** What a poll reads and writes: the chain's closure, the accessories in
    the order of [this.accessories.values()], [this.lastWeather], and the
    platform's warnings (oldest first). *)
Record Poll := {
  chain : Provider.ChainState;
  accessories : list RainAccessory.RainAccessory;
  lastWeather : option WeatherNowcast;
  platformLog : list PlatformLog;
}.

(** [for (const accessory of this.accessories.values()) await accessory.evaluate(weather)]:
    the first rejection leaves the loop. Each evaluation is taken as the
    run during whose wait no toggle is handled. *)
Fixpoint evaluateEach (weather : WeatherNowcast) (todo : list RainAccessory.RainAccessory)
    (c : Provider.ChainState) (w : World)
  : (Error + unit) * list RainAccessory.RainAccessory * Provider.ChainState * World :=
  match todo with
  | [] => (inr tt, [], c, w)
  | a :: rest =>
      match RainAccessory.evaluate a weather c w with
      | (inl err, a1, c1, w1) => (inl err, a1 :: rest, c1, w1)
      | (inr _, a1, c1, w1) =>
          let '(r, rest', c2, w2) := evaluateEach weather rest c1 w1 in
          (r, a1 :: rest', c2, w2)
      end
  end.

(** [for (const accessory of this.accessories.values()) accessory.markFault()] *)
Fixpoint markFaultEach (accs : list RainAccessory.RainAccessory) (w : World)
  : list RainAccessory.RainAccessory * World :=
  match accs with
  | [] => ([], w)
  | a :: rest =>
      let '(a1, w1) := RainAccessory.markFault a w in
      let '(rest', w2) := markFaultEach rest w1 in
      (a1 :: rest', w2)
  end.

(** The [catch] block of [tick]. *)
Definition recover (ch : Provider.ProviderChain) (error : Error) (st : Poll) (w : World)
  : Poll * World :=
  let c := Provider.markFailure ch (chain st) w in
  let '(accs, w1) := markFaultEach (accessories st) w in
  ({| chain := c; accessories := accs; lastWeather := lastWeather st;
      platformLog := platformLog st ++ [WarnPollingFailed error] |}, w1).

(** One run of [tick], without the timer it sets for the next run. *)
Definition tick (ch : Provider.ProviderChain) (st : Poll) (w : World) : Poll * World :=
  match Provider.chain_getNowcast ch false (chain st) w with
  | (inr weather, c1, w1) =>
      match evaluateEach weather (accessories st) c1 w1 with
      | (inr _, accs, c2, w2) =>
          ({| chain := c2; accessories := accs; lastWeather := Some weather;
              platformLog := platformLog st |}, w2)
      | (inl error, accs, c2, w2) =>
          recover ch error
            {| chain := c2; accessories := accs; lastWeather := Some weather;
               platformLog := platformLog st |} w2
      end
  | (inl error, c1, w1) =>
      recover ch error
        {| chain := c1; accessories := accessories st; lastWeather := lastWeather st;
           platformLog := platformLog st |} w1
  end.

(** A run of polls: each delay is the time the timer let pass before the
    poll ([intervalMs] or more). *)
Fixpoint poll (ch : Provider.ProviderChain) (delays : list N) (st : Poll) (w : World)
  : Poll * World :=
  match delays with
  | [] => (st, w)
  | d :: rest =>
      let '(st1, w1) := tick ch st (elapse d w) in
      poll ch rest st1 w1
  end.

End Polling.

(* ===================================================================== *)
(** * The adapters' number handling (src/providers/*.ts) *)
(* ===================================================================== *)

Module Numbers.
Import Types.
Local Open Scope float_scope.

(** [Math.max(a, b)] and [Math.min(a, b)] on doubles: NaN if either is
    NaN, and [-0] below [+0]. *)
Definition math_max (a b : float) : float :=
  if PrimFloat.is_nan a || PrimFloat.is_nan b then nan
  else if a <? b then b
  else if b <? a then a
  else if PrimFloat.get_sign a then b else a.

Definition math_min (a b : float) : float :=
  if PrimFloat.is_nan a || PrimFloat.is_nan b then nan
  else if a <? b then a
  else if b <? a then b
  else if PrimFloat.get_sign a then a else b.

(** [clampPercentage] of nws.ts and tomorrow.ts *)
Definition clampPercentage (value : float) : float :=
  if negb (Js.isFinite value) then 0
  else math_max 0 (math_min 100 value).

(** [normalizeProbability] of weatherkit.ts *)
Definition normalizeProbability (value : float) : float :=
  if 1 <? value then math_min 100 (math_max 0 value)
  else math_min 100 (math_max 0 (value * 100)).

(** A precipitation bucket of OpenWeatherMap: the keys ['1h'], ['1H'], ['3h']. *)
Record Bucket := { key_1h : option float; key_1H : option float; key_3h : option float }.

(** Truthiness of an optional number: present, not zero, not NaN. *)
Definition truthy_number (x : option float) : bool :=
  match x with
  | Some v => negb (PrimFloat.is_zero v || PrimFloat.is_nan v)
  | None => false
  end.

(** [extractOneHour] of openweathermap.ts *)
Definition extractOneHour (bucket : option Bucket) : option float :=
  match bucket with
  | None => None
  | Some b =>
      let value :=
        match key_1h b with
        | Some v => Some v
        | None => match key_1H b with Some v => Some v | None => key_3h b end
        end in
      match value with
      | None => None
      | Some v =>
          if negb (Js.isFinite v) then None
          else if truthy_number (key_3h b) && negb (truthy_number (key_1h b))
          then Some (v / 3)
          else Some v
      end
  end.

(** The [current] object of an OpenWeatherMap response. *)
Record OwmCurrent := {
  cur_dt : option Z;
  cur_temp : option float;
  cur_rain : option Bucket;
  cur_snow : option Bucket;
  cur_weather : option (list Adapters.OwmWeather);
}.

(** [getNowcast] of openweathermap.ts after [fetchWeather]: the nowcast
    built from [weather.current] at clock reading [now]. *)
Definition owmNowcast (current : option OwmCurrent) (now : Z) : WeatherNowcast :=
  let current :=
    Js.nullish current
      {| cur_dt := None; cur_temp := None; cur_rain := None; cur_snow := None;
         cur_weather := None |} in
  let precipSnow := extractOneHour (cur_snow current) in
  let precipRain := extractOneHour (cur_rain current) in
  let precipMmHr :=
    match precipSnow with
    | Some v => v
    | None => Js.nullish precipRain 0
    end in
  {| ts := (Js.nullish (cur_dt current) (now / 1000)%Z * 1000)%Z;
     providerName := "OpenWeatherMap";
     precipMmHr := precipMmHr;
     pop := None;
     type := Adapters.resolveType (cur_weather current) precipRain precipSnow;
     temperatureC := cur_temp current |}.

End Numbers.

(* ===================================================================== *)
(** * Vocabulary for stating properties *)
(* ===================================================================== *)

Module Props.
Import Types Env.
Local Open Scope Z_scope.

(** A dwell setting that [clamp] turns into zero. *)
Definition noDwell (v : Hysteresis.number) : Prop :=
  v = Hysteresis.NonFinite \/ exists z, v = Hysteresis.Num z /\ z <= 0.

(** The dwell setting of the state a gate is in. *)
Definition dwellSetting (o : Hysteresis.HysteresisOptions) (s : bool) : Hysteresis.number :=
  if s then Hysteresis.minOnMs o else Hysteresis.minOffMs o.

(** The display name of a pinned provider mode. *)
Definition modeName (m : ProviderMode) : option string :=
  match m with
  | mode_auto => None
  | mode_weatherkit => Some "Apple WeatherKit"
  | mode_openweathermap => Some "OpenWeatherMap"
  | mode_nws => Some "NOAA/NWS"
  | mode_tomorrow => Some "Tomorrow.io"
  end.

(** The requests a list of providers receives for one call. *)
Definition requestsTo {T} (fn : Provider.Call T) (ps : list Provider.WeatherProvider)
  : list (string * Request) :=
  map (fun p => (Provider.name p, fst (fn p))) ps.

(** A run of failures reported through [markFailure], one per clock reading. *)
Definition failures (ch : Provider.ProviderChain) (c : Provider.ChainState)
    (ws : list World) : Provider.ChainState :=
  fold_left (fun c w => Provider.markFailure ch c w) ws c.

(** Two decimal digits, and the 24-hour time [HH:MM]. *)
Definition twoDigits (n : nat) : string :=
  String (ascii_of_nat (48 + n / 10)) (String (ascii_of_nat (48 + n mod 10)) EmptyString).

Definition formatTime (h m : nat) : string :=
  String.append (twoDigits h) (String ":" (twoDigits m)).

(** All times of the day parse to their minute of the day. *)
Definition allTimesParse : bool :=
  forallb (fun h =>
    forallb (fun m =>
      match Platform.parseTimeString (formatTime h m) with
      | Some v => v =? Z.of_nat (h * 60 + m)
      | None => false
      end) (seq 0 60)) (seq 0 24).

(** The accessory's output and gate agree, and its override is either
    clear, or set to the output with a positive expiry under a positive
    configured duration. *)
Definition consistent (a : RainAccessory.RainAccessory) : Prop :=
  RainAccessory.currentState a = Hysteresis.state (RainAccessory.hysteresis a)
  /\ ((RainAccessory.overrideUntil a = 0 /\ RainAccessory.overrideState a = None)
      \/ (0 < RainAccessory.overrideUntil a
          /\ RainAccessory.overrideState a = Some (RainAccessory.currentState a)
          /\ exists minutes, RainAccessory.overrideMinutes a = Some minutes /\ 0 < minutes)).

(** The weaker link that holds whatever is interleaved: the output is
    the state of the gate or the value of the override, and the override
    is either clear or set with a positive expiry under a positive
    configured duration. *)
Definition linked (a : RainAccessory.RainAccessory) : Prop :=
  (RainAccessory.currentState a = Hysteresis.state (RainAccessory.hysteresis a)
   \/ RainAccessory.overrideState a = Some (RainAccessory.currentState a))
  /\ ((RainAccessory.overrideUntil a = 0 /\ RainAccessory.overrideState a = None)
      \/ (0 < RainAccessory.overrideUntil a
          /\ RainAccessory.overrideState a <> None
          /\ exists minutes, RainAccessory.overrideMinutes a = Some minutes /\ 0 < minutes)).

(** What can happen to an accessory: a polling evaluation, with the
    manual toggles handled while it awaits its forecast; a manual toggle
    between evaluations; a fault mark; or anything else that changes the
    chain and the world around it. *)
Inductive Op :=
| Evaluate (weather : WeatherNowcast) (meanwhile : list (N * RainAccessory.JsValue))
| SetOn (value : RainAccessory.JsValue)
| MarkFault
| Elsewhere (c : Provider.ChainState) (w : World).

Definition step (s : RainAccessory.RainAccessory * Provider.ChainState * World) (op : Op)
  : RainAccessory.RainAccessory * Provider.ChainState * World :=
  let '(a, c, w) := s in
  match op with
  | Evaluate weather meanwhile =>
      let '(_, a1, c1, w1) := RainAccessory.evaluate_interrupted a weather meanwhile c w in
      (a1, c1, w1)
  | SetOn value =>
      let '(a1, w1) := RainAccessory.handleSetOn value a w in (a1, c, w1)
  | MarkFault =>
      let '(a1, w1) := RainAccessory.markFault a w in (a1, c, w1)
  | Elsewhere c' w' => (a, c', w')
  end.

Definition runOps (ops : list Op)
    (s : RainAccessory.RainAccessory * Provider.ChainState * World)
  : RainAccessory.RainAccessory * Provider.ChainState * World :=
  fold_left step ops s.

(** A run in which no toggle is handled while an evaluation waits. *)
Definition uninterrupted (ops : list Op) : Prop :=
  Forall (fun op => match op with
                    | Evaluate _ meanwhile => meanwhile = []
                    | _ => True
                    end) ops.

(** A location config that supplies no usable coordinates. *)
Definition noCoordinates (cfg : option LocationConfig) : Prop :=
  match cfg with
  | Some c => Geo.isFiniteCoordinate (cfg_lat c) && Geo.isFiniteCoordinate (cfg_lon c) = false
  | None => True
  end.

(** A location config that supplies no address. *)
Definition noAddress (cfg : option LocationConfig) : Prop :=
  match Provider.option_bind cfg address with
  | Some addr => Js.truthy_string addr = false
  | None => True
  end.

(** [cfg?.mode === 'auto' || !cfg] *)
Definition wantsAuto (cfg : option LocationConfig) : bool :=
  match cfg with
  | None => true
  | Some c => match loc_mode c with Some loc_auto => true | _ => false end
  end.

(** A delay shorter than each of the given backoff entries (in seconds). *)
Definition shorterThan (entries : list Z) (d : N) : Prop :=
  Forall (fun seconds => Z.of_N d < seconds * 1000) entries.

(** The backoff entries a chain at index [i] can still move to. *)
Definition entriesFrom (ch : Provider.ProviderChain) (i : Z) : list Z :=
  drop (Z.to_nat i) (Provider.retryBackoffSeconds (Provider.opts ch)).

End Props.

Module Scenario2.
Import Types Env.
Local Open Scope Z_scope.

(** The default schedule at its last index, five minutes of window left at
    [boot], one accessory that is ON, polled every three minutes. *)
Definition saturated : Provider.ChainState :=
  {| Provider.nowcastCache := None; Provider.forecastCache := ∅;
     Provider.backoffIndex := 3; Provider.nextAllowedTs := Some 1700000300000 |}.

Definition switchedOn : RainAccessory.RainAccessory :=
  fst (RainAccessory.handleSetOn (RainAccessory.VBool true)
         (fst (RainAccessory.newRainAccessory Scenario.cabin Scenario.rainNow Scenario.boot))
         Scenario.boot).

Definition lockedOut : Polling.Poll :=
  {| Polling.chain := saturated; Polling.accessories := [switchedOn];
     Polling.lastWeather := None; Polling.platformLog := [] |}.

Definition threePolls : list N := [180000; 180000; 180000]%N.

(** A geocoder that knows one address, an IP service that answers, on an
    empty, writable disk. *)
Definition online : Geo.Services :=
  {| Geo.homedir := "/home/pi";
     Geo.geocoder := fun _ _ => (inr [(40.7128%float, (-74.006)%float)], 300%N);
     Geo.iplookup := fun _ =>
       (inr {| Geo.ip_latitude := Geo.Number 51.5; Geo.ip_longitude := Geo.Number (-0.12);
               Geo.ip_lat := Geo.Missing; Geo.ip_lon := Geo.Missing |}, 200%N) |}.


Definition automatic : LocationConfig :=
  {| cfg_lat := None; cfg_lon := None; address := None; loc_mode := Some loc_auto |}.

(** A disk whose cache holds an automatic location found [age] ms before
    the clock reading. *)
Definition withAutoEntry (age : Z) : Geo.World :=
  {| Geo.clock := 1700000000000;
     Geo.files := {[ "/home/pi/.homebridge-rain-switch-cache.json" :=
                     Geo.Json (Geo.Object
                                 {[ "auto" := {| Geo.entry_lat := 48.85; Geo.entry_lon := 2.35;
                                                 Geo.entry_source := "ip";
                                                 Geo.entry_ts := 1700000000000 - age |} ]}) ]};
     Geo.writable := fun _ => true;
     Geo.requests := []; Geo.geolog := [] |}.



(** An OpenWeatherMap reading with 5 mm of rain in the last hour and a
    snow bucket that reports nothing. *)
Definition rainWithEmptySnow : Numbers.OwmCurrent :=
  {| Numbers.cur_dt := Some 1700000000; Numbers.cur_temp := Some 3.5%float;
     Numbers.cur_rain := Some {| Numbers.key_1h := Some 5%float; Numbers.key_1H := None;
                                 Numbers.key_3h := None |};
     Numbers.cur_snow := Some {| Numbers.key_1h := Some 0%float; Numbers.key_1H := None;
                                 Numbers.key_3h := None |};
     Numbers.cur_weather := Some [{| Adapters.owm_main := Some "Rain";
                                     Adapters.owm_description := Some "moderate rain" |}] |}.

(** Local 23:30 on the [eastern] host. *)
Definition night : World :=
  {| clock := 1700022600000; attempts := []; logs := []; hap := [] |}.

Definition rainSoon : RainAccessoryConfig :=
  {| acc_type := rain_soon; acc_name := "Rain Soon"; thresholdMmPerHr := None;
     lookaheadMinutes := Some 60; popThreshold := Some 40%float;
     intensityThresholdMmPerHr := Some 0.2%float; enabled := None |}.

(** A slice 90 minutes ahead, one of sleet, one without a probability,
    and two that qualify. *)
Definition in_90 : WeatherForecastSlice :=
  {| slice_ts := 1700005400000; minutesFromNow := 90; slice_providerName := "OpenWeatherMap";
     slice_precipMmHr := 0.3; slice_pop := Some 50%float; slice_type := rain |}.

Definition sleet_in_10 : WeatherForecastSlice :=
  {| slice_ts := 1700000600000; minutesFromNow := 10; slice_providerName := "Tomorrow.io";
     slice_precipMmHr := 2; slice_pop := Some 90%float; slice_type := sleet |}.

Definition minutely_in_5 : WeatherForecastSlice :=
  {| slice_ts := 1700000300000; minutesFromNow := 5; slice_providerName := "OpenWeatherMap";
     slice_precipMmHr := 6; slice_pop := None; slice_type := rain |}.

Definition shower_in_45 : WeatherForecastSlice :=
  {| slice_ts := 1700002700000; minutesFromNow := 45; slice_providerName := "OpenWeatherMap";
     slice_precipMmHr := 1; slice_pop := Some 80%float; slice_type := rain |}.

End Scenario2.

(* ===================================================================== *)
(** * Properties of the hysteresis gate *)
(* ===================================================================== *)

Section HysteresisFacts.
Import Hysteresis.
Local Open Scope Z_scope.

Variable o : HysteresisOptions.

Lemma clamp_nonneg (v : number) : 0 <= clamp v.
Proof. destruct v; simpl; lia. Qed.

Lemma next_returns_state (g : Gate) (d : bool) (now : Z) :
  fst (next o g d now) = state (snd (next o g d now)).
Proof.
  unfold next.
  destruct (lastFlip g =? 0); [reflexivity|].
  destruct (Bool.eqb d (state g)); [reflexivity|].
  destruct (_ <=? _); reflexivity.
Qed.

Lemma next_bootstrap (g : Gate) (d : bool) (now : Z) :
  lastFlip g = 0 -> next o g d now = (d, {| state := d; lastFlip := now |}).
Proof. intros H. unfold next. rewrite H. reflexivity. Qed.

Lemma next_step (acc : option (bool * Z)) (g : Gate) (d : bool) (now : Z) :
  agrees acc g -> now <> 0 ->
  agrees (observe acc (now, fst (next o g d now))) (snd (next o g d now)).
Proof.
  intros Hag Hnow. destruct acc as [[s t]|]; simpl in Hag.
  - destruct Hag as (-> & -> & Hne).
    unfold next. pose proof Hne as Hne'. apply Z.eqb_neq in Hne'. rewrite Hne'.
    destruct g as [s t]. simpl in *.
    destruct d, s; simpl; try (split; [reflexivity | split; [reflexivity | assumption]]);
      destruct (_ <=? _); simpl; auto.
  - rewrite (next_bootstrap g d now Hag). simpl. auto.
Qed.

Lemma next_gated (s : bool) (t : Z) (g : Gate) (d : bool) (now : Z) :
  agrees (Some (s, t)) g ->
  fst (next o g d now) <> s -> dwell o s <= now - t.
Proof.
  simpl. intros (-> & -> & Hne). unfold next, dwell.
  apply Z.eqb_neq in Hne. rewrite Hne.
  destruct (Bool.eqb d (state g)); simpl; [congruence|].
  destruct (_ <=? _) eqn:Hgate; simpl; [|congruence].
  intros _. apply Z.leb_le in Hgate. exact Hgate.
Qed.

Lemma run_agrees (calls : list call) :
  forall (acc : option (bool * Z)) (g : Gate),
  agrees acc g ->
  Forall (fun c : call => snd c <> 0) calls ->
  agrees (fold_left observe (fst (run o g calls)) acc) (snd (run o g calls)).
Proof.
  induction calls as [|[d now] rest IH]; intros acc g Hag Hall; simpl.
  - exact Hag.
  - inversion Hall as [|? ? Hnow Hrest]; subst. simpl in Hnow.
    pose proof (next_step acc g d now Hag Hnow) as Hstep.
    destruct (next o g d now) as [out g1]. simpl in Hstep.
    specialize (IH _ _ Hstep Hrest).
    destruct (run o g1 rest) as [outs g2]. simpl in *. exact IH.
Qed.

End HysteresisFacts.

(** C1 (as stated) fails: with a 1000 ms dwell, a first call at time 0
    leaves the gate in its bootstrap condition, so the second call, 1 ms
    later, flips the stable state although only 1 ms has elapsed. *)
Lemma gate_flips_inside_dwell_after_time_zero :
  ~ Hysteresis.debounced
      {| Hysteresis.minOnMs := Hysteresis.Num 1000; Hysteresis.minOffMs := Hysteresis.Num 1000 |}
      [(true, 0%Z)] false 1%Z.
Proof.
  unfold Hysteresis.debounced. simpl. intros H.
  assert (false <> true) as Hne by discriminate.
  specialize (H Hne). vm_compute in H. apply H. reflexivity.
Qed.

(** C1 (amended): for every sequence of calls on a fresh gate whose
    timestamps are all nonzero, the first call adopts the desired value and
    records its time as the flip time, and any later call changes the
    stable state only if the time elapsed since the last flip is at least
    the dwell of the state being exited (minOn when ON, minOff when OFF). *)
Theorem gate_debounced_for_nonzero_timestamps
    (o : Hysteresis.HysteresisOptions) (pre : list Hysteresis.call)
    (desired : bool) (now : Z) :
  Forall (fun c : Hysteresis.call => snd c <> 0%Z) pre ->
  Hysteresis.debounced o pre desired now.
Proof.
  intros Hall. unfold Hysteresis.debounced.
  pose proof (run_agrees o pre None Hysteresis.makeHysteresis eq_refl Hall) as Hag.
  destruct (Hysteresis.run o Hysteresis.makeHysteresis pre) as [history g]. simpl in Hag.
  fold (Hysteresis.observed history) in Hag.
  destruct (Hysteresis.next o g desired now) as [out g'] eqn:Hnext.
  destruct (Hysteresis.observed history) as [[s t]|].
  - intros Hne. apply (next_gated o s t g desired now Hag).
    rewrite Hnext. exact Hne.
  - simpl in Hag. rewrite (next_bootstrap o g desired now Hag) in Hnext.
    inversion Hnext. split; reflexivity.
Qed.

(** The gate of C1 on a concrete run: a 5 minute ON dwell, four calls. *)
Lemma gate_debounced_for_nonzero_timestamps_witness :
  Hysteresis.debounced
    {| Hysteresis.minOnMs := Hysteresis.Num 300000; Hysteresis.minOffMs := Hysteresis.NonFinite |}
    [(true, 1000%Z); (false, 2000%Z); (false, 301000%Z)] true 301001%Z.
Proof.
  apply gate_debounced_for_nonzero_timestamps.
  repeat constructor; simpl; lia.
Defined.

(* ===================================================================== *)
(** * Properties of the provider chain *)
(* ===================================================================== *)

Section ProviderFacts.
Import Types Env Provider.
Local Open Scope Z_scope.

Lemma attempt_clock {T} (o : ProviderChainOptions) (fn : Call T) (p : WeatherProvider)
    (w w1 : World) (r : Error + T) :
  attempt o fn p w = (r, w1) ->
  attempts w1 = attempts w ++ [(name p, fst (fn p))] /\ logs w1 = logs w.
Proof.
  unfold attempt. destruct (fn p) as [req send]. destruct (withTimeout _ _) as [res d].
  intros H. inversion H. subst. simpl. auto.
Qed.

(** When every provider fails, [pickProvider] returns the last error and
    advances the backoff with the clock read after the last failure. *)
Lemma pick_exhausted {T} (o : ProviderChainOptions) (fn : Call T) (ps : list WeatherProvider) :
  forall (lastError lastError' : option Error) (c : ChainState) (w w' : World),
  allFail o fn ps lastError w = Some (lastError', w') ->
  pickProvider_from o fn ps lastError c w
  = (inl (Js.nullish lastError' AllProvidersFailed), advanceBackoff o c w', w').
Proof.
  induction ps as [|p rest IH]; intros le le' c w w' H; simpl in *.
  - inversion H. reflexivity.
  - destruct (attempt o fn p w) as [[e|r] w1]; [|discriminate].
    apply IH. exact H.
Qed.

(** After a run of failures the first success wins and resets the backoff. *)
Lemma pick_fallback {T} (o : ProviderChainOptions) (fn : Call T) (failing : list WeatherProvider) :
  forall (p : WeatherProvider) (rest : list WeatherProvider)
         (lastError lastError' : option Error) (c : ChainState) (w w1 w2 : World) (r : T),
  allFail o fn failing lastError w = Some (lastError', w1) ->
  attempt o fn p w1 = (inr r, w2) ->
  pickProvider_from o fn (failing ++ p :: rest) lastError c w = (inr r, resetBackoff c, w2).
Proof.
  induction failing as [|q failing IH]; intros p rest le le' c w w1 w2 r Hfail Hok; simpl in *.
  - inversion Hfail; subst. rewrite Hok. reflexivity.
  - destruct (attempt o fn q w) as [[e|r'] w0]; [|discriminate].
    eapply IH; eauto.
Qed.

(** The two ways [pickProvider] ends. *)
Lemma pick_outcome {T} (o : ProviderChainOptions) (fn : Call T) (ps : list WeatherProvider) :
  forall (lastError : option Error) (c : ChainState) (w : World),
  match pickProvider_from o fn ps lastError c w with
  | (inr _, c', _) => c' = resetBackoff c
  | (inl e, c', w') =>
      c' = advanceBackoff o c w'
      /\ exists lastError', allFail o fn ps lastError w = Some (lastError', w')
                            /\ e = Js.nullish lastError' AllProvidersFailed
  end.
Proof.
  induction ps as [|p rest IH]; intros le c w; simpl.
  - split; [reflexivity|]. exists le. auto.
  - destruct (attempt o fn p w) as [[e|r] w1]; [|reflexivity].
    apply IH.
Qed.

Lemma allFail_last {T} (o : ProviderChainOptions) (fn : Call T) (init : list WeatherProvider) :
  forall (plast : WeatherProvider) (lastError lastError' : option Error)
         (w w1 w2 : World) (e : Error),
  allFail o fn init lastError w = Some (lastError', w1) ->
  attempt o fn plast w1 = (inl e, w2) ->
  allFail o fn (init ++ [plast]) lastError w
  = Some (Some e, log (WarnProviderFailed (name plast) e) w2).
Proof.
  induction init as [|q init IH]; intros plast le le' w w1 w2 e Hinit Hlast; simpl in *.
  - inversion Hinit; subst. rewrite Hlast. reflexivity.
  - destruct (attempt o fn q w) as [[e'|r'] w0]; [|discriminate].
    eapply IH; eauto.
Qed.

Lemma advance_index (o : ProviderChainOptions) (c : ChainState) (w : World) :
  backoffIndex (advanceBackoff o c w)
  = Z.min (backoffIndex c + 1) (Z.of_nat (length (retryBackoffSeconds o)) - 1).
Proof. reflexivity. Qed.

(** With a non-empty schedule and an index that is not negative, the
    advanced index is a position of the schedule and the window is set
    from it. *)
Lemma advance_window (o : ProviderChainOptions) (c : ChainState) (w : World) :
  retryBackoffSeconds o <> [] -> 0 <= backoffIndex c ->
  exists seconds,
    retryBackoffSeconds o !! Z.to_nat (backoffIndex (advanceBackoff o c w)) = Some seconds
    /\ nextAllowedTs (advanceBackoff o c w) = Some (Date_now w + seconds * 1000)
    /\ 0 <= backoffIndex (advanceBackoff o c w) < Z.of_nat (length (retryBackoffSeconds o)).
Proof.
  intros Hne Hidx. unfold advanceBackoff. simpl.
  set (n := length (retryBackoffSeconds o)).
  assert (0 < n)%nat as Hn.
  { subst n. destruct (retryBackoffSeconds o); [congruence | simpl; lia]. }
  set (i := Z.min (backoffIndex c + 1) (Z.of_nat n - 1)).
  assert (0 <= i < Z.of_nat n) as Hi by (subst i; lia).
  destruct (lookup_lt_is_Some_2 (retryBackoffSeconds o) (Z.to_nat i)) as [s Hs].
  { fold n. lia. }
  exists s. unfold schedule_at.
  destruct (i <? 0) eqn:Hneg; [apply Z.ltb_lt in Hneg; lia|].
  rewrite Hs. auto.
Qed.

Lemma backoffActive_spec (c : ChainState) (w : World) (t : Z) :
  nextAllowedTs c = Some t -> Date_now w < t -> backoffActive c w = true.
Proof.
  intros Ht Hlt. unfold backoffActive. rewrite Ht.
  assert (0 <= Date_now w) by (unfold Date_now, Js.ms_of_clock; lia).
  apply andb_true_intro. split.
  - apply negb_true_iff. apply Z.eqb_neq. lia.
  - apply Z.ltb_lt. exact Hlt.
Qed.

Lemma backoffActive_reset (c : ChainState) (w : World) :
  backoffActive (resetBackoff c) w = false.
Proof. reflexivity. Qed.

Lemma validData_isCacheValid {T} (o : ProviderChainOptions) (w : World)
    (entry : option (CacheEntry T)) :
  validData o w entry = None <-> isCacheValid o w entry = false.
Proof.
  unfold validData. destruct entry as [e|]; simpl; [|tauto].
  destruct (_ <? _); split; congruence.
Qed.

End ProviderFacts.

Section ChainCalls.
Import Types Env Provider.
Local Open Scope Z_scope.

Variable ch : ProviderChain.

Lemma getNowcast_blocked (force : bool) (c : ChainState) (w : World) :
  backoffActive c w = true ->
  isCacheValid (opts ch) w (nowcastCache c) = false ->
  chain_getNowcast ch force c w = (inl (BackoffInEffect (backoffSeconds c w)), c, w).
Proof.
  intros Hact Hinv. apply validData_isCacheValid in Hinv.
  unfold chain_getNowcast. rewrite Hinv, Hact. destruct force; reflexivity.
Qed.

Lemma getForecast_blocked (lookahead : Z) (force : bool) (c : ChainState) (w : World) :
  backoffActive c w = true ->
  isCacheValid (opts ch) w (forecastCache c !! roundLookahead lookahead) = false ->
  chain_getForecast ch lookahead force c w = (inl (BackoffInEffect (backoffSeconds c w)), c, w).
Proof.
  intros Hact Hinv. apply validData_isCacheValid in Hinv.
  unfold chain_getForecast. cbv zeta. rewrite Hinv, Hact. destruct force; reflexivity.
Qed.

Lemma getNowcast_reaches (force : bool) (c : ChainState) (w : World) :
  reachesProviders ch force (nowcastCache c) c w ->
  chain_getNowcast ch force c w
  = match pickProvider ch callNowcast c w with
    | (inr d, c1, w1) =>
        (inr d, set_nowcastCache {| data := d; entry_ts := Date_now w1 |} c1, w1)
    | (inl err, c1, w1) => (inl err, c1, w1)
    end.
Proof.
  intros [Hmiss Hfree]. unfold chain_getNowcast. rewrite Hmiss, Hfree. reflexivity.
Qed.

Lemma getForecast_reaches (lookahead : Z) (force : bool) (c : ChainState) (w : World) :
  reachesProviders ch force (forecastCache c !! roundLookahead lookahead) c w ->
  chain_getForecast ch lookahead force c w
  = match pickProvider ch (callForecast (roundLookahead lookahead)) c w with
    | (inr d, c1, w1) =>
        (inr d,
         set_forecastCache (roundLookahead lookahead) {| data := d; entry_ts := Date_now w1 |} c1,
         w1)
    | (inl err, c1, w1) => (inl err, c1, w1)
    end.
Proof.
  intros [Hmiss Hfree]. unfold chain_getForecast. cbv zeta. rewrite Hmiss, Hfree. reflexivity.
Qed.

(** A call that returns data without a new upstream attempt was served
    from the cache; one that made an attempt and returns data has reset
    the backoff. *)
Lemma getNowcast_success_resets (force : bool) (c c' : ChainState) (w w' : World)
    (r : WeatherNowcast) :
  chain_getNowcast ch force c w = (inr r, c', w') ->
  attempts w' <> attempts w ->
  backoffIndex c' = 0 /\ nextAllowedTs c' = Some 0.
Proof.
  unfold chain_getNowcast. intros H Hatt.
  destruct (if force then None else validData (opts ch) w (nowcastCache c)).
  { inversion H; subst. congruence. }
  destruct (backoffActive c w).
  { destruct (validData _ _ _); inversion H; subst. congruence. }
  unfold pickProvider in H.
  pose proof (pick_outcome (opts ch) callNowcast (providers ch) None c w) as Hout.
  destruct (pickProvider_from _ _ _ _ _ _) as [[[e|d] c1] w1]; [discriminate|].
  inversion H; subst. simpl. auto.
Qed.

Lemma getForecast_success_resets (lookahead : Z) (force : bool) (c c' : ChainState)
    (w w' : World) (r : list WeatherForecastSlice) :
  chain_getForecast ch lookahead force c w = (inr r, c', w') ->
  attempts w' <> attempts w ->
  backoffIndex c' = 0 /\ nextAllowedTs c' = Some 0.
Proof.
  unfold chain_getForecast. cbv zeta. intros H Hatt.
  destruct (if force then None else validData (opts ch) w _).
  { inversion H; subst. congruence. }
  destruct (backoffActive c w).
  { destruct (validData _ _ _); inversion H; subst. congruence. }
  unfold pickProvider in H.
  pose proof (pick_outcome (opts ch) (callForecast (roundLookahead lookahead))
                (providers ch) None c w) as Hout.
  destruct (pickProvider_from _ _ _ _ _ _) as [[[e|d] c1] w1]; [discriminate|].
  inversion H; subst. simpl. auto.
Qed.

(** With a non-empty schedule the index never becomes negative. *)
Lemma backoffIndex_nonneg_advance (c : ChainState) (w : World) :
  retryBackoffSeconds (opts ch) <> [] -> 0 <= backoffIndex c ->
  0 <= backoffIndex (markFailure ch c w).
Proof.
  intros Hne Hidx. unfold markFailure.
  destruct (advance_window (opts ch) c w Hne Hidx) as (_ & _ & _ & H). lia.
Qed.

Lemma backoffIndex_nonneg_getNowcast (force : bool) (c : ChainState) (w : World) :
  retryBackoffSeconds (opts ch) <> [] -> 0 <= backoffIndex c ->
  0 <= backoffIndex (snd (fst (chain_getNowcast ch force c w))).
Proof.
  intros Hne Hidx. unfold chain_getNowcast.
  destruct (if force then None else validData (opts ch) w (nowcastCache c)); [exact Hidx|].
  destruct (backoffActive c w).
  { destruct (validData _ _ _); exact Hidx. }
  unfold pickProvider.
  pose proof (pick_outcome (opts ch) callNowcast (providers ch) None c w) as Hout.
  destruct (pickProvider_from _ _ _ _ _ _) as [[[e|d] c1] w1]; simpl.
  - destruct Hout as [-> _].
    destruct (advance_window (opts ch) c w1 Hne Hidx) as (_ & _ & _ & H). lia.
  - subst c1. simpl. lia.
Qed.

Lemma backoffIndex_nonneg_getForecast (lookahead : Z) (force : bool) (c : ChainState)
    (w : World) :
  retryBackoffSeconds (opts ch) <> [] -> 0 <= backoffIndex c ->
  0 <= backoffIndex (snd (fst (chain_getForecast ch lookahead force c w))).
Proof.
  intros Hne Hidx. unfold chain_getForecast. cbv zeta.
  destruct (if force then None else validData (opts ch) w _); [exact Hidx|].
  destruct (backoffActive c w).
  { destruct (validData _ _ _); exact Hidx. }
  unfold pickProvider.
  pose proof (pick_outcome (opts ch) (callForecast (roundLookahead lookahead))
                (providers ch) None c w) as Hout.
  destruct (pickProvider_from _ _ _ _ _ _) as [[[e|d] c1] w1]; simpl.
  - destruct Hout as [-> _].
    destruct (advance_window (opts ch) c w1 Hne Hidx) as (_ & _ & _ & H). lia.
  - subst c1. simpl. lia.
Qed.

End ChainCalls.

(** C2: while the backoff window is active and no valid cache entry
    exists, getNowcast and getForecast fail with a backoff error and leave
    the world (hence the upstream attempts) and the chain untouched; when
    every provider fails, the last provider's error is returned, the index
    becomes min(index + 1, last index of the schedule) and the next allowed
    timestamp is the clock plus the schedule entry at that index (seconds,
    converted to milliseconds); a call that succeeds through a provider
    leaves index 0 and no window. *)
Theorem chain_backoff_window_and_schedule
    (ch : Provider.ProviderChain) (c : Provider.ChainState) (w : Env.World)
    (force : bool) (lookahead : Z) :
  let o := Provider.opts ch in
  let rounded := Provider.roundLookahead lookahead in
  (forall t : Z,
      Provider.nextAllowedTs c = Some t -> (Env.Date_now w < t)%Z ->
      (Provider.isCacheValid o w (Provider.nowcastCache c) = false ->
       Provider.chain_getNowcast ch force c w
       = (inl (Env.BackoffInEffect (Provider.backoffSeconds c w)), c, w))
      /\ (Provider.isCacheValid o w (Provider.forecastCache c !! rounded) = false ->
          Provider.chain_getForecast ch lookahead force c w
          = (inl (Env.BackoffInEffect (Provider.backoffSeconds c w)), c, w)))
  /\ (forall (init : list Provider.WeatherProvider) (plast : Provider.WeatherProvider),
         Provider.providers ch = init ++ [plast] ->
         (forall le w1 e w2,
             Provider.reachesProviders ch force (Provider.nowcastCache c) c w ->
             Provider.allFail o Provider.callNowcast init None w = Some (le, w1) ->
             Provider.attempt o Provider.callNowcast plast w1 = (inl e, w2) ->
             let w' := Env.log (Env.WarnProviderFailed (Provider.name plast) e) w2 in
             Provider.chain_getNowcast ch force c w
             = (inl e, Provider.advanceBackoff o c w', w'))
         /\ (forall le w1 e w2,
                Provider.reachesProviders ch force (Provider.forecastCache c !! rounded) c w ->
                Provider.allFail o (Provider.callForecast rounded) init None w = Some (le, w1) ->
                Provider.attempt o (Provider.callForecast rounded) plast w1 = (inl e, w2) ->
                let w' := Env.log (Env.WarnProviderFailed (Provider.name plast) e) w2 in
                Provider.chain_getForecast ch lookahead force c w
                = (inl e, Provider.advanceBackoff o c w', w')))
  /\ (forall w' : Env.World,
         let c' := Provider.advanceBackoff o c w' in
         Provider.backoffIndex c'
         = Z.min (Provider.backoffIndex c + 1)
                 (Z.of_nat (length (Provider.retryBackoffSeconds o)) - 1)
         /\ Provider.nowcastCache c' = Provider.nowcastCache c
         /\ Provider.forecastCache c' = Provider.forecastCache c
         /\ (Provider.retryBackoffSeconds o <> [] -> (0 <= Provider.backoffIndex c)%Z ->
             exists seconds : Z,
               Provider.retryBackoffSeconds o !! Z.to_nat (Provider.backoffIndex c')
               = Some seconds
               /\ Provider.nextAllowedTs c' = Some (Env.Date_now w' + seconds * 1000)%Z))
  /\ (forall r c' w',
         Provider.chain_getNowcast ch force c w = (inr r, c', w') ->
         Env.attempts w' <> Env.attempts w ->
         Provider.backoffIndex c' = 0%Z /\ Provider.nextAllowedTs c' = Some 0%Z)
  /\ (forall r c' w',
         Provider.chain_getForecast ch lookahead force c w = (inr r, c', w') ->
         Env.attempts w' <> Env.attempts w ->
         Provider.backoffIndex c' = 0%Z /\ Provider.nextAllowedTs c' = Some 0%Z).
Proof.
  intros o rounded. subst o rounded. repeat split.
  - intros Hinv. apply getNowcast_blocked; [|exact Hinv].
    eapply backoffActive_spec; eauto.
  - intros Hinv. apply getForecast_blocked; [|exact Hinv].
    eapply backoffActive_spec; eauto.
  - intros le w1 e w2 Hreach Hinit Hlast w'.
    rewrite (getNowcast_reaches ch force c w Hreach). unfold Provider.pickProvider.
    rewrite H.
    rewrite (pick_exhausted _ Provider.callNowcast (init ++ [plast]) None (Some e) c w w'
               (allFail_last _ _ init plast None le w w1 w2 e Hinit Hlast)).
    reflexivity.
  - intros le w1 e w2 Hreach Hinit Hlast w'.
    rewrite (getForecast_reaches ch lookahead force c w Hreach). unfold Provider.pickProvider.
    rewrite H.
    rewrite (pick_exhausted _ (Provider.callForecast (Provider.roundLookahead lookahead))
               (init ++ [plast]) None (Some e)
               c w w' (allFail_last _ _ init plast None le w w1 w2 e Hinit Hlast)).
    reflexivity.
  - intros Hne Hidx.
    destruct (advance_window (Provider.opts ch) c w' Hne Hidx) as (s & Hs & Hts & _).
    exists s. auto.
  - eapply getNowcast_success_resets; eauto.
  - eapply getNowcast_success_resets; eauto.
  - eapply getForecast_success_resets; eauto.
  - eapply getForecast_success_resets; eauto.
Qed.

(** C2 on a chain whose two providers are down: blocked inside the window,
    and on exhaustion index 1 with a 60 s window from the clock after the
    second failure. *)
Lemma chain_backoff_window_and_schedule_witness :
  Provider.chain_getNowcast Scenario.deadChain false Scenario.backingOff Scenario.boot
  = (inl (Env.BackoffInEffect 20), Scenario.backingOff, Scenario.boot)
  /\ Provider.chain_getForecast Scenario.deadChain 62 false Scenario.backingOff Scenario.boot
     = (inl (Env.BackoffInEffect 20), Scenario.backingOff, Scenario.boot)
  /\ (exists c' w',
         Provider.chain_getNowcast Scenario.deadChain false Provider.initialState Scenario.boot
         = (inl (Env.UpstreamError "HTTP 500"), c', w')
         /\ Provider.backoffIndex c' = 1%Z
         /\ Provider.nextAllowedTs c' = Some (1700000000240 + 60 * 1000)%Z).
Proof.
  pose proof (chain_backoff_window_and_schedule Scenario.deadChain Scenario.backingOff
                Scenario.boot false 62) as Hblocked.
  pose proof (chain_backoff_window_and_schedule Scenario.deadChain Provider.initialState
                Scenario.boot false 62) as Hfail.
  cbv zeta in Hblocked, Hfail.
  destruct Hblocked as [Hblocked _]. destruct Hfail as (_ & Hfail & _).
  destruct (Hblocked 1700000020000%Z eq_refl eq_refl) as [Hn Hf].
  split; [exact (Hn eq_refl)|]. split; [exact (Hf eq_refl)|].
  destruct (Hfail [Provider.WeatherKitProvider (Scenario.down "HTTP 503")
                     (Types.weatherkit Scenario.keys) (Some Scenario.here)]
                  (Provider.OpenWeatherMapProvider (Scenario.down "HTTP 500")
                     (Types.openweathermap Scenario.keys) (Some Scenario.here))
                  eq_refl) as [Hnow _].
  eexists. eexists. split.
  - eapply Hnow.
    + split; reflexivity.
    + reflexivity.
    + reflexivity.
  - split; reflexivity.
Defined.

Section ChainConstruction.
Import Types Env Provider.
Local Open Scope Z_scope.

Lemma addProvider_filter (p : WeatherProvider) (ps : list WeatherProvider) :
  addProvider p ps = ps ++ List.filter isSupported [p].
Proof.
  unfold addProvider. simpl. destruct (isSupported p); [reflexivity|].
  symmetry. apply app_nil_r.
Qed.

(** The chain holds the supported candidates, in the candidates' order. *)
Lemma makeProviderChain_providers (net : Network) (cfg : option ProviderConfig)
    (location : option ResolvedLocation) (options : option PartialOptions)
    (ch : ProviderChain) :
  makeProviderChain net cfg location options = inr ch ->
  providers ch = List.filter isSupported (candidates net cfg location)
  /\ opts ch = mergeOptions options.
Proof.
  unfold makeProviderChain, candidates. cbv zeta.
  set (mode := Js.nullish (option_bind cfg Types.mode) mode_auto).
  rewrite !List.filter_app.
  set (built := if mode_is mode mode_tomorrow then _ else _).
  assert (built = List.filter isSupported
            (if mode_is mode mode_weatherkit
             then [WeatherKitProvider (net_weatherkit net) (option_bind cfg weatherkit) location]
             else [])
          ++ List.filter isSupported
               (if mode_is mode mode_openweathermap
                then [OpenWeatherMapProvider (net_openweathermap net)
                        (option_bind cfg openweathermap) location]
                else [])
          ++ List.filter isSupported
               (if mode_is mode mode_nws
                   && Js.nullish (option_bind (option_bind cfg nws) nws_enabled) true
                then [NwsProvider (net_nws net) (option_bind cfg nws) location] else [])
          ++ List.filter isSupported
               (if mode_is mode mode_tomorrow
                then [TomorrowProvider (net_tomorrow net) (option_bind cfg tomorrow) location]
                else [])) as Hbuilt.
  { subst built.
    destruct (mode_is mode mode_weatherkit), (mode_is mode mode_openweathermap),
      (mode_is mode mode_nws && _), (mode_is mode mode_tomorrow);
      rewrite ?addProvider_filter; simpl List.filter at 1;
      rewrite ?app_nil_r, ?app_nil_l, <- ?app_assoc; reflexivity. }
  rewrite <- Hbuilt. clear Hbuilt.
  destruct built; intros H; inversion H. simpl. auto.
Qed.

End ChainConstruction.

(** C3: when the first supported providers fail and a later one
    succeeds, getNowcast returns that provider's result (no error reaches
    the caller), the backoff index is 0 and no window is active afterwards,
    and describe() lists every supported provider in priority order. *)
Theorem chain_falls_back_to_later_provider
    (net : Provider.Network) (cfg : option Types.ProviderConfig)
    (location : option Types.ResolvedLocation) (options : option Provider.PartialOptions)
    (ch : Provider.ProviderChain) (force : bool) (c : Provider.ChainState) (w : Env.World)
    (failing : list Provider.WeatherProvider) (p : Provider.WeatherProvider)
    (rest : list Provider.WeatherProvider) (le : option Env.Error) (w1 w2 : Env.World)
    (r : Types.WeatherNowcast) :
  Provider.makeProviderChain net cfg location options = inr ch ->
  Provider.providers ch = failing ++ p :: rest ->
  Provider.reachesProviders ch force (Provider.nowcastCache c) c w ->
  Provider.allFail (Provider.opts ch) Provider.callNowcast failing None w = Some (le, w1) ->
  Provider.attempt (Provider.opts ch) Provider.callNowcast p w1 = (inr r, w2) ->
  exists c' : Provider.ChainState,
    Provider.chain_getNowcast ch force c w = (inr r, c', w2)
    /\ Provider.backoffIndex c' = 0%Z
    /\ Provider.nextAllowedTs c' = Some 0%Z
    /\ (forall later : Env.World, Provider.backoffActive c' later = false)
    /\ Provider.describe ch
       = String.concat " -> "
           (map Provider.name
              (List.filter Provider.isSupported (Provider.candidates net cfg location))).
Proof.
  intros Hmake Hps Hreach Hfail Hok.
  eexists. split.
  - rewrite (getNowcast_reaches ch force c w Hreach). unfold Provider.pickProvider.
    rewrite Hps.
    rewrite (pick_fallback _ _ failing p rest None le c w w1 w2 r Hfail Hok).
    reflexivity.
  - simpl. repeat split.
    unfold Provider.describe.
    destruct (makeProviderChain_providers net cfg location options ch Hmake) as [-> _].
    reflexivity.
Qed.

(** C3 with WeatherKit down and OpenWeatherMap answering. *)
Lemma chain_falls_back_to_later_provider_witness :
  exists c' w2,
    Provider.chain_getNowcast Scenario.fallbackChain false Provider.initialState Scenario.boot
    = (inr Scenario.drizzle, c', w2)
    /\ Provider.backoffIndex c' = 0%Z
    /\ Env.attempts w2 = [("Apple WeatherKit", Env.ReqNowcast); ("OpenWeatherMap", Env.ReqNowcast)]
    /\ Provider.describe Scenario.fallbackChain = "Apple WeatherKit -> OpenWeatherMap".
Proof.
  destruct (chain_falls_back_to_later_provider
              Scenario.fallbackNet (Some Scenario.keys) (Some Scenario.here) None
              Scenario.fallbackChain false Provider.initialState Scenario.boot
              [Provider.WeatherKitProvider (Scenario.down "HTTP 503")
                 (Types.weatherkit Scenario.keys) (Some Scenario.here)]
              (Provider.OpenWeatherMapProvider Scenario.up
                 (Types.openweathermap Scenario.keys) (Some Scenario.here))
              [] _ _ _ Scenario.drizzle
              eq_refl eq_refl (conj eq_refl eq_refl) eq_refl eq_refl)
    as (c' & Hcall & Hidx & _ & _ & Hdesc).
  exists c'. eexists. split; [exact Hcall|]. split; [exact Hidx|].
  split; [reflexivity | exact Hdesc].
Defined.

Section ForecastCache.
Import Types Env Provider.
Local Open Scope Z_scope.

(** [roundLookahead] is the least multiple of 5 that is at least the
    lookahead and at least 5. *)
Lemma roundLookahead_least (l : Z) :
  (roundLookahead l) mod 5 = 0
  /\ l <= roundLookahead l
  /\ 5 <= roundLookahead l
  /\ forall m, m mod 5 = 0 -> l <= m -> 5 <= m -> roundLookahead l <= m.
Proof.
  unfold roundLookahead.
  pose proof (Z.div_mod (- l) 5 ltac:(lia)) as Hdm.
  pose proof (Z.mod_pos_bound (- l) 5 ltac:(lia)) as Hb.
  set (q := (- l) / 5) in *.
  assert ((- q * 5) mod 5 = 0) as Hmul.
  { apply Z.mod_mul. lia. }
  repeat split.
  - destruct (Z.max_spec 5 (- q * 5)) as [[_ ->]|[_ ->]]; [exact Hmul | reflexivity].
  - lia.
  - lia.
  - intros m Hm Hl H5.
    pose proof (Z.div_mod m 5 ltac:(lia)) as Hm'. rewrite Hm in Hm'.
    lia.
Qed.

(** A valid entry under the rounded key answers the call from the cache. *)
Lemma getForecast_hit (ch : ProviderChain) (lookahead : Z) (c : ChainState) (w : World)
    (e : CacheEntry (list WeatherForecastSlice)) :
  forecastCache c !! roundLookahead lookahead = Some e ->
  Date_now w - entry_ts e < cacheTtlSeconds (opts ch) * 1000 ->
  chain_getForecast ch lookahead false c w = (inr (data e), c, w).
Proof.
  intros He Hfresh. unfold chain_getForecast. cbv zeta. rewrite He. simpl.
  apply Z.ltb_lt in Hfresh. rewrite Hfresh. reflexivity.
Qed.

End ForecastCache.

(** C6: getForecast keys its cache by max(5, lookahead rounded up to a
    multiple of 5): after a call answered by a provider, a second call
    whose lookahead rounds to the same value, made within the cache TTL, is
    answered from the same slot without any upstream request; when the
    first provider answers, the two calls together make exactly one
    upstream request; 62 and 63 both round to 65. *)
Theorem forecast_cache_keyed_by_rounded_lookahead
    (ch : Provider.ProviderChain) (c : Provider.ChainState) (w w0 w1 : Env.World)
    (l1 l2 : Z) (force : bool) (failing : list Provider.WeatherProvider)
    (p : Provider.WeatherProvider) (rest : list Provider.WeatherProvider)
    (le : option Env.Error) (r : list Types.WeatherForecastSlice) (d : N) :
  Provider.roundLookahead l1 = Provider.roundLookahead l2 ->
  Provider.providers ch = failing ++ p :: rest ->
  Provider.reachesProviders ch force
    (Provider.forecastCache c !! Provider.roundLookahead l1) c w ->
  Provider.allFail (Provider.opts ch) (Provider.callForecast (Provider.roundLookahead l1))
    failing None w = Some (le, w0) ->
  Provider.attempt (Provider.opts ch) (Provider.callForecast (Provider.roundLookahead l1)) p w0
  = (inr r, w1) ->
  (Z.of_N d < Provider.cacheTtlSeconds (Provider.opts ch) * 1000)%Z ->
  ((Provider.roundLookahead l1 mod 5 = 0)%Z
   /\ (l1 <= Provider.roundLookahead l1)%Z
   /\ (5 <= Provider.roundLookahead l1)%Z
   /\ (forall m : Z, (m mod 5 = 0)%Z -> (l1 <= m)%Z -> (5 <= m)%Z ->
                     (Provider.roundLookahead l1 <= m)%Z))
  /\ Provider.roundLookahead 62 = 65%Z
  /\ Provider.roundLookahead 63 = 65%Z
  /\ exists c1 : Provider.ChainState,
       Provider.chain_getForecast ch l1 force c w = (inr r, c1, w1)
       /\ Provider.forecastCache c1
          = <[Provider.roundLookahead l1 :=
                {| Provider.data := r; Provider.entry_ts := Env.Date_now w1 |}]>
              (Provider.forecastCache c)
       /\ Provider.chain_getForecast ch l2 false c1 (Env.elapse d w1)
          = (inr r, c1, Env.elapse d w1)
       /\ (failing = [] ->
           Env.attempts (Env.elapse d w1)
           = Env.attempts w ++ [(Provider.name p, Env.ReqForecast (Provider.roundLookahead l1))]).
Proof.
  intros Hsame Hps Hreach Hfail Hok Hfresh.
  split; [apply roundLookahead_least|].
  split; [reflexivity|]. split; [reflexivity|].
  eexists. split; [|split; [|split]].
  - rewrite (getForecast_reaches ch l1 force c w Hreach). unfold Provider.pickProvider.
    rewrite Hps.
    rewrite (pick_fallback _ _ failing p rest None le c w w0 w1 r Hfail Hok).
    reflexivity.
  - reflexivity.
  - rewrite (getForecast_hit ch l2 _ (Env.elapse d w1)
               {| Provider.data := r; Provider.entry_ts := Env.Date_now w1 |}).
    + reflexivity.
    + simpl. rewrite <- Hsame. apply lookup_insert_eq.
    + simpl. unfold Env.Date_now, Js.ms_of_clock. simpl. lia.
  - intros ->. simpl in Hfail. inversion Hfail; subst.
    simpl. apply attempt_clock in Hok. simpl in Hok. apply Hok.
Qed.

(** C6 with lookaheads 62 and 63, 30 s apart, on a 60 s TTL. *)
Lemma forecast_cache_keyed_by_rounded_lookahead_witness :
  exists c1 w1,
    Provider.chain_getForecast Scenario.owmChain 62 false Provider.initialState Scenario.boot
    = (inr [Scenario.shower_in_30], c1, w1)
    /\ Provider.chain_getForecast Scenario.owmChain 63 false c1 (Env.elapse 30000 w1)
       = (inr [Scenario.shower_in_30], c1, Env.elapse 30000 w1)
    /\ Env.attempts (Env.elapse 30000 w1) = [("OpenWeatherMap", Env.ReqForecast 65)].
Proof.
  destruct (forecast_cache_keyed_by_rounded_lookahead
              Scenario.owmChain Provider.initialState Scenario.boot _ _ 62 63 false []
              (Provider.OpenWeatherMapProvider Scenario.up
                 (Types.openweathermap Scenario.owmOnly) (Some Scenario.here))
              [] None [Scenario.shower_in_30] 30000
              eq_refl eq_refl (conj eq_refl eq_refl) eq_refl eq_refl eq_refl)
    as (_ & _ & _ & c1 & Hfirst & _ & Hsecond & Hatt).
  exists c1. eexists. split; [exact Hfirst|]. split; [exact Hsecond | exact (Hatt eq_refl)].
Defined.

(* ===================================================================== *)
(** * Quiet hours *)
(* ===================================================================== *)

Section QuietHours.
Import Types Platform.
Local Open Scope Z_scope.

Lemma parse_2200_0600 :
  parseQuietHours (Some {| quiet_start := Some "22:00"; quiet_end := Some "06:00" |})
  = Some (1320, 360).
Proof. reflexivity. Qed.

Lemma parseTimeString_examples :
  parseTimeString " 7:05 " = Some 425
  /\ parseTimeString "24:00" = None
  /\ parseTimeString "12:60" = None
  /\ parseTimeString "1200" = None
  /\ parseTimeString "00:00" = Some 0.
Proof. repeat split; reflexivity. Qed.

Lemma minuteOfDay_range (p : RainSwitchPlatform) (now : Z) :
  0 <= minuteOfDay p now < 1440.
Proof.
  unfold minuteOfDay, getHours, getMinutes.
  pose proof (Z.mod_pos_bound ((now + localOffsetMs p now) / 3600000) 24 ltac:(lia)).
  pose proof (Z.mod_pos_bound ((now + localOffsetMs p now) / 60000) 60 ltac:(lia)).
  lia.
Qed.

End QuietHours.

(** C5: with a quiet window whose start minute is after its end minute,
    a time is quiet iff its minute of the day is >= start or < end; with
    start <= end it is quiet iff the minute is in [start, end); for
    22:00-06:00, 23:30 and 05:59 are quiet and 12:00 is not. *)
Theorem quiet_hours_wrap_midnight (p : Platform.RainSwitchPlatform) (now : Z) :
  (forall start end_ : Z,
      Platform.quietSchedule p = Some (start, end_) ->
      let m := Platform.minuteOfDay p now in
      ((end_ < start)%Z ->
       (Platform.isWithinQuietHours p now = true <-> (start <= m \/ m < end_)%Z))
      /\ ((start <= end_)%Z ->
          (Platform.isWithinQuietHours p now = true <-> (start <= m < end_)%Z)))
  /\ (Platform.quietSchedule p
      = Platform.parseQuietHours
          (Some {| Types.quiet_start := Some "22:00"; Types.quiet_end := Some "06:00" |}) ->
      (Platform.getHours p now = 23%Z -> Platform.getMinutes p now = 30%Z ->
       Platform.isWithinQuietHours p now = true)
      /\ (Platform.getHours p now = 12%Z -> Platform.getMinutes p now = 0%Z ->
          Platform.isWithinQuietHours p now = false)
      /\ (Platform.getHours p now = 5%Z -> Platform.getMinutes p now = 59%Z ->
          Platform.isWithinQuietHours p now = true)).
Proof.
  split.
  - intros start end_ Hq m. unfold Platform.isWithinQuietHours. rewrite Hq. fold m.
    split; intros Hord.
    + destruct (start <=? end_)%Z eqn:Hle; [apply Z.leb_le in Hle; lia|].
      rewrite orb_true_iff, Z.leb_le, Z.ltb_lt. tauto.
    + apply Z.leb_le in Hord. rewrite Hord.
      rewrite andb_true_iff, Z.leb_le, Z.ltb_lt. tauto.
  - rewrite parse_2200_0600. intros Hq.
    unfold Platform.isWithinQuietHours, Platform.minuteOfDay. rewrite Hq.
    repeat split; intros -> ->; reflexivity.
Qed.

(** C5 on a host five hours behind UTC with quiet hours 22:00-06:00. *)
Lemma quiet_hours_wrap_midnight_witness :
  Platform.isWithinQuietHours Scenario.house Scenario.at_2330 = true
  /\ Platform.isWithinQuietHours Scenario.house Scenario.at_1200 = false
  /\ Platform.isWithinQuietHours Scenario.house Scenario.at_0559 = true
  /\ (Platform.isWithinQuietHours Scenario.house Scenario.at_2330 = true
      <-> (1320 <= Platform.minuteOfDay Scenario.house Scenario.at_2330
           \/ Platform.minuteOfDay Scenario.house Scenario.at_2330 < 360)%Z).
Proof.
  destruct (quiet_hours_wrap_midnight Scenario.house Scenario.at_2330) as [Hgen [Ha _]]; [reflexivity|].
  destruct (quiet_hours_wrap_midnight Scenario.house Scenario.at_1200) as [_ (_ & Hb & _)]; [reflexivity|].
  destruct (quiet_hours_wrap_midnight Scenario.house Scenario.at_0559) as [_ (_ & _ & Hc)]; [reflexivity|].
  split; [exact (Ha eq_refl eq_refl)|].
  split; [exact (Hb eq_refl eq_refl)|].
  split; [exact (Hc eq_refl eq_refl)|].
  apply (Hgen 1320%Z 360%Z eq_refl). reflexivity.
Defined.

(* ===================================================================== *)
(** * Properties of the accessory's decision logic *)
(* ===================================================================== *)

Section AccessoryFacts.
Import Types Env RainAccessory.
Local Open Scope Z_scope.

Lemma updateState_result (s l : bool) (a : RainAccessory) (w : World) :
  let '(a', w') := updateState s l a w in
  currentState a' = s
  /\ hysteresis a' = hysteresis a
  /\ overrideState a' = overrideState a
  /\ overrideUntil a' = overrideUntil a
  /\ sameSetup a a'
  /\ attempts w' = attempts w /\ clock w' = clock w.
Proof.
  unfold updateState, sameSetup.
  destruct (Bool.eqb (currentState a) s) eqn:Heq; simpl.
  - apply Bool.eqb_prop in Heq. repeat split; auto.
  - destruct l; simpl; repeat split; auto.
Qed.

Lemma clearFault_result (a : RainAccessory) (w : World) :
  let '(a', w') := clearFault a w in
  currentState a' = currentState a
  /\ hysteresis a' = hysteresis a
  /\ overrideState a' = overrideState a
  /\ overrideUntil a' = overrideUntil a
  /\ sameSetup a a'
  /\ attempts w' = attempts w /\ clock w' = clock w.
Proof. unfold clearFault, sameSetup. simpl. repeat split; auto. Qed.







(** A rain-now accessory with no override and a gate in its bootstrap
    condition adopts [desired] at once, outside quiet hours. *)
Lemma evaluate_rain_now_bootstrap (a : RainAccessory) (weather : WeatherNowcast)
    (c : Provider.ChainState) (w : World) :
  acc_type (config a) = rain_now ->
  overrideUntil a = 0 ->
  Hysteresis.lastFlip (hysteresis a) = 0 ->
  Platform.isWithinQuietHours (platform a) (Date_now w) = false ->
  exists a' w',
    evaluate a weather c w = (inr tt, a', c, w')
    /\ currentState a' = desiredRainNow (config a) weather
    /\ hysteresis a'
       = {| Hysteresis.state := desiredRainNow (config a) weather;
            Hysteresis.lastFlip := Date_now w |}
    /\ overrideState a' = overrideState a
    /\ overrideUntil a' = 0
    /\ attempts w' = attempts w.
Proof.
  intros Hty Hu Hboot Hquiet. unfold evaluate. cbv zeta. unfold activeOverride. simpl.
  rewrite Hu, Hquiet. simpl. rewrite Hty. unfold settle. simpl.
  rewrite (next_bootstrap _ (hysteresis a) _ (Date_now w) Hboot).
  set (d := desiredRainNow (config a) weather).
  set (a0 := set_hysteresis _ _).
  match goal with |- context [updateState d ?l a0 w] =>
    pose proof (updateState_result d l a0 w) as Hup;
    destruct (updateState d l a0 w) as [a1 w1] end.
  destruct Hup as (Hc1 & Hg1 & Hs1 & Hu1 & _ & Hat1 & _).
  simpl. eexists. eexists. split; [reflexivity|]. simpl.
  subst a0. simpl in *. repeat split; congruence.
Qed.

End AccessoryFacts.

(** C7: for a rain-now output with threshold 0.05, desired is true for
    rain at 0.06 mm/h, false for rain at 0.04 mm/h, and false for snow at
    any intensity; a fresh accessory outside quiet hours adopts that value
    as its state. *)
Theorem rain_now_threshold_examples
    (cfg : Types.RainAccessoryConfig) (weather : Types.WeatherNowcast) :
  Types.acc_type cfg = Types.rain_now ->
  Types.thresholdMmPerHr cfg = Some 0.05%float ->
  (Types.type weather = Types.rain -> Types.precipMmHr weather = 0.06%float ->
   RainAccessory.desiredRainNow cfg weather = true)
  /\ (Types.type weather = Types.rain -> Types.precipMmHr weather = 0.04%float ->
      RainAccessory.desiredRainNow cfg weather = false)
  /\ (Types.type weather = Types.snow ->
      RainAccessory.desiredRainNow cfg weather = false)
  /\ (forall (p : Platform.RainSwitchPlatform) (c : Provider.ChainState) (w : Env.World),
         Platform.isWithinQuietHours p (Env.Date_now w) = false ->
         exists a' w',
           RainAccessory.evaluate (fst (RainAccessory.newRainAccessory p cfg w)) weather c
             (snd (RainAccessory.newRainAccessory p cfg w))
           = (inr tt, a', c, w')
           /\ RainAccessory.currentState a' = RainAccessory.desiredRainNow cfg weather).
Proof.
  intros Hty Hthr. unfold RainAccessory.desiredRainNow, RainAccessory.isRain.
  rewrite Hthr. simpl. repeat split.
  - intros -> ->. reflexivity.
  - intros -> ->. reflexivity.
  - intros ->. reflexivity.
  - intros p c w Hquiet.
    destruct (evaluate_rain_now_bootstrap (fst (RainAccessory.newRainAccessory p cfg w))
                weather c (snd (RainAccessory.newRainAccessory p cfg w)) Hty eq_refl eq_refl Hquiet)
      as (a' & w' & Hev & Hcur & _).
    exists a', w'. split; [exact Hev|]. rewrite Hcur.
    unfold RainAccessory.desiredRainNow, RainAccessory.isRain. simpl. rewrite Hthr. reflexivity.
Qed.

(** C7 on three concrete nowcasts. *)
Lemma rain_now_threshold_examples_witness :
  RainAccessory.desiredRainNow Scenario.rainNow Scenario.drizzle = true
  /\ RainAccessory.desiredRainNow Scenario.rainNow Scenario.lightRain = false
  /\ RainAccessory.desiredRainNow Scenario.rainNow Scenario.heavySnow = false.
Proof.
  destruct (rain_now_threshold_examples Scenario.rainNow Scenario.drizzle eq_refl eq_refl)
    as (Ha & _).
  destruct (rain_now_threshold_examples Scenario.rainNow Scenario.lightRain eq_refl eq_refl)
    as (_ & Hb & _).
  destruct (rain_now_threshold_examples Scenario.rainNow Scenario.heavySnow eq_refl eq_refl)
    as (_ & _ & Hc & _).
  split; [exact (Ha eq_refl eq_refl)|]. split; [exact (Hb eq_refl eq_refl)|]. exact (Hc eq_refl).
Defined.

(** C10: for a rain-now output a sleet nowcast is treated as a rain
    nowcast: desired holds iff the rate reaches the configured threshold,
    it is the value the same reading of type rain gives, and an evaluation
    leaves the accessory and the chain in the same state for both. *)
Theorem sleet_counts_as_rain_now
    (a : RainAccessory.RainAccessory) (weather : Types.WeatherNowcast)
    (c : Provider.ChainState) (w : Env.World) :
  Types.acc_type (RainAccessory.config a) = Types.rain_now ->
  Types.type weather = Types.sleet ->
  (RainAccessory.desiredRainNow (RainAccessory.config a) weather = true
   <-> RainAccessory.geq (Types.precipMmHr weather)
         (Js.nullish (Types.thresholdMmPerHr (RainAccessory.config a))
            RainAccessory.DEFAULT_RAIN_THRESHOLD) = true)
  /\ RainAccessory.desiredRainNow (RainAccessory.config a) weather
     = RainAccessory.desiredRainNow (RainAccessory.config a)
         (RainAccessory.withType Types.rain weather)
  /\ fst (RainAccessory.evaluate a weather c w)
     = fst (RainAccessory.evaluate a (RainAccessory.withType Types.rain weather) c w).
Proof.
  intros Hty Hsleet.
  assert (RainAccessory.desiredRainNow (RainAccessory.config a) weather
          = RainAccessory.desiredRainNow (RainAccessory.config a)
              (RainAccessory.withType Types.rain weather)) as Hsame.
  { unfold RainAccessory.desiredRainNow, RainAccessory.isRain. rewrite Hsleet. reflexivity. }
  split; [|split; [exact Hsame|]].
  - unfold RainAccessory.desiredRainNow, RainAccessory.isRain. rewrite Hsleet. simpl. tauto.
  - unfold RainAccessory.evaluate. cbv zeta. simpl.
    destruct (RainAccessory.activeOverride _ _) as [pinned|].
    + repeat match goal with
             | |- context [RainAccessory.updateState ?s ?l ?x ?y] =>
                 destruct (RainAccessory.updateState s l x y)
             end.
      reflexivity.
    + destruct (negb _ && _).
      * unfold RainAccessory.expireOverride. simpl. rewrite Hty, <- Hsame.
        unfold RainAccessory.settle.
        destruct (Platform.isWithinQuietHours _ _); [reflexivity|].
        destruct (Hysteresis.next _ _ _ _).
        repeat match goal with
               | |- context [RainAccessory.updateState ?s ?l ?x ?y] =>
                   destruct (RainAccessory.updateState s l x y)
               end.
        reflexivity.
      * simpl. rewrite Hty, <- Hsame. unfold RainAccessory.settle.
        destruct (Platform.isWithinQuietHours _ _); [reflexivity|].
        destruct (Hysteresis.next _ _ _ _).
        repeat match goal with
               | |- context [RainAccessory.updateState ?s ?l ?x ?y] =>
                   destruct (RainAccessory.updateState s l x y)
               end.
        reflexivity.
Qed.

(** C10 on sleet at 0.06 mm/h and at 0.04 mm/h. *)
Lemma sleet_counts_as_rain_now_witness :
  RainAccessory.desiredRainNow Scenario.rainNow
    (RainAccessory.withType Types.sleet Scenario.drizzle) = true
  /\ RainAccessory.desiredRainNow Scenario.rainNow
       (RainAccessory.withType Types.sleet Scenario.lightRain)
     = RainAccessory.desiredRainNow Scenario.rainNow Scenario.lightRain.
Proof.
  destruct (sleet_counts_as_rain_now
              (fst (RainAccessory.newRainAccessory Scenario.cabin Scenario.rainNow Scenario.boot))
              (RainAccessory.withType Types.sleet Scenario.drizzle)
              Provider.initialState Scenario.boot eq_refl eq_refl) as (Hiff & _).
  destruct (sleet_counts_as_rain_now
              (fst (RainAccessory.newRainAccessory Scenario.cabin Scenario.rainNow Scenario.boot))
              (RainAccessory.withType Types.sleet Scenario.lightRain)
              Provider.initialState Scenario.boot eq_refl eq_refl) as (_ & Hsame & _).
  split; [apply Hiff; reflexivity | exact Hsame].
Defined.





(* ===================================================================== *)
(** * The adapters' precipitation types *)
(* ===================================================================== *)

Section AdapterFacts.
Import Types Adapters.

Lemma determineWeatherType_loop_eq (value : list NwsCondition) :
  determineWeatherType (Some value) = determineWeatherType_loop value.
Proof. destruct value; reflexivity. Qed.

(** The first entry that mentions a keyword decides. *)
Lemma determineWeatherType_first (pre : list NwsCondition) :
  forall (condition : NwsCondition) (post : list NwsCondition),
  Forall silent pre ->
  determineWeatherType (Some (pre ++ condition :: post))
  = if impliesSnow (conditionText condition) then snow
    else if impliesRainNws (conditionText condition) then rain
    else determineWeatherType (Some post).
Proof.
  intros condition post Hpre. rewrite !determineWeatherType_loop_eq.
  induction Hpre as [|x pre [Hs Hr] _ IH]; simpl.
  - reflexivity.
  - rewrite Hs, Hr. exact IH.
Qed.

Lemma determineWeatherType_snow_iff (value : list NwsCondition) :
  determineWeatherType (Some value) = snow
  <-> exists pre condition post,
        value = pre ++ condition :: post
        /\ Forall silent pre
        /\ impliesSnow (conditionText condition) = true.
Proof.
  split.
  - rewrite determineWeatherType_loop_eq.
    induction value as [|x rest IH]; simpl; [discriminate|].
    destruct (impliesSnow (conditionText x)) eqn:Hs.
    + intros _. exists [], x, rest. auto.
    + destruct (impliesRainNws (conditionText x)) eqn:Hr; [discriminate|].
      intros H. destruct (IH H) as (pre & c & post & -> & Hpre & Hc).
      exists (x :: pre), c, post. repeat split; auto.
      constructor; [split; assumption | assumption].
  - intros (pre & c & post & -> & Hpre & Hc).
    rewrite (determineWeatherType_first pre c post Hpre), Hc. reflexivity.
Qed.

Lemma includes_nonempty (s needle : string) :
  Js.includes (Js.toLowerCase s) needle = true -> needle <> EmptyString ->
  Js.truthy_string s = true.
Proof.
  destruct s; simpl; [|reflexivity].
  destruct needle; [congruence|]. simpl. discriminate.
Qed.

End AdapterFacts.

(** C8 (as stated) fails for the NWS adapter: a list whose first entry
    implies rain and whose second implies snow maps to rain. *)
Lemma nws_rain_entry_before_snow_entry_maps_to_rain :
  ~ Adapters.snowWinsInList Scenario.rainThenSnow.
Proof.
  unfold Adapters.snowWinsInList. intros H.
  assert (Adapters.determineWeatherType (Some Scenario.rainThenSnow) = Types.snow) as Hsnow.
  { apply H.
    exists {| Adapters.nws_weather := Some "snow"; Adapters.nws_coverage := Some "chance" |}.
    split; [right; left; reflexivity | reflexivity]. }
  vm_compute in Hsnow. discriminate.
Qed.

(** C8 (amended): within one condition text snow takes precedence: a
    WeatherKit value containing "snow" maps to snow whatever else it
    contains; for OpenWeatherMap a snow amount above 0.01 maps to snow
    whatever the rain amount, and with no amount above 0.01 a text
    containing "snow" maps to snow; an NWS condition list maps to the type
    of its first entry, in list order, whose text contains a keyword, snow
    before rain within that entry, so the list maps to snow iff that entry
    contains "snow". *)
Theorem snow_precedence_within_one_condition :
  (forall value : string,
      Js.includes (Js.toLowerCase value) "snow" = true ->
      Adapters.resolvePrecipType (Some value) = Types.snow)
  /\ (forall (weather : option (list Adapters.OwmWeather)) (rain_ snow_ : option float),
         Adapters.above_trace snow_ = true ->
         Adapters.resolveType weather rain_ snow_ = Types.snow)
  /\ (forall (weather : option (list Adapters.OwmWeather)) (rain_ snow_ : option float),
         Adapters.above_trace rain_ = false ->
         Js.includes (Adapters.owmText weather) "snow" = true ->
         Adapters.resolveType weather rain_ snow_ = Types.snow)
  /\ (forall (pre : list Adapters.NwsCondition) (condition : Adapters.NwsCondition)
             (post : list Adapters.NwsCondition),
         Forall Adapters.silent pre ->
         Adapters.determineWeatherType (Some (pre ++ condition :: post))
         = if Adapters.impliesSnow (Adapters.conditionText condition) then Types.snow
           else if Adapters.impliesRainNws (Adapters.conditionText condition) then Types.rain
           else Adapters.determineWeatherType (Some post))
  /\ (forall value : list Adapters.NwsCondition,
         Adapters.determineWeatherType (Some value) = Types.snow
         <-> exists pre condition post,
               value = pre ++ condition :: post
               /\ Forall Adapters.silent pre
               /\ Adapters.impliesSnow (Adapters.conditionText condition) = true).
Proof.
  split; [|split; [|split; [|split]]].
  - intros value Hsnow. unfold Adapters.resolvePrecipType. simpl.
    rewrite (includes_nonempty value "snow" Hsnow ltac:(discriminate)). simpl.
    rewrite Hsnow. reflexivity.
  - intros weather rain_ snow_ Hs. unfold Adapters.resolveType. rewrite Hs. reflexivity.
  - intros weather rain_ snow_ Hr Htext. unfold Adapters.resolveType.
    destruct (Adapters.above_trace snow_); [reflexivity|]. rewrite Hr.
    cbv zeta. rewrite Htext. reflexivity.
  - apply determineWeatherType_first.
  - apply determineWeatherType_snow_iff.
Qed.

(** C8 (amended) on concrete condition texts and lists. *)
Lemma snow_precedence_within_one_condition_witness :
  Adapters.resolvePrecipType (Some "MixedRainAndSnow") = Types.snow
  /\ Adapters.resolveType
       (Some [{| Adapters.owm_main := Some "Snow"; Adapters.owm_description := Some "rain and snow" |}])
       (Some 0.5%float) (Some 0.2%float) = Types.snow
  /\ Adapters.determineWeatherType
       (Some [{| Adapters.nws_weather := None; Adapters.nws_coverage := None |};
              {| Adapters.nws_weather := Some "Snow_Showers"; Adapters.nws_coverage := None |};
              {| Adapters.nws_weather := Some "rain"; Adapters.nws_coverage := None |}])
     = Types.snow
  /\ Adapters.determineWeatherType (Some Scenario.rainThenSnow) = Types.rain.
Proof.
  destruct snow_precedence_within_one_condition as (Hwk & Howm & _ & Hfirst & _).
  split; [apply Hwk; reflexivity|].
  split; [apply Howm; reflexivity|].
  split.
  - apply (Hfirst [{| Adapters.nws_weather := None; Adapters.nws_coverage := None |}]
             {| Adapters.nws_weather := Some "Snow_Showers"; Adapters.nws_coverage := None |}
             [{| Adapters.nws_weather := Some "rain"; Adapters.nws_coverage := None |}]).
    repeat constructor.
  - apply (Hfirst [] {| Adapters.nws_weather := Some "rain"; Adapters.nws_coverage := Some "likely" |}
             [{| Adapters.nws_weather := Some "snow"; Adapters.nws_coverage := Some "chance" |}]).
    constructor.
Defined.

(* ===================================================================== *)
(** * Location resolution *)
(* ===================================================================== *)

Section GeoFacts.
Import Types Geo.
Local Open Scope Z_scope.

Variable sv : Services.

Lemma saveCache_quiet (storagePath : option string) (cache : LocationCache) (w : World) :
  requests (saveCache sv storagePath cache w) = requests w
  /\ clock (saveCache sv storagePath cache w) = clock w
  /\ geolog (saveCache sv storagePath cache w) = geolog w
  /\ writable (saveCache sv storagePath cache w) = writable w.
Proof. unfold saveCache. destruct (writable w _); simpl; auto. Qed.


Lemma loadCache_quiet (storagePath : option string) (w : World) :
  requests (snd (loadCache sv storagePath w)) = requests w
  /\ clock (snd (loadCache sv storagePath w)) = clock w
  /\ geolog (snd (loadCache sv storagePath w)) = geolog w
  /\ writable (snd (loadCache sv storagePath w)) = writable w.
Proof.
  unfold loadCache.
  destruct (files w !! getCacheFile sv storagePath) as [[cache|]|]; simpl; auto.
  destruct (Js.truthy_opt_string storagePath); simpl; auto.
  destruct (files w !! LEGACY_CACHE_FILE sv) as [[legacy|]|]; simpl; auto.
  apply saveCache_quiet.
Qed.

Lemma lookup_Object (key : string) (entries : gmap string LocationCacheEntry) :
  Object entries !! key = entries !! key.
Proof. reflexivity. Qed.

(** The assignment of an entry throws exactly on [null] and on the
    primitive values. *)
Lemma set_outcome (key : string) (entry : LocationCacheEntry) (cache : LocationCache) :
  match cache with
  | Object entries => set key entry cache = inr (Object (<[key := entry]> entries))
  | Array => set key entry cache = inr Array
  | Null | Primitive _ => exists message, set key entry cache = inl (TypeError message)
  end.
Proof. destruct cache; simpl; eauto. Qed.

End GeoFacts.




(* ===================================================================== *)
(** * Further properties of the hysteresis gate *)
(* ===================================================================== *)

(** X1: After [reset], whatever value it was given and whatever the gate held,
    a non-empty run of calls gives the results and the final closure that
    a newly made gate gives. *)
Theorem reset_gate_runs_like_new
    (o : Hysteresis.HysteresisOptions) (g : Hysteresis.Gate) (initial : option bool)
    (calls : list Hysteresis.call) :
  calls <> [] ->
  Hysteresis.run o (Hysteresis.reset initial g) calls
  = Hysteresis.run o Hysteresis.makeHysteresis calls.
Proof.
  destruct calls as [|[desired now] rest]; [congruence|]. intros _.
  cbn [Hysteresis.run].
  rewrite (next_bootstrap o (Hysteresis.reset initial g) desired now eq_refl).
  rewrite (next_bootstrap o Hysteresis.makeHysteresis desired now eq_refl).
  reflexivity.
Qed.

(** A gate reset to ON and then asked for OFF switches at once. *)
Lemma reset_gate_runs_like_new_witness :
  fst (Hysteresis.run
         {| Hysteresis.minOnMs := Hysteresis.Num 300000; Hysteresis.minOffMs := Hysteresis.Num 300000 |}
         (Hysteresis.reset (Some true) {| Hysteresis.state := true; Hysteresis.lastFlip := 5000 |})
         [(false, 5001%Z)])
  = [(5001%Z, false)].
Proof.
  rewrite reset_gate_runs_like_new; [reflexivity | discriminate].
Defined.

(** X2: While every call comes before the dwell of the current state has
    elapsed since the recorded flip, the gate returns its state on every
    call and its closure does not change. *)
Theorem gate_holds_within_dwell
    (o : Hysteresis.HysteresisOptions) (g : Hysteresis.Gate) (calls : list Hysteresis.call) :
  Hysteresis.lastFlip g <> 0%Z ->
  Forall (fun c : Hysteresis.call =>
            (snd c - Hysteresis.lastFlip g < Hysteresis.dwell o (Hysteresis.state g))%Z) calls ->
  snd (Hysteresis.run o g calls) = g
  /\ Forall (fun out : Z * bool => snd out = Hysteresis.state g) (fst (Hysteresis.run o g calls)).
Proof.
  intros Hne Hall. induction Hall as [|[desired now] rest Hlt _ IH]; simpl.
  - split; [reflexivity | constructor].
  - assert (Hysteresis.next o g desired now = (Hysteresis.state g, g)) as Hnext.
    { unfold Hysteresis.next. apply Z.eqb_neq in Hne. rewrite Hne.
      destruct (Bool.eqb desired (Hysteresis.state g)); [reflexivity|].
      unfold Hysteresis.dwell in Hlt. simpl in Hlt.
      destruct (_ <=? _)%Z eqn:Hle; [apply Z.leb_le in Hle; lia | reflexivity]. }
    rewrite Hnext. destruct (Hysteresis.run o g rest) as [outs g2]. simpl in *.
    destruct IH as [-> Houts]. split; [reflexivity|]. constructor; [reflexivity | exact Houts].
Qed.

(** ON since 1000 with a 5 minute dwell: requests for OFF during the next
    five minutes are dropped. *)
Lemma gate_holds_within_dwell_witness :
  fst (Hysteresis.run
         {| Hysteresis.minOnMs := Hysteresis.Num 300000; Hysteresis.minOffMs := Hysteresis.Num 0 |}
         {| Hysteresis.state := true; Hysteresis.lastFlip := 1000 |}
         [(false, 2000%Z); (false, 182000%Z); (false, 300999%Z)])
  = [(2000%Z, true); (182000%Z, true); (300999%Z, true)].
Proof.
  pose proof (gate_holds_within_dwell
                {| Hysteresis.minOnMs := Hysteresis.Num 300000; Hysteresis.minOffMs := Hysteresis.Num 0 |}
                {| Hysteresis.state := true; Hysteresis.lastFlip := 1000 |}
                [(false, 2000%Z); (false, 182000%Z); (false, 300999%Z)]) as H.
  destruct H as [_ H].
  - discriminate.
  - repeat constructor.
  - reflexivity.
Defined.

(** X3: A request for the other state made once the dwell of the current
    state has elapsed is accepted, and its time becomes the flip time; a
    dwell configured negative or non-finite counts as zero, so that such a
    request is accepted at any time that is not before the last flip. *)
Theorem gate_accepts_after_dwell
    (o : Hysteresis.HysteresisOptions) (g : Hysteresis.Gate) (desired : bool) (now : Z) :
  Hysteresis.lastFlip g <> 0%Z ->
  desired <> Hysteresis.state g ->
  ((Hysteresis.dwell o (Hysteresis.state g) <= now - Hysteresis.lastFlip g)%Z
   \/ (Props.noDwell (Props.dwellSetting o (Hysteresis.state g))
       /\ (Hysteresis.lastFlip g <= now)%Z)) ->
  Hysteresis.next o g desired now
  = (desired, {| Hysteresis.state := desired; Hysteresis.lastFlip := now |}).
Proof.
  intros Hne Hd Hwhen.
  assert (Hysteresis.dwell o (Hysteresis.state g) <= now - Hysteresis.lastFlip g)%Z as Hle.
  { destruct Hwhen as [H|[Hno Hnow]]; [exact H|].
    assert (Hysteresis.dwell o (Hysteresis.state g) = 0%Z) as ->; [|lia].
    unfold Hysteresis.dwell, Hysteresis.minOn, Hysteresis.minOff, Props.dwellSetting in *.
    destruct (Hysteresis.state g); destruct Hno as [-> | (z & -> & Hz)]; simpl; lia. }
  unfold Hysteresis.next. apply Z.eqb_neq in Hne. rewrite Hne.
  destruct (Bool.eqb desired (Hysteresis.state g)) eqn:Heq.
  { apply Bool.eqb_prop in Heq. congruence. }
  unfold Hysteresis.dwell in Hle. apply Z.leb_le in Hle. simpl. rewrite Hle. reflexivity.
Qed.

(** OFF since 1000 with a non-finite OFF dwell: ON is accepted one
    millisecond later. *)
Lemma gate_accepts_after_dwell_witness :
  Hysteresis.next
    {| Hysteresis.minOnMs := Hysteresis.Num 300000; Hysteresis.minOffMs := Hysteresis.NonFinite |}
    {| Hysteresis.state := false; Hysteresis.lastFlip := 1000 |} true 1001
  = (true, {| Hysteresis.state := true; Hysteresis.lastFlip := 1001 |}).
Proof.
  apply gate_accepts_after_dwell.
  - discriminate.
  - discriminate.
  - right. split; [left; reflexivity | simpl; lia].
Defined.

(* ===================================================================== *)
(** * Further properties of the provider chain *)
(* ===================================================================== *)

Section ChainExtras.
Import Types Env Provider.
Local Open Scope Z_scope.

Lemma pick_requests {T} (o : ProviderChainOptions) (fn : Call T) (ps : list WeatherProvider) :
  forall (lastError : option Error) (c : ChainState) (w : World),
  exists k : nat,
    (k <= length ps)%nat
    /\ attempts (snd (pickProvider_from o fn ps lastError c w))
       = attempts w ++ Props.requestsTo fn (take k ps)
    /\ match fst (fst (pickProvider_from o fn ps lastError c w)) with
       | inl _ => k = length ps
       | inr _ => (1 <= k)%nat
       end.
Proof.
  induction ps as [|p rest IH]; intros le c w; simpl.
  - exists 0%nat. simpl. rewrite app_nil_r. auto.
  - destruct (attempt o fn p w) as [[e|r] w1] eqn:Hatt;
      apply attempt_clock in Hatt; destruct Hatt as [Hatt Hlog].
    + destruct (IH (Some e) c (log (WarnProviderFailed (name p) e) w1)) as (k & Hk & Hreq & Hres).
      exists (S k). split; [lia|]. split.
      * rewrite Hreq. simpl. rewrite Hatt, <- app_assoc. reflexivity.
      * destruct (fst (fst _)); lia.
    + exists 1%nat. simpl. split; [lia|]. split; [|lia].
      unfold Props.requestsTo. simpl. exact Hatt.
Qed.




Lemma failures_index (ch : ProviderChain) (ws : list World) :
  forall c : ChainState,
  0 <= backoffIndex c < Z.of_nat (length (retryBackoffSeconds (opts ch))) ->
  backoffIndex (Props.failures ch c ws)
  = Z.min (backoffIndex c + Z.of_nat (length ws))
          (Z.of_nat (length (retryBackoffSeconds (opts ch))) - 1).
Proof.
  induction ws as [|w rest IH]; intros c Hidx; simpl.
  - lia.
  - unfold Props.failures in *. simpl.
    rewrite IH.
    + unfold markFailure. rewrite advance_index. lia.
    + unfold markFailure. rewrite advance_index. lia.
Qed.

End ChainExtras.

(** X4: Every provider needs a resolved location: without one,
    makeProviderChain fails with 'No weather providers enabled', whatever
    the provider configuration and options. *)
Theorem chain_needs_a_location
    (net : Provider.Network) (cfg : option Types.ProviderConfig)
    (options : option Provider.PartialOptions) :
  Provider.makeProviderChain net cfg None options = inl Env.NoProvidersEnabled.
Proof.
  assert (forall up c, Provider.isSupported (Provider.WeatherKitProvider up c None) = false) as Hwk.
  { intros up [c|]; simpl; [apply andb_false_r | reflexivity]. }
  assert (forall up c, Provider.isSupported (Provider.OpenWeatherMapProvider up c None) = false)
    as Howm.
  { intros up [c|]; simpl; [apply andb_false_r | reflexivity]. }
  assert (forall up c, Provider.isSupported (Provider.TomorrowProvider up c None) = false) as Htm.
  { intros up [c|]; simpl; [apply andb_false_r | reflexivity]. }
  assert (forall up c, Provider.isSupported (Provider.NwsProvider up c None) = false) as Hnws
    by reflexivity.
  unfold Provider.makeProviderChain. cbv zeta. unfold Provider.addProvider.
  rewrite Hwk, Howm, Htm, Hnws.
  repeat match goal with
         | |- context [if ?b then _ else _] =>
             match type of b with bool => destruct b end
         end; reflexivity.
Qed.

(** X5: With a pinned mode a chain that can be built holds that provider and
    no other: there is no fallback to the remaining providers. *)
Theorem pinned_mode_has_one_provider
    (net : Provider.Network) (cfg : Types.ProviderConfig)
    (location : option Types.ResolvedLocation) (options : option Provider.PartialOptions)
    (ch : Provider.ProviderChain) (m : Types.ProviderMode) (n : string) :
  Types.mode cfg = Some m ->
  Props.modeName m = Some n ->
  Provider.makeProviderChain net (Some cfg) location options = inr ch ->
  map Provider.name (Provider.providers ch) = [n] /\ Provider.describe ch = n.
Proof.
  intros Hm Hn Hmake.
  assert (map Provider.name (Provider.providers ch) = [n]) as Hnames.
  { destruct (makeProviderChain_providers net (Some cfg) location options ch Hmake) as [Hps _].
    assert (Provider.providers ch <> []) as Hnonempty.
    { revert Hmake. unfold Provider.makeProviderChain. cbv zeta.
      match goal with |- context [match ?l with [] => _ | _ => _ end] => destruct l end;
        intros H; inversion H; subst; simpl; discriminate. }
    rewrite Hps in *. unfold Provider.candidates in *. simpl in *. rewrite Hm in *. simpl in *.
    destruct m; simpl in *; inversion Hn; subst;
      repeat match goal with
             | |- context [List.filter _ (if ?b then _ else _)] => destruct b; simpl in *
             | H : context [if ?b then _ else _] |- _ => destruct b eqn:?; simpl in *
             | |- context [if ?b then _ else _] => destruct b eqn:?; simpl in *
             end; try congruence; reflexivity. }
  split; [exact Hnames|]. unfold Provider.describe. rewrite Hnames. reflexivity.
Qed.

(** Pinned to OpenWeatherMap although WeatherKit is configured too. *)
Lemma pinned_mode_has_one_provider_witness :
  Provider.describe Scenario.owmChain = "OpenWeatherMap".
Proof.
  apply (pinned_mode_has_one_provider Scenario.fallbackNet Scenario.owmOnly (Some Scenario.here)
           None Scenario.owmChain Types.mode_openweathermap "OpenWeatherMap"
           eq_refl eq_refl eq_refl).
Defined.

(** X6: The upstream requests of one getNowcast or getForecast call go to an
    initial segment of the provider list, in priority order and one per
    provider; a call that ends in an error other than the backoff error
    has asked every provider, and a forecast request carries the rounded
    lookahead. *)
Theorem calls_follow_priority_order
    (ch : Provider.ProviderChain) (force : bool) (lookahead : Z)
    (c : Provider.ChainState) (w : Env.World) :
  (exists k : nat,
      (k <= length (Provider.providers ch))%nat
      /\ Env.attempts (snd (Provider.chain_getNowcast ch force c w))
         = Env.attempts w
           ++ Props.requestsTo Provider.callNowcast (take k (Provider.providers ch))
      /\ forall e, fst (fst (Provider.chain_getNowcast ch force c w)) = inl e ->
                   e <> Env.BackoffInEffect (Provider.backoffSeconds c w) ->
                   k = length (Provider.providers ch))
  /\ (exists k : nat,
         (k <= length (Provider.providers ch))%nat
         /\ Env.attempts (snd (Provider.chain_getForecast ch lookahead force c w))
            = Env.attempts w
              ++ Props.requestsTo (Provider.callForecast (Provider.roundLookahead lookahead))
                   (take k (Provider.providers ch))
         /\ forall e, fst (fst (Provider.chain_getForecast ch lookahead force c w)) = inl e ->
                      e <> Env.BackoffInEffect (Provider.backoffSeconds c w) ->
                      k = length (Provider.providers ch)).
Proof.
  split.
  - unfold Provider.chain_getNowcast.
    destruct (if force then None else Provider.validData _ w (Provider.nowcastCache c)).
    { exists 0%nat. simpl. rewrite app_nil_r. repeat split; [lia | discriminate]. }
    destruct (Provider.backoffActive c w).
    { exists 0%nat. destruct (Provider.validData _ _ _); simpl; rewrite app_nil_r;
        repeat split; try lia; try discriminate. intros e [= <-]. congruence. }
    unfold Provider.pickProvider.
    destruct (pick_requests (Provider.opts ch) Provider.callNowcast (Provider.providers ch)
                None c w) as (k & Hk & Hreq & Hres).
    exists k. destruct (Provider.pickProvider_from _ _ _ _ _ _) as [[[e|d] c1] w1]; simpl in *.
    + repeat split; auto.
    + repeat split; auto. discriminate.
  - unfold Provider.chain_getForecast. cbv zeta.
    destruct (if force then None else Provider.validData _ w _).
    { exists 0%nat. simpl. rewrite app_nil_r. repeat split; [lia | discriminate]. }
    destruct (Provider.backoffActive c w).
    { exists 0%nat. destruct (Provider.validData _ _ _); simpl; rewrite app_nil_r;
        repeat split; try lia; try discriminate. intros e [= <-]. congruence. }
    unfold Provider.pickProvider.
    destruct (pick_requests (Provider.opts ch)
                (Provider.callForecast (Provider.roundLookahead lookahead))
                (Provider.providers ch) None c w) as (k & Hk & Hreq & Hres).
    exists k. destruct (Provider.pickProvider_from _ _ _ _ _ _) as [[[e|d] c1] w1]; simpl in *.
    + repeat split; auto.
    + repeat split; auto. discriminate.
Qed.


(** X8: [force] skips a valid cache entry only outside the backoff window:
    inside the window a forced getNowcast is answered from the valid
    entry, without an upstream request and without an error; outside it,
    a chain with a provider does send a request. *)
Theorem forced_call_respects_backoff
    (ch : Provider.ProviderChain) (c : Provider.ChainState) (w : Env.World)
    (cached : Types.WeatherNowcast) :
  Provider.validData (Provider.opts ch) w (Provider.nowcastCache c) = Some cached ->
  Provider.chain_getNowcast ch false c w = (inr cached, c, w)
  /\ (Provider.backoffActive c w = true ->
      Provider.chain_getNowcast ch true c w = (inr cached, c, w))
  /\ (Provider.backoffActive c w = false -> Provider.providers ch <> [] ->
      Env.attempts (snd (Provider.chain_getNowcast ch true c w)) <> Env.attempts w).
Proof.
  intros Hvalid. unfold Provider.chain_getNowcast. rewrite Hvalid.
  split; [reflexivity|]. split.
  - intros ->. reflexivity.
  - intros -> Hne. unfold Provider.pickProvider.
    destruct (Provider.providers ch) as [|p rest]; [congruence|]. clear Hne.
    destruct (pick_requests (Provider.opts ch) Provider.callNowcast (p :: rest) None c w)
      as (k & Hk & Hreq & Hres).
    destruct (Provider.pickProvider_from _ _ _ _ _ _) as [[[e|d] c1] w1]; simpl in *;
      rewrite Hreq; destruct k as [|k]; simpl; try lia; try discriminate;
      intros Heq; apply (f_equal (@length _)) in Heq; rewrite length_app in Heq;
      simpl in Heq; lia.
Qed.

(** Inside a 20 s window a forced call returns the reading cached 10 s ago. *)
Lemma forced_call_respects_backoff_witness :
  Provider.chain_getNowcast Scenario.deadChain true
    (Provider.set_nowcastCache
       {| Provider.data := Scenario.drizzle; Provider.entry_ts := 1699999990000 |}
       Scenario.backingOff)
    Scenario.boot
  = (inr Scenario.drizzle,
     Provider.set_nowcastCache
       {| Provider.data := Scenario.drizzle; Provider.entry_ts := 1699999990000 |}
       Scenario.backingOff,
     Scenario.boot).
Proof.
  apply (forced_call_respects_backoff Scenario.deadChain _ Scenario.boot Scenario.drizzle);
    reflexivity.
Defined.

(** X9: With a schedule of n >= 1 entries and an index inside it, k failures
    in a row leave the index at min(index + k, n - 1) and set the window
    from the clock of the last failure and the schedule entry at that
    index; with two entries or more the index is then at least 1, so the
    first entry of the schedule never sets a window. *)
Theorem repeated_failures_saturate
    (ch : Provider.ProviderChain) (c : Provider.ChainState)
    (earlier : list Env.World) (last : Env.World) :
  let schedule := Provider.retryBackoffSeconds (Provider.opts ch) in
  let c' := Props.failures ch c (earlier ++ [last]) in
  (0 <= Provider.backoffIndex c < Z.of_nat (length schedule))%Z ->
  Provider.backoffIndex c'
  = Z.min (Provider.backoffIndex c + Z.of_nat (length earlier) + 1)
          (Z.of_nat (length schedule) - 1)
  /\ (exists seconds : Z,
         schedule !! Z.to_nat (Provider.backoffIndex c') = Some seconds
         /\ Provider.nextAllowedTs c' = Some (Env.Date_now last + seconds * 1000)%Z)
  /\ ((2 <= length schedule)%nat -> (1 <= Provider.backoffIndex c')%Z).
Proof.
  intros schedule c' Hidx. subst c' schedule.
  pose proof (failures_index ch (earlier ++ [last]) c Hidx) as Hall.
  rewrite length_app in Hall. simpl in Hall.
  split; [rewrite Hall; lia|]. split.
  - unfold Props.failures in *. rewrite fold_left_app. simpl.
    pose proof (failures_index ch earlier c Hidx) as Hearlier. unfold Props.failures in Hearlier.
    set (c1 := fold_left _ earlier c) in *.
    assert (Provider.retryBackoffSeconds (Provider.opts ch) <> []) as Hne.
    { destruct (Provider.retryBackoffSeconds (Provider.opts ch)); [simpl in Hidx; lia | discriminate]. }
    destruct (advance_window (Provider.opts ch) c1 last Hne) as (s & Hs & Hts & _); [lia|].
    exists s. split; assumption.
  - intros Hlen. rewrite Hall. lia.
Qed.

(** The default schedule: three failures in a row from the initial state
    give windows of 60, 120 and 300 seconds. *)
Lemma repeated_failures_saturate_witness :
  Provider.backoffIndex
    (Props.failures Scenario.deadChain Provider.initialState
       ([Scenario.boot; Scenario.boot] ++ [Scenario.boot])) = 3%Z
  /\ Provider.nextAllowedTs
       (Props.failures Scenario.deadChain Provider.initialState
          ([Scenario.boot; Scenario.boot] ++ [Scenario.boot]))
     = Some (1700000000000 + 300 * 1000)%Z.
Proof.
  destruct (repeated_failures_saturate Scenario.deadChain Provider.initialState
              [Scenario.boot; Scenario.boot] Scenario.boot) as (Hidx & (s & Hs & Hts) & _).
  - simpl. lia.
  - split; [exact Hidx|]. rewrite Hts. rewrite Hidx in Hs. simpl in Hs.
    inversion Hs. reflexivity.
Defined.

(* ===================================================================== *)
(** * Properties of the polling loop *)
(* ===================================================================== *)

Section PollingFacts.
Import Types Env Polling.
Local Open Scope Z_scope.

Lemma markFault_result (a : RainAccessory.RainAccessory) (w : World) :
  let '(a', w') := RainAccessory.markFault a w in
  RainAccessory.currentState a' = RainAccessory.currentState a
  /\ RainAccessory.hysteresis a' = RainAccessory.hysteresis a
  /\ RainAccessory.overrideState a' = RainAccessory.overrideState a
  /\ RainAccessory.overrideUntil a' = RainAccessory.overrideUntil a
  /\ RainAccessory.faulted a' = true
  /\ attempts w' = attempts w /\ clock w' = clock w.
Proof.
  unfold RainAccessory.markFault. destruct (RainAccessory.faulted a) eqn:Hf; simpl; auto 10.
Qed.

Lemma markFaultEach_result (accs : list RainAccessory.RainAccessory) :
  forall w : World,
  let '(accs', w') := markFaultEach accs w in
  map RainAccessory.currentState accs' = map RainAccessory.currentState accs
  /\ map RainAccessory.hysteresis accs' = map RainAccessory.hysteresis accs
  /\ Forall (fun a => RainAccessory.faulted a = true) accs'
  /\ attempts w' = attempts w /\ clock w' = clock w.
Proof.
  induction accs as [|a rest IH]; intros w; simpl.
  - auto.
  - pose proof (markFault_result a w) as Ha.
    destruct (RainAccessory.markFault a w) as [a1 w1].
    destruct Ha as (Hc & Hg & _ & _ & Hf & Hat & Hcl).
    specialize (IH w1). destruct (markFaultEach rest w1) as [rest' w2].
    destruct IH as (Hcs & Hgs & Hfs & Hat2 & Hcl2). simpl.
    repeat split; try congruence. constructor; assumption.
Qed.

(** A poll made inside the backoff window, with no valid nowcast cached. *)
Lemma tick_blocked (ch : Provider.ProviderChain) (st : Poll) (w : World) :
  Provider.backoffActive (chain st) w = true ->
  Provider.isCacheValid (Provider.opts ch) w (Provider.nowcastCache (chain st)) = false ->
  tick ch st w
  = recover ch (BackoffInEffect (Provider.backoffSeconds (chain st) w)) st w.
Proof.
  intros Hact Hinv. unfold tick.
  rewrite (getNowcast_blocked ch false (chain st) w Hact Hinv).
  destruct st. reflexivity.
Qed.

Lemma drop_entries_step (schedule : list Z) (i : Z) :
  0 <= i < Z.of_nat (length schedule) ->
  exists seconds,
    schedule !! Z.to_nat (Z.min (i + 1) (Z.of_nat (length schedule) - 1)) = Some seconds
    /\ In seconds (drop (Z.to_nat i) schedule)
    /\ forall x, In x (drop (Z.to_nat (Z.min (i + 1) (Z.of_nat (length schedule) - 1))) schedule)
                 -> In x (drop (Z.to_nat i) schedule).
Proof.
  intros Hi. set (j := Z.min (i + 1) (Z.of_nat (length schedule) - 1)).
  assert (0 <= j < Z.of_nat (length schedule)) as Hj by (subst j; lia).
  destruct (lookup_lt_is_Some_2 schedule (Z.to_nat j)) as [s Hs]; [lia|].
  assert (exists n, Z.to_nat j = (Z.to_nat i + n)%nat) as [n Hn].
  { exists (Z.to_nat j - Z.to_nat i)%nat. subst j. lia. }
  exists s. split; [exact Hs|]. split.
  - apply list_elem_of_In. apply list_elem_of_lookup. exists n.
    rewrite lookup_drop, <- Hn. exact Hs.
  - intros x Hx. rewrite Hn in Hx. rewrite <- drop_drop in Hx.
    apply list_elem_of_In in Hx. apply list_elem_of_In.
    eapply (subseteq_drop n). exact Hx.
Qed.

(** What one blocked poll leaves behind. *)
Lemma tick_blocked_result (ch : Provider.ProviderChain) (st : Poll) (w : World) (d : N) (t : Z) :
  0 <= Provider.backoffIndex (chain st)
    < Z.of_nat (length (Provider.retryBackoffSeconds (Provider.opts ch))) ->
  Provider.nextAllowedTs (chain st) = Some t ->
  Date_now w + Z.of_N d < t ->
  Provider.isCacheValid (Provider.opts ch) w (Provider.nowcastCache (chain st)) = false ->
  let '(st', w') := tick ch st (elapse d w) in
  attempts w' = attempts w
  /\ Date_now w' = Date_now w + Z.of_N d
  /\ map RainAccessory.currentState (accessories st')
     = map RainAccessory.currentState (accessories st)
  /\ map RainAccessory.hysteresis (accessories st')
     = map RainAccessory.hysteresis (accessories st)
  /\ Forall (fun a => RainAccessory.faulted a = true) (accessories st')
  /\ lastWeather st' = lastWeather st
  /\ Provider.nowcastCache (chain st') = Provider.nowcastCache (chain st)
  /\ Provider.backoffIndex (chain st')
     = Z.min (Provider.backoffIndex (chain st) + 1)
             (Z.of_nat (length (Provider.retryBackoffSeconds (Provider.opts ch))) - 1)
  /\ exists seconds,
       In seconds (Props.entriesFrom ch (Provider.backoffIndex (chain st)))
       /\ Provider.nextAllowedTs (chain st') = Some (Date_now w' + seconds * 1000).
Proof.
  intros Hidx Ht Hlt Hinv.
  assert (Date_now (elapse d w) = Date_now w + Z.of_N d) as Hclock.
  { unfold Date_now, Js.ms_of_clock. simpl. lia. }
  assert (Provider.backoffActive (chain st) (elapse d w) = true) as Hact.
  { apply (backoffActive_spec _ _ t Ht). lia. }
  assert (Provider.isCacheValid (Provider.opts ch) (elapse d w)
            (Provider.nowcastCache (chain st)) = false) as Hinv'.
  { unfold Provider.isCacheValid in *. destruct (Provider.nowcastCache (chain st)); [|reflexivity].
    apply Z.ltb_ge in Hinv. apply Z.ltb_ge. lia. }
  rewrite (tick_blocked ch st (elapse d w) Hact Hinv'). unfold recover.
  pose proof (markFaultEach_result (accessories st) (elapse d w)) as Hm.
  destruct (markFaultEach (accessories st) (elapse d w)) as [accs w1].
  destruct Hm as (Hcs & Hgs & Hfs & Hat & Hcl). simpl.
  assert (Date_now w1 = Date_now w + Z.of_N d) as Hclock1.
  { unfold Date_now in *. rewrite Hcl. exact Hclock. }
  repeat split; auto.
  destruct (drop_entries_step (Provider.retryBackoffSeconds (Provider.opts ch))
              (Provider.backoffIndex (chain st)) Hidx) as (s & Hs & Hin & _).
  exists s. split; [exact Hin|].
  unfold Provider.markFailure, Provider.advanceBackoff, Provider.schedule_at. simpl.
  set (j := Z.min _ _) in *.
  destruct (j <? 0) eqn:Hneg; [apply Z.ltb_lt in Hneg; subst j; lia|].
  rewrite Hs, Hclock1, Hclock. reflexivity.
Qed.

Lemma poll_cons (ch : Provider.ProviderChain) (d : N) (rest : list N) (st : Poll) (w : World) :
  poll ch (d :: rest) st w
  = let '(st1, w1) := tick ch st (elapse d w) in poll ch rest st1 w1.
Proof. reflexivity. Qed.

Lemma poll_blocked (ch : Provider.ProviderChain) (later : list N) :
  forall (st : Poll) (w : World) (d : N) (t : Z),
  0 <= Provider.backoffIndex (chain st)
    < Z.of_nat (length (Provider.retryBackoffSeconds (Provider.opts ch))) ->
  Provider.nextAllowedTs (chain st) = Some t ->
  Date_now w + Z.of_N d < t ->
  Provider.isCacheValid (Provider.opts ch) w (Provider.nowcastCache (chain st)) = false ->
  Forall (Props.shorterThan (Props.entriesFrom ch (Provider.backoffIndex (chain st)))) later ->
  let '(st', w') := poll ch (d :: later) st w in
  attempts w' = attempts w
  /\ map RainAccessory.currentState (accessories st')
     = map RainAccessory.currentState (accessories st)
  /\ map RainAccessory.hysteresis (accessories st')
     = map RainAccessory.hysteresis (accessories st)
  /\ Forall (fun a => RainAccessory.faulted a = true) (accessories st')
  /\ lastWeather st' = lastWeather st.
Proof.
  induction later as [|d2 later IH]; intros st w d t Hidx Ht Hlt Hinv Hshort;
    rewrite poll_cons;
    pose proof (tick_blocked_result ch st w d t Hidx Ht Hlt Hinv) as Htick;
    destruct (tick ch st (elapse d w)) as [st1 w1];
    destruct Htick as (Hat & Hclock & Hcs & Hgs & Hfs & Hlw & Hcache & Hidx1 & s & Hin & Hts);
    cbv beta iota.
  - simpl. auto.
  - inversion Hshort as [|? ? Hd2 Hlater]; subst.
    assert (Z.of_N d2 < s * 1000) as Hd2s.
    { unfold Props.shorterThan in Hd2. rewrite Forall_forall in Hd2. apply Hd2.
      apply list_elem_of_In. exact Hin. }
    assert (0 <= Provider.backoffIndex (chain st1)
              < Z.of_nat (length (Provider.retryBackoffSeconds (Provider.opts ch)))) as Hidx'
      by (rewrite Hidx1; lia).
    assert (Provider.isCacheValid (Provider.opts ch) w1 (Provider.nowcastCache (chain st1))
            = false) as Hinv1.
    { rewrite Hcache. unfold Provider.isCacheValid in *.
      destruct (Provider.nowcastCache (chain st)); [|reflexivity].
      apply Z.ltb_ge in Hinv. apply Z.ltb_ge. lia. }
    assert (Forall (Props.shorterThan (Props.entriesFrom ch (Provider.backoffIndex (chain st1))))
              later) as Hshort1.
    { destruct (drop_entries_step (Provider.retryBackoffSeconds (Provider.opts ch))
                  (Provider.backoffIndex (chain st)) Hidx) as (_ & _ & _ & Hsub).
      eapply Forall_impl; [exact Hlater|]. intros d3 Hd3.
      unfold Props.shorterThan, Props.entriesFrom in *. rewrite Forall_forall in *.
      intros x Hx. apply Hd3. apply list_elem_of_In. apply Hsub.
      rewrite Hidx1 in Hx. apply list_elem_of_In. exact Hx. }
    specialize (IH st1 w1 d2 (Date_now w1 + s * 1000) Hidx' Hts ltac:(lia) Hinv1 Hshort1).
    destruct (poll ch (d2 :: later) st1 w1) as [st' w']. cbv beta iota.
    destruct IH as (Hat' & Hcs' & Hgs' & Hfs' & Hlw').
    split; [congruence|]. split; [congruence|]. split; [congruence|].
    split; [exact Hfs' | congruence].
Qed.

End PollingFacts.

(** X10: A poll whose getNowcast fails keeps every accessory's output and gate,
    marks every accessory faulted, keeps the last weather, logs the error
    once and reports the failure to the chain; when the failure came from
    the providers themselves the backoff index has then advanced twice for
    that one poll (once in the chain, once through markFailure). *)
Theorem failed_poll_holds_outputs
    (ch : Provider.ProviderChain) (st : Polling.Poll) (w : Env.World) (err : Env.Error) :
  fst (fst (Provider.chain_getNowcast ch false (Polling.chain st) w)) = inl err ->
  let c1 := snd (fst (Provider.chain_getNowcast ch false (Polling.chain st) w)) in
  let w1 := snd (Provider.chain_getNowcast ch false (Polling.chain st) w) in
  let st' := fst (Polling.tick ch st w) in
  let last := (Z.of_nat (length (Provider.retryBackoffSeconds (Provider.opts ch))) - 1)%Z in
  map RainAccessory.currentState (Polling.accessories st')
  = map RainAccessory.currentState (Polling.accessories st)
  /\ map RainAccessory.hysteresis (Polling.accessories st')
     = map RainAccessory.hysteresis (Polling.accessories st)
  /\ Forall (fun a => RainAccessory.faulted a = true) (Polling.accessories st')
  /\ Polling.lastWeather st' = Polling.lastWeather st
  /\ Polling.platformLog st' = Polling.platformLog st ++ [Polling.WarnPollingFailed err]
  /\ Polling.chain st' = Provider.markFailure ch c1 w1
  /\ Env.attempts (snd (Polling.tick ch st w)) = Env.attempts w1
  /\ (Provider.reachesProviders ch false (Provider.nowcastCache (Polling.chain st))
        (Polling.chain st) w ->
      Provider.backoffIndex (Polling.chain st')
      = Z.min (Z.min (Provider.backoffIndex (Polling.chain st) + 1) last + 1) last).
Proof.
  intros Herr c1 w1 st' last. subst c1 w1 st' last. unfold Polling.tick.
  destruct (Provider.chain_getNowcast ch false (Polling.chain st) w) as [[[e|weather] c1] w1]
    eqn:Hnow; simpl in Herr; [|discriminate].
  inversion Herr; subst e. unfold Polling.recover. simpl.
  pose proof (markFaultEach_result (Polling.accessories st) w1) as Hm.
  destruct (Polling.markFaultEach (Polling.accessories st) w1) as [accs w2].
  destruct Hm as (Hcs & Hgs & Hfs & Hat & _). simpl.
  repeat split; auto.
  intros Hreach. rewrite (getNowcast_reaches ch false _ w Hreach) in Hnow.
  unfold Provider.pickProvider in Hnow.
  pose proof (pick_outcome (Provider.opts ch) Provider.callNowcast (Provider.providers ch)
                None (Polling.chain st) w) as Hout.
  destruct (Provider.pickProvider_from _ _ _ _ _ _) as [[[e|d] c2] w3]; [|discriminate].
  inversion Hnow; subst. destruct Hout as [-> _].
  unfold Provider.markFailure. rewrite !advance_index. reflexivity.
Qed.

(** Both providers down at [boot]: the switch that was ON stays ON, is
    marked faulted, and the index goes from 0 to 2. *)
Lemma failed_poll_holds_outputs_witness :
  let st := {| Polling.chain := Provider.initialState;
               Polling.accessories := [Scenario2.switchedOn];
               Polling.lastWeather := None; Polling.platformLog := [] |} in
  map RainAccessory.currentState (Polling.accessories (fst (Polling.tick Scenario.deadChain st Scenario.boot)))
  = [true]
  /\ Provider.backoffIndex (Polling.chain (fst (Polling.tick Scenario.deadChain st Scenario.boot)))
     = 2%Z.
Proof.
  intros st.
  destruct (failed_poll_holds_outputs Scenario.deadChain st Scenario.boot
              (Env.UpstreamError "HTTP 500") eq_refl)
    as (Hcur & _ & _ & _ & _ & _ & _ & Hidx).
  split; [exact Hcur|]. rewrite Hidx; [reflexivity | split; reflexivity].
Defined.

(** X11: Polls made inside the backoff window never reach a provider and each
    one restarts the window from its own time: as long as the first poll
    falls inside the window, no valid nowcast is cached, and every later
    poll follows the one before by less than each backoff entry the chain
    can still move to, the whole run sends no upstream request, keeps
    every accessory's output and gate, and leaves every accessory
    faulted - however long the run. *)
Theorem polls_inside_window_renew_it
    (ch : Provider.ProviderChain) (st : Polling.Poll) (w : Env.World)
    (first : N) (later : list N) (t : Z) :
  (0 <= Provider.backoffIndex (Polling.chain st)
   < Z.of_nat (length (Provider.retryBackoffSeconds (Provider.opts ch))))%Z ->
  Provider.nextAllowedTs (Polling.chain st) = Some t ->
  (Env.Date_now w + Z.of_N first < t)%Z ->
  Provider.isCacheValid (Provider.opts ch) w (Provider.nowcastCache (Polling.chain st)) = false ->
  Forall (Props.shorterThan
            (Props.entriesFrom ch (Provider.backoffIndex (Polling.chain st)))) later ->
  let st' := fst (Polling.poll ch (first :: later) st w) in
  let w' := snd (Polling.poll ch (first :: later) st w) in
  Env.attempts w' = Env.attempts w
  /\ map RainAccessory.currentState (Polling.accessories st')
     = map RainAccessory.currentState (Polling.accessories st)
  /\ map RainAccessory.hysteresis (Polling.accessories st')
     = map RainAccessory.hysteresis (Polling.accessories st)
  /\ Forall (fun a => RainAccessory.faulted a = true) (Polling.accessories st')
  /\ Polling.lastWeather st' = Polling.lastWeather st.
Proof.
  intros Hidx Ht Hlt Hinv Hshort st' w'. subst st' w'.
  pose proof (poll_blocked ch later st w first t Hidx Ht Hlt Hinv Hshort) as H.
  destruct (Polling.poll ch (first :: later) st w) as [st' w']. exact H.
Qed.

(** The default schedule at its last entry (300 s) and the default polling
    interval (180 s): three polls, no request, the switch stays ON. *)
Lemma polls_inside_window_renew_it_witness :
  Env.attempts (snd (Polling.poll Scenario.deadChain Scenario2.threePolls
                       Scenario2.lockedOut Scenario.boot)) = []
  /\ map RainAccessory.currentState
       (Polling.accessories (fst (Polling.poll Scenario.deadChain Scenario2.threePolls
                                    Scenario2.lockedOut Scenario.boot))) = [true].
Proof.
  assert (Forall (Props.shorterThan (Props.entriesFrom Scenario.deadChain 3))
            [180000%N; 180000%N]) as Hshort.
  { repeat constructor. }
  destruct (polls_inside_window_renew_it Scenario.deadChain Scenario2.lockedOut Scenario.boot
              180000 [180000%N; 180000%N] 1700000300000)
    as (Hat & Hcur & _); try reflexivity.
  - simpl. lia.
  - exact Hshort.
  - split; [exact Hat | exact Hcur].
Defined.

(* ===================================================================== *)
(** * Further properties of the accessory *)
(* ===================================================================== *)

Section AccessoryExtras.
Import Types Env RainAccessory.
Local Open Scope Z_scope.

Lemma settle_result (quiet : bool) (now : Z) (weather : WeatherNowcast) (desired : bool)
    (fo : option ForecastResult) (a : RainAccessory) (w : World) :
  let '(a', w') := settle quiet now weather desired fo a w in
  overrideState a' = overrideState a
  /\ overrideUntil a' = overrideUntil a
  /\ overrideMinutes a' = overrideMinutes a
  /\ faulted a' = false
  /\ (if quiet
      then currentState a' = currentState a /\ hysteresis a' = hysteresis a
      else currentState a' = Hysteresis.state (hysteresis a')).
Proof.
  unfold settle. destruct quiet.
  - simpl. auto 10.
  - pose proof (next_returns_state (Platform.getHysteresisConfig (platform a))
                  (hysteresis a) desired now) as Hret.
    destruct (Hysteresis.next _ (hysteresis a) desired now) as [nextState g]. simpl in Hret.
    match goal with |- context [updateState nextState ?l ?x w] =>
      pose proof (updateState_result nextState l x w) as Hup;
      destruct (updateState nextState l x w) as [a2 w1] end.
    destruct Hup as (Hc & Hg & Hs & Hu & (_ & _ & Hm) & _). simpl in *.
    repeat split; congruence.
Qed.

Lemma evaluate_consistent (a : RainAccessory) (weather : WeatherNowcast)
    (c : Provider.ChainState) (w : World) :
  Props.consistent a ->
  Props.consistent (snd (fst (fst (evaluate a weather c w)))).
Proof.
  intros [Hgate Hover]. unfold evaluate. cbv zeta.
  set (a0 := set_metadata _ a).
  assert (Date_now w >= 0) as Hnow by (unfold Date_now, Js.ms_of_clock; lia).
  unfold activeOverride. change (overrideUntil a0) with (overrideUntil a).
  change (overrideState a0) with (overrideState a).
  destruct Hover as [[Hu Hs] | (Hu & Hs & m & Hm & Hpos)].
  - (* no override *)
    rewrite Hu, Hs. simpl.
    assert (Props.consistent a0) as Ha0.
    { split; [exact Hgate | left; split; assumption]. }
    assert (forall quiet desired fo w0,
               Props.consistent (fst (settle quiet (Date_now w) weather desired fo a0 w0))) as Hsettle.
    { intros quiet desired fo w0.
      pose proof (settle_result quiet (Date_now w) weather desired fo a0 w0) as Hr.
      destruct (settle quiet (Date_now w) weather desired fo a0 w0) as [a' w'].
      destruct Hr as (Hs' & Hu' & _ & _ & Hq). simpl.
      split.
      - destruct quiet; [destruct Hq as [-> ->]; exact Hgate | exact Hq].
      - left. split; [rewrite Hu'; exact Hu | rewrite Hs'; exact Hs]. }
    match goal with |- context [match acc_type ?x with _ => _ end] => destruct (acc_type x) end.
    + match goal with |- context [settle ?q ?n ?we ?d ?f a0 ?w0] =>
        specialize (Hsettle q d f w0); destruct (settle q n we d f a0 w0) end.
      exact Hsettle.
    + match goal with |- context [evaluateForecast a0 rain c ?w0] =>
        destruct (evaluateForecast a0 rain c w0) as [[[err|fo] c1] w1] end; [exact Ha0|].
      match goal with |- context [settle ?q ?n ?we ?d ?f a0 ?w0] =>
        specialize (Hsettle q d f w0); destruct (settle q n we d f a0 w0) end.
      exact Hsettle.
    + match goal with |- context [evaluateForecast a0 snow c ?w0] =>
        destruct (evaluateForecast a0 snow c w0) as [[[err|fo] c1] w1] end; [exact Ha0|].
      match goal with |- context [settle ?q ?n ?we ?d ?f a0 ?w0] =>
        specialize (Hsettle q d f w0); destruct (settle q n we d f a0 w0) end.
      exact Hsettle.
  - (* an override is set *)
    assert ((overrideUntil a =? 0) = false) as Hne by (apply Z.eqb_neq; lia).
    rewrite Hne, Hs. simpl.
    destruct (Date_now w <? overrideUntil a) eqn:Hlt.
    + (* still pinned *)
      match goal with |- context [updateState ?s ?l ?x ?y] =>
        pose proof (updateState_result s l x y) as Hup;
        destruct (updateState s l x y) as [a1 w1] end.
      destruct Hup as (Hc1 & Hg1 & Hs1 & Hu1 & (_ & _ & Hm1) & _). simpl in *.
      split; simpl.
      * rewrite Hc1, Hg1. exact Hgate.
      * right. rewrite Hu1, Hs1, Hc1, Hm1. split; [exact Hu|]. split; [exact Hs|].
        exists m. auto.
    + (* expired *)
      apply Z.ltb_ge in Hlt. apply Z.leb_le in Hlt. rewrite Hlt.
      set (a1 := expireOverride a0).
      assert (Props.consistent a1) as Ha1.
      { split; [reflexivity | left; split; reflexivity]. }
      assert (forall quiet desired fo w0,
                 Props.consistent (fst (settle quiet (Date_now w) weather desired fo a1 w0)))
        as Hsettle.
      { intros quiet desired fo w0.
        pose proof (settle_result quiet (Date_now w) weather desired fo a1 w0) as Hr.
        destruct (settle quiet (Date_now w) weather desired fo a1 w0) as [a' w'].
        destruct Hr as (Hs' & Hu' & _ & _ & Hq). simpl.
        split.
        - destruct quiet; [destruct Hq as [-> ->]; reflexivity | exact Hq].
        - left. split; [rewrite Hu' | rewrite Hs']; reflexivity. }
      match goal with |- context [match acc_type ?x with _ => _ end] => destruct (acc_type x) end.
      * match goal with |- context [settle ?q ?n ?we ?d ?f a1 ?w0] =>
          specialize (Hsettle q d f w0); destruct (settle q n we d f a1 w0) end.
        exact Hsettle.
      * match goal with |- context [evaluateForecast a1 rain c ?w0] =>
          destruct (evaluateForecast a1 rain c w0) as [[[err|fo] c1] w1] end; [exact Ha1|].
        match goal with |- context [settle ?q ?n ?we ?d ?f a1 ?w0] =>
          specialize (Hsettle q d f w0); destruct (settle q n we d f a1 w0) end.
        exact Hsettle.
      * match goal with |- context [evaluateForecast a1 snow c ?w0] =>
          destruct (evaluateForecast a1 snow c w0) as [[[err|fo] c1] w1] end; [exact Ha1|].
        match goal with |- context [settle ?q ?n ?we ?d ?f a1 ?w0] =>
          specialize (Hsettle q d f w0); destruct (settle q n we d f a1 w0) end.
        exact Hsettle.
Qed.

Lemma handleSetOn_consistent (value : JsValue) (a : RainAccessory) (w : World) :
  Props.consistent a -> Props.consistent (fst (handleSetOn value a w)).
Proof.
  intros [Hgate Hover]. unfold handleSetOn. cbv zeta. simpl.
  assert (Date_now w >= 0) as Hnow by (unfold Date_now, Js.ms_of_clock; lia).
  destruct (overrideMinutes a) as [m|] eqn:Hm.
  - destruct (0 <? m) eqn:Hpos; simpl.
    + apply Z.ltb_lt in Hpos. split; [reflexivity|]. right. simpl.
      change (Date_now (emit _ w)) with (Date_now w).
      split; [lia|]. split; [reflexivity|]. exists m. auto.
    + apply Z.ltb_ge in Hpos. split; [reflexivity|]. left. simpl.
      destruct Hover as [[Hu Hs] | (_ & _ & m' & Hm' & Hpos')]; [auto|].
      assert (m' = m) by congruence. lia.
  - simpl. split; [reflexivity|]. left. simpl.
    destruct Hover as [[Hu Hs] | (_ & _ & m' & Hm' & _)]; [auto | congruence].
Qed.

Lemma markFault_consistent (a : RainAccessory) (w : World) :
  Props.consistent a -> Props.consistent (fst (markFault a w)).
Proof.
  intros H. unfold markFault. destruct (faulted a); simpl; exact H.
Qed.

(** With no toggle handled during the wait, the two halves make up
    [evaluate]. *)
Lemma evaluate_halves (a : RainAccessory) (weather : WeatherNowcast)
    (c : Provider.ChainState) (w : World) :
  evaluate_interrupted a weather [] c w = evaluate a weather c w.
Proof.
  unfold evaluate_interrupted, evaluate_begin, evaluate. cbv zeta.
  set (a0 := set_metadata _ a).
  destruct (activeOverride a0 (Date_now w)) as [pinned|].
  - destruct (updateState pinned false a0 _) as [a1 w2].
    destruct (clearFault a1 _) as [a2 w3]. reflexivity.
  - match goal with |- context [if ?b then (?x, ?y) else (a0, w)] =>
      destruct (if b then (x, y) else (a0, w)) as [a1 w1] end.
    destruct (acc_type (config a1)).
    + destruct (settle _ _ _ _ _ a1 w1) as [a2 w2]. reflexivity.
    + unfold evaluateForecast, evaluate_resume. cbv zeta.
      destruct (Platform.getForecast _ _ c w1) as [[[err|slices] c1] w2];
        cbn [toggledDuring]; [reflexivity|].
      cbn [aw_quiet aw_now aw_weather aw_target aw_nowActive shouldActivate orb].
      destruct (settle _ _ _ _ _ a1 w2) as [a2 w3]. reflexivity.
    + unfold evaluateForecast, evaluate_resume. cbv zeta.
      destruct (Platform.getForecast _ _ c w1) as [[[err|slices] c1] w2];
        cbn [toggledDuring]; [reflexivity|].
      cbn [aw_quiet aw_now aw_weather aw_target aw_nowActive shouldActivate].
      destruct (settle _ _ _ _ _ a1 w2) as [a2 w3]. reflexivity.
Qed.

Lemma settle_linked (quiet : bool) (now : Z) (weather : WeatherNowcast) (desired : bool)
    (fo : option ForecastResult) (a : RainAccessory) (w : World) :
  Props.linked a -> Props.linked (fst (settle quiet now weather desired fo a w)).
Proof.
  intros [Hlink Hshape].
  pose proof (settle_result quiet now weather desired fo a w) as Hr.
  destruct (settle quiet now weather desired fo a w) as [a' w'].
  destruct Hr as (Hs & Hu & Hm & _ & Hq). simpl. split.
  - destruct quiet.
    + destruct Hq as [Hc Hg]. rewrite Hc, Hg, Hs. exact Hlink.
    + left. exact Hq.
  - rewrite Hu, Hs, Hm. exact Hshape.
Qed.

Lemma evaluate_begin_linked (a : RainAccessory) (weather : WeatherNowcast) (w : World) :
  Props.linked a -> Props.linked (fst (fst (evaluate_begin a weather w))).
Proof.
  intros [Hlink Hshape]. unfold evaluate_begin. cbv zeta.
  set (a0 := set_metadata _ a).
  assert (Props.linked a0) as Ha0 by (split; [exact Hlink | exact Hshape]).
  unfold activeOverride. change (overrideUntil a0) with (overrideUntil a).
  change (overrideState a0) with (overrideState a).
  destruct Hshape as [[Hu Hs] | (Hu & Hs & m & Hm & Hpos)].
  - rewrite Hu, Hs. simpl.
    match goal with |- context [match acc_type ?x with _ => _ end] => destruct (acc_type x) end;
      try exact Ha0.
    match goal with |- context [settle ?q ?n ?we ?d ?f a0 ?w0] =>
      pose proof (settle_linked q n we d f a0 w0 Ha0) as Hsettle;
      destruct (settle q n we d f a0 w0) end.
    exact Hsettle.
  - assert ((overrideUntil a =? 0) = false) as Hne by (apply Z.eqb_neq; lia).
    rewrite Hne. simpl.
    destruct (Date_now w <? overrideUntil a) eqn:Hlt.
    + destruct (overrideState a) as [v|] eqn:Hv; [|congruence].
      match goal with |- context [updateState ?s ?l ?x ?y] =>
        pose proof (updateState_result s l x y) as Hup;
        destruct (updateState s l x y) as [a1 w1] end.
      destruct Hup as (Hc1 & Hg1 & Hs1 & Hu1 & (_ & _ & Hm1) & _). simpl in *.
      split; simpl.
      * right. rewrite Hs1, Hc1. exact Hv.
      * right. rewrite Hu1, Hs1, Hm1. split; [exact Hu|]. split; [congruence|].
        exists m. auto.
    + apply Z.ltb_ge in Hlt. apply Z.leb_le in Hlt. rewrite Hlt.
      set (a1 := expireOverride a0).
      assert (Props.linked a1) as Ha1
        by (split; [left; reflexivity | left; split; reflexivity]).
      match goal with |- context [match acc_type ?x with _ => _ end] => destruct (acc_type x) end;
        try exact Ha1.
      match goal with |- context [settle ?q ?n ?we ?d ?f a1 ?w0] =>
        pose proof (settle_linked q n we d f a1 w0 Ha1) as Hsettle;
        destruct (settle q n we d f a1 w0) end.
      exact Hsettle.
Qed.

Lemma evaluate_resume_linked (k : Awaiting) (fetched : Error + list WeatherForecastSlice)
    (a : RainAccessory) (w : World) :
  Props.linked a -> Props.linked (snd (fst (evaluate_resume k fetched a w))).
Proof.
  intros Ha. unfold evaluate_resume. destruct fetched as [err|slices]; [exact Ha|].
  cbv zeta.
  match goal with |- context [settle ?q ?n ?we ?d ?f a w] =>
    pose proof (settle_linked q n we d f a w Ha) as Hs;
    destruct (settle q n we d f a w) end.
  exact Hs.
Qed.

Lemma handleSetOn_linked (value : JsValue) (a : RainAccessory) (w : World) :
  Props.linked a -> Props.linked (fst (handleSetOn value a w)).
Proof.
  intros [_ Hshape]. unfold handleSetOn. cbv zeta. simpl.
  assert (Date_now w >= 0) as Hnow by (unfold Date_now, Js.ms_of_clock; lia).
  destruct (overrideMinutes a) as [m|] eqn:Hm.
  - destruct (0 <? m) eqn:Hpos; simpl.
    + apply Z.ltb_lt in Hpos. split; [left; reflexivity|]. right. simpl.
      change (Date_now (emit _ w)) with (Date_now w).
      split; [lia|]. split; [discriminate|]. exists m. auto.
    + apply Z.ltb_ge in Hpos. split; [left; reflexivity|]. left. simpl.
      destruct Hshape as [[Hu Hs] | (_ & _ & m' & Hm' & Hpos')]; [auto|].
      assert (m' = m) by congruence. lia.
  - simpl. split; [left; reflexivity|]. left. simpl.
    destruct Hshape as [[Hu Hs] | (_ & _ & m' & Hm' & _)]; [auto | congruence].
Qed.

Lemma toggledDuring_linked (toggles : list (N * JsValue)) (began : World) :
  forall (a : RainAccessory) (w : World),
  Props.linked a -> Props.linked (fst (toggledDuring toggles began a w)).
Proof.
  induction toggles as [|[offset value] rest IH]; intros a w Ha; [exact Ha|].
  cbn [toggledDuring]. apply IH. apply handleSetOn_linked. exact Ha.
Qed.

Lemma evaluate_interrupted_linked (a : RainAccessory) (weather : WeatherNowcast)
    (toggles : list (N * JsValue)) (c : Provider.ChainState) (w : World) :
  Props.linked a ->
  Props.linked (snd (fst (fst (evaluate_interrupted a weather toggles c w)))).
Proof.
  intros Ha. unfold evaluate_interrupted.
  pose proof (evaluate_begin_linked a weather w Ha) as Hb.
  destruct (evaluate_begin a weather w) as [[a1 w1] [k|]]; [|exact Hb].
  simpl in Hb. cbv zeta.
  destruct (Platform.getForecast _ _ c w1) as [[fetched c1] w2].
  pose proof (toggledDuring_linked toggles w1 a1 w2 Hb) as Ht.
  destruct (toggledDuring toggles w1 a1 w2) as [a2 w3]. simpl in Ht.
  pose proof (evaluate_resume_linked k fetched a2 w3 Ht) as Hr.
  destruct (evaluate_resume k fetched a2 w3) as [[r a3] w4]. exact Hr.
Qed.

Lemma consistent_linked (a : RainAccessory) : Props.consistent a -> Props.linked a.
Proof.
  intros [Hgate Hover]. split; [left; exact Hgate|].
  destruct Hover as [Hclear | (Hu & Hs & Hm)]; [left; exact Hclear|].
  right. split; [exact Hu|]. split; [congruence | exact Hm].
Qed.

End AccessoryExtras.

(** X12: Whatever happens to an accessory after its construction - polling
    evaluations that succeed or fail, manual toggles between evaluations
    or while an evaluation awaits its forecast, fault marks, in any order
    and at any times - its output is the state of its gate or the value of
    its override, and its override is either clear (no value, expiry 0) or
    set with a positive expiry. When no toggle is handled while an
    evaluation waits, the output equals the state of the gate, and a set
    override holds the current output. *)
Theorem accessory_output_matches_gate
    (p : Platform.RainSwitchPlatform) (cfg : Types.RainAccessoryConfig)
    (c : Provider.ChainState) (w : Env.World) (ops : list Props.Op) :
  let final := fst (fst (Props.runOps ops
                           (fst (RainAccessory.newRainAccessory p cfg w), c,
                            snd (RainAccessory.newRainAccessory p cfg w)))) in
  Props.linked final
  /\ (Props.uninterrupted ops -> Props.consistent final).
Proof.
  assert (forall ops s, Props.linked (fst (fst s)) ->
                        Props.linked (fst (fst (Props.runOps ops s)))) as Hlinked.
  { clear. induction ops as [|op rest IH]; intros [[a c] w] Ha; [exact Ha|].
    unfold Props.runOps in *. cbn [fold_left]. apply IH.
    destruct op as [weather meanwhile | value | | c' w']; simpl.
    - pose proof (evaluate_interrupted_linked a weather meanwhile c w Ha) as H.
      destruct (RainAccessory.evaluate_interrupted a weather meanwhile c w)
        as [[[r a1] c1] w1]. exact H.
    - pose proof (handleSetOn_linked value a w Ha) as H.
      destruct (RainAccessory.handleSetOn value a w) as [a1 w1]. exact H.
    - unfold RainAccessory.markFault. destruct (RainAccessory.faulted a); simpl; exact Ha.
    - exact Ha. }
  assert (forall ops s, Props.uninterrupted ops -> Props.consistent (fst (fst s)) ->
                        Props.consistent (fst (fst (Props.runOps ops s)))) as Hrun.
  { clear. induction ops as [|op rest IH]; intros [[a c] w] Hun Ha; [exact Ha|].
    unfold Props.runOps in *. cbn [fold_left].
    apply Forall_cons in Hun. destruct Hun as [Hop Hrest].
    apply IH; [exact Hrest|].
    destruct op as [weather meanwhile | value | | c' w']; simpl.
    - simpl in Hop. subst meanwhile. rewrite evaluate_halves.
      pose proof (evaluate_consistent a weather c w Ha) as H.
      destruct (RainAccessory.evaluate a weather c w) as [[[r a1] c1] w1]. exact H.
    - pose proof (handleSetOn_consistent value a w Ha) as H.
      destruct (RainAccessory.handleSetOn value a w) as [a1 w1]. exact H.
    - pose proof (markFault_consistent a w Ha) as H.
      destruct (RainAccessory.markFault a w) as [a1 w1]. exact H.
    - exact Ha. }
  intros final. subst final. split.
  - apply Hlinked. simpl. split; [left; reflexivity | left; split; reflexivity].
  - intros Hun. apply Hrun; [exact Hun|].
    simpl. split; [reflexivity | left; split; reflexivity].
Qed.

(** X13: During quiet hours an evaluation that finds no active override leaves
    the output as it is, whatever the weather and the forecast, for every
    accessory type; with no override pending at all the gate is left as it
    is too, and a successful evaluation still clears the fault flag. *)
Theorem quiet_hours_freeze_output
    (a : RainAccessory.RainAccessory) (weather : Types.WeatherNowcast)
    (c : Provider.ChainState) (w : Env.World) :
  Platform.isWithinQuietHours (RainAccessory.platform a) (Env.Date_now w) = true ->
  RainAccessory.activeOverride a (Env.Date_now w) = None ->
  let r := fst (fst (fst (RainAccessory.evaluate a weather c w))) in
  let a' := snd (fst (fst (RainAccessory.evaluate a weather c w))) in
  RainAccessory.currentState a' = RainAccessory.currentState a
  /\ (RainAccessory.overrideUntil a = 0%Z ->
      RainAccessory.hysteresis a' = RainAccessory.hysteresis a)
  /\ (r = inr tt -> RainAccessory.faulted a' = false).
Proof.
  intros Hquiet Hnone r a'. subst r a'. unfold RainAccessory.evaluate. cbv zeta.
  set (a0 := RainAccessory.set_metadata _ a).
  change (RainAccessory.activeOverride a0 (Env.Date_now w))
    with (RainAccessory.activeOverride a (Env.Date_now w)).
  rewrite Hnone.
  change (RainAccessory.platform a0) with (RainAccessory.platform a). rewrite Hquiet.
  match goal with
  | |- context [if ?b then (?x, ?y) else (a0, w)] =>
      set (a1w := if b then (x, y) else (a0, w))
  end.
  assert (RainAccessory.currentState (fst a1w) = RainAccessory.currentState a
          /\ (RainAccessory.overrideUntil a = 0%Z ->
              RainAccessory.hysteresis (fst a1w) = RainAccessory.hysteresis a)) as [Hc1 Hg1].
  { subst a1w. change (RainAccessory.overrideUntil a0) with (RainAccessory.overrideUntil a).
    destruct (negb (RainAccessory.overrideUntil a =? 0)%Z
              && (RainAccessory.overrideUntil a <=? Env.Date_now w)%Z) eqn:Hexp; simpl.
    - split; [reflexivity|]. intros Hu. rewrite Hu in Hexp. discriminate.
    - auto. }
  destruct a1w as [a1 w1]. simpl in Hc1, Hg1.
  destruct (Types.acc_type (RainAccessory.config a1)).
  - unfold RainAccessory.settle. simpl. auto.
  - destruct (RainAccessory.evaluateForecast a1 Types.rain c w1) as [[[err|fo] c1] w2];
      unfold RainAccessory.settle; simpl.
    + split; [exact Hc1|]. split; [exact Hg1 | discriminate].
    + auto.
  - destruct (RainAccessory.evaluateForecast a1 Types.snow c w1) as [[[err|fo] c1] w2];
      unfold RainAccessory.settle; simpl.
    + split; [exact Hc1|]. split; [exact Hg1 | discriminate].
    + auto.
Qed.

(** At 23:30, inside quiet hours 22:00-06:00, rain above the threshold
    does not switch a fresh rain-now accessory on. *)
Lemma quiet_hours_freeze_output_witness :
  RainAccessory.currentState
    (snd (fst (fst (RainAccessory.evaluate
                      (fst (RainAccessory.newRainAccessory Scenario.house Scenario.rainNow
                              Scenario2.night))
                      Scenario.drizzle Provider.initialState Scenario2.night))))
  = false.
Proof.
  destruct (quiet_hours_freeze_output
              (fst (RainAccessory.newRainAccessory Scenario.house Scenario.rainNow Scenario2.night))
              Scenario.drizzle Provider.initialState Scenario2.night) as (H & _).
  - reflexivity.
  - reflexivity.
  - exact H.
Defined.

(** X14: A rain-soon or snow-mode evaluation whose forecast fetch fails is
    rejected with that error and leaves output, gate and fault flag as they
    were (the fault flag is not cleared), even when it is snowing now. *)
Theorem failed_forecast_keeps_output
    (a : RainAccessory.RainAccessory) (weather : Types.WeatherNowcast)
    (c c1 : Provider.ChainState) (w w1 : Env.World) (err : Env.Error) :
  Types.acc_type (RainAccessory.config a) <> Types.rain_now ->
  RainAccessory.overrideUntil a = 0%Z ->
  Platform.getForecast (RainAccessory.platform a)
    (Js.nullish (Types.lookaheadMinutes (RainAccessory.config a))
       RainAccessory.DEFAULT_LOOKAHEAD_MINUTES) c w
  = (inl err, c1, w1) ->
  exists a',
    RainAccessory.evaluate a weather c w = (inl err, a', c1, w1)
    /\ RainAccessory.currentState a' = RainAccessory.currentState a
    /\ RainAccessory.hysteresis a' = RainAccessory.hysteresis a
    /\ RainAccessory.faulted a' = RainAccessory.faulted a.
Proof.
  intros Hty Hu Hfetch. unfold RainAccessory.evaluate. cbv zeta.
  unfold RainAccessory.activeOverride. simpl. rewrite Hu. simpl.
  unfold RainAccessory.evaluateForecast. simpl. rewrite Hfetch.
  destruct (Types.acc_type (RainAccessory.config a)); [congruence| |];
    eexists; (split; [reflexivity|]); simpl; auto.
Qed.

(** A rain-soon accessory on a platform whose chain was never built. *)
Lemma failed_forecast_keeps_output_witness :
  fst (fst (fst (RainAccessory.evaluate
                   (fst (RainAccessory.newRainAccessory Scenario.cabin Scenario2.rainSoon
                           Scenario.boot))
                   Scenario.drizzle Provider.initialState Scenario.boot)))
  = inl Env.ChainNotReady.
Proof.
  destruct (failed_forecast_keeps_output
              (fst (RainAccessory.newRainAccessory Scenario.cabin Scenario2.rainSoon Scenario.boot))
              Scenario.drizzle Provider.initialState Provider.initialState
              Scenario.boot Scenario.boot Env.ChainNotReady) as (a' & Hev & _).
  - discriminate.
  - reflexivity.
  - reflexivity.
  - rewrite Hev. reflexivity.
Defined.

(** X15: The forecast scan activates exactly when some slice qualifies, and the
    slice it reports is the first qualifying one in the order of the list:
    everything before it fails a test. *)
Theorem forecast_scan_reports_first_match
    (target : Types.PrecipType) (lookahead : Z) (popThreshold intensityThreshold : float)
    (slices : list Types.WeatherForecastSlice) :
  let qualifies := RainAccessory.sliceTriggers target lookahead popThreshold intensityThreshold in
  let result := RainAccessory.scanSlices target lookahead popThreshold intensityThreshold slices in
  RainAccessory.shouldActivate result = existsb qualifies slices
  /\ RainAccessory.triggeredSlice result = List.find qualifies slices
  /\ (forall slice, RainAccessory.triggeredSlice result = Some slice ->
        exists before after,
          slices = before ++ slice :: after
          /\ qualifies slice = true
          /\ Forall (fun s => qualifies s = false) before)
  /\ (RainAccessory.triggeredSlice result = None ->
      Forall (fun s => qualifies s = false) slices).
Proof.
  intros qualifies result. subst result.
  induction slices as [|s rest IH]; simpl.
  - repeat split; try discriminate. constructor.
  - fold qualifies. destruct (qualifies s) eqn:Hq; simpl.
    + repeat split; try discriminate.
      intros slice [= <-]. exists [], rest. repeat split; auto.
    + destruct IH as (Hact & Hfind & Hfirst & Hnone).
      split; [exact Hact|]. split; [exact Hfind|]. split.
      * intros slice Hslice. destruct (Hfirst slice Hslice) as (before & after & -> & Hs & Hb).
        exists (s :: before), after. repeat split; auto.
      * intros Hn. constructor; auto.
Qed.

(** X16: A slice cannot trigger when it lies before now or beyond the lookahead,
    when its type is not the target's (so sleet never counts for rain-soon,
    unlike for rain-now), when its probability is missing and the
    threshold is positive, or when its rate is below the intensity
    threshold. *)
Theorem slices_that_cannot_trigger
    (target : Types.PrecipType) (lookahead : Z) (popThreshold intensityThreshold : float)
    (slice : Types.WeatherForecastSlice) :
  ((Types.minutesFromNow slice < 0)%Z \/ (lookahead < Types.minutesFromNow slice)%Z
   \/ Types.slice_type slice <> target
   \/ (Types.slice_pop slice = None /\ PrimFloat.ltb 0 popThreshold = true)
   \/ PrimFloat.ltb (Types.slice_precipMmHr slice) intensityThreshold = true) ->
  RainAccessory.sliceTriggers target lookahead popThreshold intensityThreshold slice = false.
Proof.
  unfold RainAccessory.sliceTriggers.
  intros [H | [H | [H | [[H1 H2] | H]]]].
  - apply Z.ltb_lt in H. rewrite H. reflexivity.
  - apply Z.ltb_lt in H. rewrite H. rewrite orb_true_r. reflexivity.
  - destruct (_ || _); [reflexivity|].
    destruct (Types.slice_type slice), target; simpl; try reflexivity; congruence.
  - destruct (_ || _); [reflexivity|]. destruct (negb _); [reflexivity|].
    rewrite H1. simpl. rewrite H2. reflexivity.
  - destruct (_ || _); [reflexivity|]. destruct (negb _); [reflexivity|].
    destruct (PrimFloat.ltb _ popThreshold); [reflexivity|]. rewrite H. reflexivity.
Qed.

(** With thresholds pop >= 40 and rate >= 0.2 over 60 minutes: a slice at
    +90 minutes, a sleet slice and a slice without probability do not
    trigger; the scan reports the shower at +45 minutes. *)
Lemma slices_that_cannot_trigger_witness :
  RainAccessory.sliceTriggers Types.rain 60 40 0.2 Scenario2.in_90 = false
  /\ RainAccessory.sliceTriggers Types.rain 60 40 0.2 Scenario2.sleet_in_10 = false
  /\ RainAccessory.sliceTriggers Types.rain 60 40 0.2 Scenario2.minutely_in_5 = false.
Proof.
  split; [|split]; apply slices_that_cannot_trigger.
  - right. left. reflexivity.
  - right. right. left. discriminate.
  - right. right. right. left. split; reflexivity.
Defined.

(* ===================================================================== *)
(** * Further properties of the platform's configuration *)
(* ===================================================================== *)

(** X17: A quiet window whose start equals its end is never quiet; and a window
    that wraps midnight is quiet exactly when the window from its end to
    its start is not. *)
Theorem quiet_window_and_its_complement
    (p q : Platform.RainSwitchPlatform) (start end_ : Z) (now : Z) :
  Platform.localOffsetMs p = Platform.localOffsetMs q ->
  Platform.quietSchedule p = Some (start, end_) ->
  Platform.quietSchedule q = Some (end_, start) ->
  (start = end_ -> Platform.isWithinQuietHours p now = false)
  /\ (start <> end_ ->
      Platform.isWithinQuietHours p now = negb (Platform.isWithinQuietHours q now)).
Proof.
  intros Htz Hp Hq. unfold Platform.isWithinQuietHours. rewrite Hp, Hq.
  assert (Platform.minuteOfDay p now = Platform.minuteOfDay q now) as Hm.
  { unfold Platform.minuteOfDay, Platform.getHours, Platform.getMinutes. rewrite Htz. reflexivity. }
  rewrite Hm. set (m := Platform.minuteOfDay q now). split.
  - intros ->. rewrite Z.leb_refl.
    destruct (end_ <=? m)%Z eqn:H1, (m <? end_)%Z eqn:H2; try reflexivity.
    apply Z.leb_le in H1. apply Z.ltb_lt in H2. lia.
  - intros Hne.
    destruct (start <=? end_)%Z eqn:Hse, (end_ <=? start)%Z eqn:Hes,
      (start <=? m)%Z eqn:H1, (m <? end_)%Z eqn:H2, (end_ <=? m)%Z eqn:H3, (m <? start)%Z eqn:H4;
      try reflexivity;
      repeat match goal with
             | H : (_ <=? _)%Z = true |- _ => apply Z.leb_le in H
             | H : (_ <=? _)%Z = false |- _ => apply Z.leb_gt in H
             | H : (_ <? _)%Z = true |- _ => apply Z.ltb_lt in H
             | H : (_ <? _)%Z = false |- _ => apply Z.ltb_ge in H
             end; lia.
Qed.

(** Quiet hours 22:00-06:00 against 06:00-22:00 at local 12:00. *)
Lemma quiet_window_and_its_complement_witness :
  Platform.isWithinQuietHours Scenario.house Scenario.at_1200 = false.
Proof.
  pose (day := {| Platform.providerChain := None; Platform.intervalMs := 180000;
                  Platform.minOnMs := 300000; Platform.minOffMs := 300000;
                  Platform.timeoutMs := 5000; Platform.cacheTtlSeconds := 60;
                  Platform.retryBackoffSeconds := [30; 60; 120; 300]%Z;
                  Platform.overrideMinutes := None;
                  Platform.quietSchedule := Some (360, 1320)%Z;
                  Platform.debugEnabled := false;
                  Platform.localOffsetMs := Scenario.eastern |}).
  destruct (quiet_window_and_its_complement Scenario.house day 1320 360 Scenario.at_1200
              eq_refl eq_refl eq_refl) as [_ H].
  rewrite H; [reflexivity | discriminate].
Defined.

Lemma parseTimeString_range (value : string) (minutes : Z) :
  Platform.parseTimeString value = Some minutes -> (0 <= minutes < 1440)%Z.
Proof.
  unfold Platform.parseTimeString.
  destruct (Platform.matchTime (Platform.trim value)) as [[hours mins]|]; [|discriminate].
  destruct ((hours <? 0)%Z || (24 <=? hours)%Z || (mins <? 0)%Z || (60 <=? mins)%Z) eqn:Hbad;
    [discriminate|].
  intros [= <-].
  repeat (apply orb_false_elim in Hbad; destruct Hbad as [Hbad ?]).
  repeat match goal with
         | H : (_ <=? _)%Z = false |- _ => apply Z.leb_gt in H
         | H : (_ <? _)%Z = false |- _ => apply Z.ltb_ge in H
         end. lia.
Qed.

(** X18: Every time of the 24-hour clock written HH:MM parses to its minute of
    the day, and whatever string parses does so to a value from 0 to 1439. *)
Theorem time_strings_parse_to_minutes :
  (forall h m : nat, (h < 24)%nat -> (m < 60)%nat ->
      Platform.parseTimeString (Props.formatTime h m) = Some (Z.of_nat (h * 60 + m)))
  /\ (forall (value : string) (minutes : Z),
         Platform.parseTimeString value = Some minutes -> (0 <= minutes < 1440)%Z).
Proof.
  split.
  - intros h m Hh Hm.
    assert (Props.allTimesParse = true) as Hall by (vm_compute; reflexivity).
    unfold Props.allTimesParse in Hall.
    rewrite forallb_forall in Hall.
    assert (In h (seq 0 24)) as Hinh by (apply in_seq; lia).
    specialize (Hall h Hinh). rewrite forallb_forall in Hall.
    assert (In m (seq 0 60)) as Hinm by (apply in_seq; lia).
    specialize (Hall m Hinm).
    destruct (Platform.parseTimeString (Props.formatTime h m)) as [v|]; [|discriminate].
    apply Z.eqb_eq in Hall. congruence.
  - apply parseTimeString_range.
Qed.

(** X19: Whatever the configuration, the platform polls at an interval between
    60 and 900 seconds and hands the chain a backoff schedule that is not
    empty (an empty or missing list is replaced by 30, 60, 120, 300); and
    quiet hours are in force only when both strings parse. *)
Theorem platform_defaults_are_safe
    (config : Types.RainSwitchPlatformConfig) (tz : Z -> Z) :
  let p := Platform.newPlatform config tz in
  (60000 <= Platform.intervalMs p <= 900000)%Z
  /\ Platform.retryBackoffSeconds p <> []
  /\ (forall start end_, Platform.quietSchedule p = Some (start, end_) ->
        (0 <= start < 1440)%Z /\ (0 <= end_ < 1440)%Z).
Proof.
  intros p. subst p. unfold Platform.newPlatform. cbv zeta. simpl. split; [|split].
  - unfold Platform.clamp, Platform.MIN_INTERVAL_SECONDS, Platform.MAX_INTERVAL_SECONDS. lia.
  - destruct (Provider.option_bind (Types.advanced config) Types.adv_retryBackoffSeconds)
      as [[|x l]|]; discriminate.
  - intros start end_. unfold Platform.parseQuietHours.
    destruct (Provider.option_bind (Types.advanced config) Types.quietHours) as [q|];
      [|discriminate].
    destruct (_ || _); [discriminate|].
    destruct (Platform.parseTimeString (Js.nullish (Types.quiet_start q) "")) as [s|] eqn:Hs;
      [|discriminate].
    destruct (Platform.parseTimeString (Js.nullish (Types.quiet_end q) "")) as [e|] eqn:He;
      [|discriminate].
    intros [= <- <-].
    split; eapply parseTimeString_range; eassumption.
Qed.

(* ===================================================================== *)
(** * Further properties of the location resolver *)
(* ===================================================================== *)

Section GeoExtras.
Import Types Geo.
Local Open Scope Z_scope.

Variable sv : Services.

Lemma log_quiet (e : GeoLog) (w : World) :
  requests (log e w) = requests w /\ files (log e w) = files w
  /\ clock (log e w) = clock w /\ writable (log e w) = writable w.
Proof. unfold log. simpl. auto. Qed.

Lemma get_entry (key : string) (cache : LocationCache) (found : option LocationCacheEntry) :
  get key cache = inr found -> cache !! key = found.
Proof. destruct cache; simpl; congruence. Qed.

Lemma get_null (key : string) (cache : LocationCache) (err : Thrown) :
  get key cache = inl err -> cache = Null.
Proof. destruct cache; simpl; congruence. Qed.

Lemma fallbackExplicit_result (cache : LocationCache) (w : World) :
  requests (snd (fallbackExplicit cache w)) = requests w
  /\ (fst (fallbackExplicit cache w) = inr None -> cache !! "explicit" = None)
  /\ (forall e, cache !! "explicit" = Some e ->
        fst (fallbackExplicit cache w) = inr (Some (resolved e)))
  /\ (forall err, fst (fallbackExplicit cache w) = inl err -> cache = Null).
Proof.
  unfold fallbackExplicit.
  destruct (get "explicit" cache) as [err|[e|]] eqn:Hget; simpl.
  - split; [reflexivity|]. split; [discriminate|]. split.
    + intros e He. apply get_null in Hget. subst cache. discriminate He.
    + intros err' _. apply get_null in Hget. exact Hget.
  - apply get_entry in Hget. split; [reflexivity|]. split; [discriminate|]. split.
    + intros e' He'. congruence.
    + discriminate.
  - apply get_entry in Hget. split; [reflexivity|]. split; [intros _; exact Hget|]. split.
    + intros e He. congruence.
    + discriminate.
Qed.

(** The requests of the automatic step: none, or one IP lookup. *)
Lemma resolveAuto_requests (cfg : option LocationConfig) (storagePath : option string)
    (cache : LocationCache) (w : World) :
  (requests (snd (resolveAuto sv cfg storagePath cache w)) = requests w
   \/ requests (snd (resolveAuto sv cfg storagePath cache w)) = requests w ++ [IpLookup])
  /\ (fst (resolveAuto sv cfg storagePath cache w) = inr None -> cache !! "explicit" = None)
  /\ (forall err, fst (resolveAuto sv cfg storagePath cache w) = inl err -> cache = Null).
Proof.
  unfold resolveAuto. cbv zeta.
  pose proof (fallbackExplicit_result cache) as Hfb.
  assert (forall w0, requests w0 = requests w ++ [IpLookup] ->
            (requests (snd (fallbackExplicit cache w0)) = requests w
             \/ requests (snd (fallbackExplicit cache w0)) = requests w ++ [IpLookup])
            /\ (fst (fallbackExplicit cache w0) = inr None -> cache !! "explicit" = None)
            /\ (forall err, fst (fallbackExplicit cache w0) = inl err -> cache = Null))
    as Hlater.
  { intros w0 Hw0. destruct (Hfb w0) as (Hr & Hn & _ & Hthrown).
    split; [right; rewrite Hr; exact Hw0|]. split; assumption. }
  match goal with |- context [if ?b then _ else _] => destruct b end.
  2: { destruct (Hfb w) as (Hr & Hn & _ & Hthrown).
       split; [left; exact Hr|]. split; assumption. }
  destruct (get "auto" cache) as [err|cached] eqn:Hget.
  { simpl. split; [left; reflexivity|]. split; [discriminate|].
    intros err' _. apply get_null in Hget. exact Hget. }
  destruct (cachedAuto cached w) as [hit|].
  { simpl. split; [left; reflexivity|]. split; discriminate. }
  destruct (iplookup sv w) as [[message|data] d].
  { apply Hlater. reflexivity. }
  set (w1 := request IpLookup d w).
  assert (requests w1 = requests w ++ [IpLookup]) as Hw1 by reflexivity.
  destruct (coalesce (ip_latitude data) (ip_lat data)) as [|la|];
    try (apply Hlater; exact Hw1).
  destruct (coalesce (ip_longitude data) (ip_lon data)) as [|lo|];
    try (apply Hlater; exact Hw1).
  destruct (Js.isFinite la && Js.isFinite lo); [|apply Hlater; exact Hw1].
  destruct (set "auto" _ cache) as [err|cache'].
  { apply Hlater. exact Hw1. }
  simpl. destruct (saveCache_quiet sv storagePath cache' w1) as (Hq & _).
  rewrite Hq. split; [right; exact Hw1|]. split; discriminate.
Qed.

Lemma toLowerCase_idempotent (s : string) :
  Js.toLowerCase (Js.toLowerCase s) = Js.toLowerCase s.
Proof.
  induction s as [|ch rest IH]; simpl; [reflexivity|]. rewrite IH. f_equal.
  unfold Js.lower_ascii.
  destruct (Nat.leb 65 (nat_of_ascii ch) && Nat.leb (nat_of_ascii ch) 90)%bool eqn:Hup;
    [|rewrite Hup; reflexivity].
  apply andb_prop in Hup. destruct Hup as [H1 H2].
  apply Nat.leb_le in H1. apply Nat.leb_le in H2.
  rewrite nat_ascii_embedding by lia.
  destruct (Nat.leb 65 (nat_of_ascii ch + 32)) eqn:H3; [|reflexivity].
  destruct (Nat.leb (nat_of_ascii ch + 32) 90) eqn:H4; [|reflexivity].
  apply Nat.leb_le in H4. lia.
Qed.

End GeoExtras.



Section ResolverFacts.
Import Types Geo.
Local Open Scope Z_scope.

Variable sv : Services.

(** Without usable coordinates the resolver goes on to the address step. *)
Lemma resolveLocation_no_coordinates (cfg : option LocationConfig)
    (storagePath : option string) (w : World) :
  Props.noCoordinates cfg ->
  resolveLocation sv cfg storagePath w
  = resolveAddress sv cfg storagePath (fst (loadCache sv storagePath w))
      (snd (loadCache sv storagePath w)).
Proof.
  intros Hno. unfold resolveLocation.
  destruct (loadCache sv storagePath w) as [cache0 w0]. simpl.
  destruct cfg as [c|]; [|reflexivity].
  simpl in Hno. rewrite Hno. reflexivity.
Qed.

(** Without an address the address step goes on to the automatic step. *)
Lemma resolveAddress_no_address (cfg : option LocationConfig)
    (storagePath : option string) (cache : LocationCache) (w : World) :
  Props.noAddress cfg ->
  resolveAddress sv cfg storagePath cache w = resolveAuto sv cfg storagePath cache w.
Proof.
  intros Hno. unfold resolveAddress. unfold Props.noAddress in Hno.
  destruct (Provider.option_bind cfg address) as [addr|]; [|reflexivity].
  rewrite Hno. reflexivity.
Qed.

(** The requests of the address step and of what follows it. *)
Lemma resolveAddress_requests (cfg : option LocationConfig) (storagePath : option string)
    (cache : LocationCache) (w : World) :
  let addr := default "" (Provider.option_bind cfg address) in
  In (drop (length (requests w)) (requests (snd (resolveAddress sv cfg storagePath cache w))))
     [[]; [Geocode addr]; [IpLookup]; [Geocode addr; IpLookup]]
  /\ take (length (requests w)) (requests (snd (resolveAddress sv cfg storagePath cache w)))
     = requests w
  /\ (fst (resolveAddress sv cfg storagePath cache w) = inr None -> cache !! "explicit" = None)
  /\ (forall err, fst (resolveAddress sv cfg storagePath cache w) = inl err -> cache = Null).
Proof.
  intros addr.
  assert (forall w0 extra,
            requests w0 = requests w ++ extra ->
            (extra = [] \/ extra = [Geocode addr]) ->
            In (drop (length (requests w))
                  (requests (snd (resolveAuto sv cfg storagePath cache w0))))
               [[]; [Geocode addr]; [IpLookup]; [Geocode addr; IpLookup]]
            /\ take (length (requests w))
                 (requests (snd (resolveAuto sv cfg storagePath cache w0))) = requests w
            /\ (fst (resolveAuto sv cfg storagePath cache w0) = inr None ->
                cache !! "explicit" = None)
            /\ (forall err, fst (resolveAuto sv cfg storagePath cache w0) = inl err ->
                cache = Null)) as Hauto.
  { intros w0 extra Hw0 Hextra.
    destruct (resolveAuto_requests sv cfg storagePath cache w0) as (Hreq & Hnone & Hthrown).
    split; [|split; [|split; [exact Hnone | exact Hthrown]]].
    - destruct Hreq as [-> | ->]; rewrite Hw0; rewrite <- ?app_assoc;
        rewrite drop_app_length; destruct Hextra as [-> | ->]; simpl; auto.
    - destruct Hreq as [-> | ->]; rewrite Hw0; rewrite <- ?app_assoc;
        rewrite take_app_length; reflexivity. }
  unfold resolveAddress. subst addr.
  destruct (Provider.option_bind cfg address) as [addr|]; simpl default.
  2: { apply (Hauto w []); [rewrite app_nil_r; reflexivity | left; reflexivity]. }
  destruct (Js.truthy_string addr).
  2: { apply (Hauto w []); [rewrite app_nil_r; reflexivity | left; reflexivity]. }
  destruct (get (String.append "addr:" (Js.toLowerCase addr)) cache) as [err|[cached|]]
    eqn:Hget.
  { simpl. rewrite drop_all, take_ge by lia. split; [left; reflexivity|].
    split; [reflexivity|]. split; [discriminate|].
    intros err' _. apply get_null in Hget. exact Hget. }
  { simpl. rewrite drop_all, take_ge by lia. split; [left; reflexivity|].
    split; [reflexivity|]. split; discriminate. }
  destruct (geocoder sv addr w) as [[message|[|[la lo] rest]] d].
  - apply (Hauto _ [Geocode addr]); [reflexivity | right; reflexivity].
  - apply (Hauto _ [Geocode addr]); [reflexivity | right; reflexivity].
  - destruct (Js.isFinite la && Js.isFinite lo).
    + destruct (set _ _ cache) as [err|cache'].
      * apply (Hauto _ [Geocode addr]); [reflexivity | right; reflexivity].
      * simpl.
        match goal with |- context [saveCache sv storagePath cache' ?w1] =>
          destruct (saveCache_quiet sv storagePath cache' w1) as (Hq & _) end.
        rewrite Hq. simpl. rewrite drop_app_length, take_app_length.
        split; [right; left; reflexivity|]. split; [reflexivity|]. split; discriminate.
    + apply (Hauto _ [Geocode addr]); [reflexivity | right; reflexivity].
Qed.

End ResolverFacts.

(** X22: One resolution appends to the request log nothing, the geocoding of the
    configured address, the IP lookup, or the geocoding followed by the IP
    lookup, and nothing else, whatever the services answer and whatever the
    cache file holds; and it returns null only when the loaded cache holds
    no "explicit" entry. *)
Theorem resolver_requests_and_last_resort
    (sv : Geo.Services) (cfg : option Types.LocationConfig) (storagePath : option string)
    (w : Geo.World) :
  let addr := default "" (Provider.option_bind cfg Types.address) in
  let loaded := Geo.loadCache sv storagePath w in
  let res := Geo.resolveLocation sv cfg storagePath w in
  In (drop (length (Geo.requests w)) (Geo.requests (snd res)))
     [[]; [Geo.Geocode addr]; [Geo.IpLookup]; [Geo.Geocode addr; Geo.IpLookup]]
  /\ take (length (Geo.requests w)) (Geo.requests (snd res)) = Geo.requests w
  /\ (fst res = inr None -> fst loaded !! "explicit" = None).
Proof.
  intros addr loaded res. subst res loaded addr.
  destruct (loadCache_quiet sv storagePath w) as (Hreq & _).
  pose proof (resolveAddress_requests sv cfg storagePath
                (fst (Geo.loadCache sv storagePath w))
                (snd (Geo.loadCache sv storagePath w))) as Haddr.
  cbv zeta in Haddr. rewrite Hreq in Haddr.
  destruct Haddr as (Hin & Htake & Hnone & _).
  assert (In (drop (length (Geo.requests w))
                (Geo.requests
                   (snd (Geo.resolveAddress sv cfg storagePath
                           (fst (Geo.loadCache sv storagePath w))
                           (snd (Geo.loadCache sv storagePath w))))))
             [[]; [Geo.Geocode (default "" (Provider.option_bind cfg Types.address))];
              [Geo.IpLookup];
              [Geo.Geocode (default "" (Provider.option_bind cfg Types.address));
               Geo.IpLookup]]
          /\ take (length (Geo.requests w))
               (Geo.requests
                  (snd (Geo.resolveAddress sv cfg storagePath
                          (fst (Geo.loadCache sv storagePath w))
                          (snd (Geo.loadCache sv storagePath w))))) = Geo.requests w
          /\ (fst (Geo.resolveAddress sv cfg storagePath
                     (fst (Geo.loadCache sv storagePath w))
                     (snd (Geo.loadCache sv storagePath w))) = inr None ->
              fst (Geo.loadCache sv storagePath w) !! "explicit" = None)) as Haddr
    by (split; [exact Hin | split; [exact Htake | exact Hnone]]).
  clear Hin Htake Hnone.
  unfold Geo.resolveLocation.
  destruct (Geo.loadCache sv storagePath w) as [cache0 w0] eqn:Hload.
  simpl in Haddr, Hreq.
  destruct cfg as [c|]; [|exact Haddr].
  destruct (Geo.isFiniteCoordinate (Types.cfg_lat c) && Geo.isFiniteCoordinate (Types.cfg_lon c));
    [|exact Haddr].
  simpl. destruct (Geo.set "explicit" _ cache0) as [err|cache']; simpl.
  - rewrite Hreq. rewrite drop_all, take_ge by lia.
    split; [left; reflexivity|]. split; [reflexivity | discriminate].
  - destruct (saveCache_quiet sv storagePath cache' w0) as (Hq & _).
    rewrite Hq, Hreq. rewrite drop_all, take_ge by lia.
    split; [left; reflexivity|]. split; [reflexivity | discriminate].
Qed.

(** X23: A cached automatic location is used only while strictly younger than
    seven days: a config that asks for the automatic step (no usable
    coordinates, no address, mode auto or no config at all) gets the cached
    entry without any request while now - ts < 604800000; from that age on
    the IP service is asked exactly once, and when that call fails the old
    entry is not used: the result is the cached explicit entry or null. *)
Theorem auto_location_expires_after_seven_days
    (sv : Geo.Services) (cfg : option Types.LocationConfig) (storagePath : option string)
    (w : Geo.World) (e : Geo.LocationCacheEntry) :
  Props.noCoordinates cfg ->
  Props.noAddress cfg ->
  Props.wantsAuto cfg = true ->
  fst (Geo.loadCache sv storagePath w) !! "auto" = Some e ->
  let loaded := Geo.loadCache sv storagePath w in
  let res := Geo.resolveLocation sv cfg storagePath w in
  let age := (Geo.Date_now w - Geo.entry_ts e)%Z in
  ((age < 604800000)%Z ->
   fst res = inr (Some (Geo.resolved e)) /\ Geo.requests (snd res) = Geo.requests w)
  /\ ((604800000 <= age)%Z ->
      Geo.requests (snd res) = Geo.requests w ++ [Geo.IpLookup]
      /\ forall message d, Geo.iplookup sv (snd loaded) = (inl message, d) ->
           fst res = inr (option_map Geo.resolved (fst loaded !! "explicit"))).
Proof.
  intros Hcoord Haddr Hauto Hentry loaded res age. subst res loaded age.
  rewrite (resolveLocation_no_coordinates sv cfg storagePath w Hcoord).
  rewrite (resolveAddress_no_address sv cfg storagePath _ _ Haddr).
  destruct (loadCache_quiet sv storagePath w) as (Hreq & Hclock & _).
  destruct (Geo.loadCache sv storagePath w) as [cache0 w0]. simpl in *.
  destruct cache0 as [entries| | |shown]; try discriminate Hentry.
  rewrite lookup_Object in Hentry.
  assert (Geo.Date_now w0 = Geo.Date_now w) as Hnow
    by (unfold Geo.Date_now; rewrite Hclock; reflexivity).
  unfold Geo.resolveAuto. cbv zeta.
  unfold Props.wantsAuto in Hauto. rewrite Hauto.
  unfold Geo.get. rewrite lookup_Object, Hentry.
  unfold Geo.cachedAuto. rewrite Hnow.
  split; intros Hage.
  - assert ((Geo.Date_now w - Geo.entry_ts e <? 7 * 24 * 60 * 60 * 1000)%Z = true) as ->
      by (apply Z.ltb_lt; lia).
    simpl. split; [reflexivity | exact Hreq].
  - assert ((Geo.Date_now w - Geo.entry_ts e <? 7 * 24 * 60 * 60 * 1000)%Z = false) as ->
      by (apply Z.ltb_ge; lia).
    pose proof (fallbackExplicit_result (Geo.Object entries)) as Hfb.
    destruct (Geo.iplookup sv w0) as [[message|data] d]; split.
    + match goal with |- context [Geo.fallbackExplicit _ ?w1] =>
        destruct (Hfb w1) as (Hr & _) end.
      rewrite Hr. simpl. rewrite Hreq. reflexivity.
    + intros message' d' _. unfold Geo.fallbackExplicit, Geo.get.
      rewrite !lookup_Object. destruct (entries !! "explicit"); reflexivity.
    + set (w1 := Geo.request Geo.IpLookup d w0).
      assert (Geo.requests w1 = Geo.requests w ++ [Geo.IpLookup]) as Hw1
        by (subst w1; simpl; rewrite Hreq; reflexivity).
      destruct (Hfb w1) as (Hr & _).
      destruct (Geo.coalesce (Geo.ip_latitude data) (Geo.ip_lat data)) as [|la|];
        try (rewrite Hr; exact Hw1).
      destruct (Geo.coalesce (Geo.ip_longitude data) (Geo.ip_lon data)) as [|lo|];
        try (rewrite Hr; exact Hw1).
      destruct (Js.isFinite la && Js.isFinite lo); [|rewrite Hr; exact Hw1].
      simpl.
      match goal with |- context [Geo.saveCache sv storagePath ?c0 w1] =>
        destruct (saveCache_quiet sv storagePath c0 w1) as (Hq & _) end.
      rewrite Hq. exact Hw1.
    + intros message' d' Habs. discriminate Habs.
Qed.

(** An entry one second younger than seven days is used as it is; at
    exactly seven days the IP service is asked. *)
Lemma auto_location_expires_after_seven_days_witness :
  Geo.requests (snd (Geo.resolveLocation Scenario2.online (Some Scenario2.automatic) None
                       (Scenario2.withAutoEntry 604799000))) = []
  /\ Geo.requests (snd (Geo.resolveLocation Scenario2.online (Some Scenario2.automatic) None
                          (Scenario2.withAutoEntry 604800000))) = [Geo.IpLookup].
Proof.
  split.
  - destruct (auto_location_expires_after_seven_days Scenario2.online
                (Some Scenario2.automatic) None (Scenario2.withAutoEntry 604799000)
                {| Geo.entry_lat := 48.85; Geo.entry_lon := 2.35; Geo.entry_source := "ip";
                   Geo.entry_ts := (1700000000000 - 604799000)%Z |}
                eq_refl I eq_refl eq_refl) as [Hyoung _].
    destruct Hyoung as [_ Hreq]; [vm_compute; reflexivity | exact Hreq].
  - destruct (auto_location_expires_after_seven_days Scenario2.online
                (Some Scenario2.automatic) None (Scenario2.withAutoEntry 604800000)
                {| Geo.entry_lat := 48.85; Geo.entry_lon := 2.35; Geo.entry_source := "ip";
                   Geo.entry_ts := (1700000000000 - 604800000)%Z |}
                eq_refl I eq_refl eq_refl) as [_ Hold].
    destruct Hold as [Hreq _]; [vm_compute; discriminate | exact Hreq].
Defined.





(* ===================================================================== *)
(** * Further properties of the provider adapters *)
(* ===================================================================== *)

Section FloatOrder.
Local Open Scope float_scope.

Lemma SFcompare_antisym (x y : spec_float) :
  SFcompare y x = option_map CompOpp (SFcompare x y).
Proof.
  destruct x as [sx|sx| |sx mx ex], y as [sy|sy| |sy my ey]; simpl; try reflexivity;
    try (destruct sx; reflexivity); try (destruct sy; reflexivity);
    try (destruct sx, sy; reflexivity).
  f_equal. rewrite (Z.compare_antisym ex ey).
  change (PosDef.Pos.compare_cont Eq my mx) with (Pos.compare_cont (CompOpp Eq) my mx).
  rewrite <- (Pos.compare_cont_antisym mx my Eq).
  change (PosDef.Pos.compare_cont Eq mx my) with (Pos.compare_cont Eq mx my).
  destruct sx, sy; try reflexivity;
    destruct (ex ?= ey)%Z; simpl; try reflexivity;
    destruct (Pos.compare_cont Eq mx my); reflexivity.
Qed.

Lemma compare_total (x y : float) :
  PrimFloat.is_nan x = false -> PrimFloat.is_nan y = false ->
  exists c, SFcompare (Prim2SF x) (Prim2SF y) = Some c.
Proof.
  unfold PrimFloat.is_nan. rewrite !FloatAxioms.eqb_spec. unfold SFeqb.
  destruct (Prim2SF x), (Prim2SF y); simpl; intros Hx Hy; try discriminate; eauto.
Qed.

Lemma ltb_leb (x y : float) : (x <? y) = true -> (x <=? y) = true.
Proof.
  rewrite FloatAxioms.ltb_spec, FloatAxioms.leb_spec. unfold SFltb, SFleb.
  destruct (SFcompare (Prim2SF x) (Prim2SF y)) as [[]|]; congruence.
Qed.

Lemma finite_not_nan (x : float) :
  PrimFloat.is_finite x = true -> PrimFloat.is_nan x = false.
Proof.
  unfold PrimFloat.is_finite. destruct (PrimFloat.is_nan x); [discriminate | reflexivity].
Qed.

(** Comparable and not above: below or equal. *)
Lemma not_ltb_leb (x y : float) :
  PrimFloat.is_nan x = false -> PrimFloat.is_nan y = false ->
  (y <? x) = false -> (x <=? y) = true.
Proof.
  intros Hx Hy. rewrite FloatAxioms.ltb_spec, FloatAxioms.leb_spec. unfold SFltb, SFleb.
  rewrite (SFcompare_antisym (Prim2SF x) (Prim2SF y)).
  destruct (compare_total x y Hx Hy) as [c ->]. destruct c; simpl; congruence.
Qed.

Lemma leb_not_ltb (x y : float) : (x <=? y) = true -> (y <? x) = false.
Proof.
  rewrite FloatAxioms.ltb_spec, FloatAxioms.leb_spec. unfold SFltb, SFleb.
  rewrite (SFcompare_antisym (Prim2SF x) (Prim2SF y)).
  destruct (SFcompare (Prim2SF x) (Prim2SF y)) as [[]|]; simpl; congruence.
Qed.

Lemma ltb_not_nan (x y : float) :
  (x <? y) = true -> PrimFloat.is_nan x = false /\ PrimFloat.is_nan y = false.
Proof.
  unfold PrimFloat.is_nan. rewrite FloatAxioms.ltb_spec, !FloatAxioms.eqb_spec. unfold SFltb, SFeqb.
  destruct (Prim2SF x) as [| | |sx mx ex], (Prim2SF y) as [| | |sy my ey]; simpl;
    try discriminate; intros _; rewrite ?Z.compare_refl, ?Pos.compare_cont_refl;
    split; try reflexivity;
    repeat match goal with b : bool |- _ => destruct b end; reflexivity.
Qed.

(** Above one: above zero. *)
Lemma above_one_positive (x : float) : (1 <? x) = true -> (0 <? x) = true.
Proof.
  rewrite !FloatAxioms.ltb_spec. unfold SFltb.
  change (Prim2SF 1) with (S754_finite false 4503599627370496 (-52)).
  change (Prim2SF 0) with (S754_zero false).
  destruct (Prim2SF x) as [s|s| |s m e]; simpl; try discriminate;
    destruct s; simpl; try discriminate; reflexivity.
Qed.

Lemma math_min_100 (v : float) :
  PrimFloat.is_nan v = false ->
  PrimFloat.is_nan (Numbers.math_min 100 v) = false
  /\ (Numbers.math_min 100 v <=? 100) = true
  /\ (Numbers.math_min 100 v = v \/ Numbers.math_min 100 v = 100)
  /\ ((v <=? 100) = true -> Numbers.math_min 100 v = v)
  /\ ((v <=? 100) = false -> Numbers.math_min 100 v = 100).
Proof.
  intros Hv. unfold Numbers.math_min. rewrite Hv.
  change (PrimFloat.is_nan 100) with false. simpl orb. cbv iota.
  change (PrimFloat.get_sign 100) with false. cbv iota.
  destruct (100 <? v) eqn:Habove.
  - split; [reflexivity|]. split; [reflexivity|]. split; [right; reflexivity|].
    split; [|reflexivity].
    intros Hle. apply leb_not_ltb in Hle. congruence.
  - assert ((v <=? 100) = true) as Hle by (apply not_ltb_leb; auto).
    rewrite Hle. destruct (v <? 100); repeat split; auto; discriminate.
Qed.

Lemma math_max_0 (r : float) :
  PrimFloat.is_nan r = false ->
  (0 <=? Numbers.math_max 0 r) = true
  /\ (Numbers.math_max 0 r = r \/ Numbers.math_max 0 r = 0)
  /\ ((0 <? r) = true -> Numbers.math_max 0 r = r).
Proof.
  intros Hr. unfold Numbers.math_max. rewrite Hr.
  change (PrimFloat.is_nan 0) with false. simpl orb. cbv iota.
  change (PrimFloat.get_sign 0) with false. cbv iota.
  destruct (0 <? r) eqn:Hpos.
  - split; [apply ltb_leb; exact Hpos|]. split; [left; reflexivity | reflexivity].
  - destruct (r <? 0); (split; [reflexivity|]; split; [right; reflexivity | discriminate]).
Qed.

End FloatOrder.

(** X25: clampPercentage (nws.ts, tomorrow.ts) returns a number between 0 and
    100 for every double: 0 for NaN and the infinities, and the value itself
    when it is above 0 and at most 100. *)
Theorem percentages_are_clamped (value : float) :
  let r := Numbers.clampPercentage value in
  PrimFloat.leb 0 r = true /\ PrimFloat.leb r 100 = true
  /\ (Js.isFinite value = false -> r = 0%float)
  /\ (PrimFloat.ltb 0 value = true -> PrimFloat.leb value 100 = true -> r = value).
Proof.
  intros r. subst r. unfold Numbers.clampPercentage, Js.isFinite.
  destruct (PrimFloat.is_finite value) eqn:Hfin; simpl negb; cbv iota.
  - pose proof (finite_not_nan value Hfin) as Hnan.
    destruct (math_min_100 value Hnan) as (Hrnan & Hrle & Hrcase & Hrid & _).
    destruct (math_max_0 _ Hrnan) as (Hlow & Hcase & Hid).
    split; [exact Hlow|]. split.
    + destruct Hcase as [-> | ->]; [exact Hrle | reflexivity].
    + split; [discriminate|]. intros Hpos Hle.
      rewrite (Hrid Hle) in *. apply Hid. exact Hpos.
  - split; [reflexivity|]. split; [reflexivity|]. split; [reflexivity|].
    intros Hpos Hle. exfalso.
    destruct (ltb_not_nan _ _ Hpos) as [_ Hnan].
    unfold PrimFloat.is_finite in Hfin. rewrite Hnan in Hfin. simpl in Hfin.
    apply negb_false_iff in Hfin. unfold PrimFloat.is_infinity in Hfin.
    revert Hfin Hle Hpos.
    rewrite FloatAxioms.eqb_spec, FloatAxioms.leb_spec, FloatAxioms.ltb_spec,
      FloatAxioms.abs_spec.
    unfold SFeqb, SFleb, SFltb.
    destruct (Prim2SF value) as [s|s| |s m e]; cbn [SFabs].
    + change (Prim2SF infinity) with (S754_infinity false). cbn [SFcompare]. discriminate.
    + destruct s; intros _; vm_compute; discriminate.
    + change (Prim2SF infinity) with (S754_infinity false). cbn [SFcompare]. discriminate.
    + change (Prim2SF infinity) with (S754_infinity false). cbn [SFcompare]. discriminate.
Qed.

(** X26: normalizeProbability (weatherkit.ts) reads a chance above 1 as a
    percentage already: it is returned as it is up to 100 and cut to 100
    above, positive infinity included, while the chance 1 itself is scaled
    to 100. *)
Theorem chance_above_one_is_a_percentage (value : float) :
  PrimFloat.ltb 1 value = true ->
  Numbers.normalizeProbability value
  = (if PrimFloat.leb value 100 then value else 100%float)
  /\ Numbers.normalizeProbability 1 = 100%float.
Proof.
  intros Habove. split; [|reflexivity].
  unfold Numbers.normalizeProbability. rewrite Habove.
  destruct (ltb_not_nan _ _ Habove) as [_ Hnan].
  destruct (math_max_0 value Hnan) as (_ & _ & Hid).
  rewrite (Hid (above_one_positive value Habove)).
  destruct (math_min_100 value Hnan) as (_ & _ & _ & Hle & Hgt).
  destruct (PrimFloat.leb value 100); auto.
Qed.

(** 1.5 stays 1.5 percent, 250 is cut to 100. *)
Lemma chance_above_one_is_a_percentage_witness :
  Numbers.normalizeProbability 1.5 = 1.5%float
  /\ Numbers.normalizeProbability 250 = 100%float.
Proof.
  split.
  - exact (proj1 (chance_above_one_is_a_percentage 1.5%float eq_refl)).
  - exact (proj1 (chance_above_one_is_a_percentage 250%float eq_refl)).
Defined.

(** X27: In an OpenWeatherMap nowcast the rate is the snow amount whenever the
    snow bucket yields a number, also when the type comes from the rain
    bucket: with a snow amount of at most 0.01 and a rain amount above it
    the nowcast has type rain and the snow amount as its rate, so a
    rain-now accessory compares the snow amount with its threshold. *)
Theorem owm_snow_amount_masks_rain_rate
    (current : Numbers.OwmCurrent) (now : Z) (cfg : Types.RainAccessoryConfig)
    (s r : float) :
  Numbers.extractOneHour (Numbers.cur_snow current) = Some s ->
  Numbers.extractOneHour (Numbers.cur_rain current) = Some r ->
  Adapters.above_trace (Some s) = false ->
  Adapters.above_trace (Some r) = true ->
  let nowcast := Numbers.owmNowcast (Some current) now in
  Types.type nowcast = Types.rain
  /\ Types.precipMmHr nowcast = s
  /\ RainAccessory.desiredRainNow cfg nowcast
     = RainAccessory.geq s (Js.nullish (Types.thresholdMmPerHr cfg)
                              RainAccessory.DEFAULT_RAIN_THRESHOLD).
Proof.
  intros Hs Hr Hs_low Hr_high nowcast.
  assert (Types.type nowcast = Types.rain) as Hty.
  { subst nowcast. unfold Numbers.owmNowcast. simpl. rewrite Hs, Hr.
    unfold Adapters.resolveType. rewrite Hs_low, Hr_high. reflexivity. }
  assert (Types.precipMmHr nowcast = s) as Hrate.
  { subst nowcast. unfold Numbers.owmNowcast. simpl. rewrite Hs. reflexivity. }
  split; [exact Hty|]. split; [exact Hrate|].
  unfold RainAccessory.desiredRainNow, RainAccessory.isRain. rewrite Hty, Hrate. reflexivity.
Qed.

(** 5 mm of rain in the last hour beside an empty snow bucket: type rain,
    rate 0, and the rain-now accessory sees no rain. *)
Lemma owm_snow_amount_masks_rain_rate_witness :
  RainAccessory.desiredRainNow Scenario.rainNow
    (Numbers.owmNowcast (Some Scenario2.rainWithEmptySnow) 1700000000000) = false.
Proof.
  destruct (owm_snow_amount_masks_rain_rate Scenario2.rainWithEmptySnow 1700000000000
              Scenario.rainNow 0%float 5%float eq_refl eq_refl eq_refl eq_refl)
    as (_ & _ & Hdesired).
  rewrite Hdesired. reflexivity.
Defined.

(** X28: The type mappings of the National Weather Service and OpenWeatherMap
    adapters never yield sleet, whatever the upstream data: sleet can only
    come from WeatherKit or Tomorrow.io. *)
Theorem nws_and_owm_never_report_sleet :
  (forall value, Adapters.determineWeatherType value <> Types.sleet)
  /\ (forall weather rain_ snow_, Adapters.resolveType weather rain_ snow_ <> Types.sleet)
  /\ (forall current now, Types.type (Numbers.owmNowcast current now) <> Types.sleet).
Proof.
  assert (forall weather rain_ snow_, Adapters.resolveType weather rain_ snow_ <> Types.sleet)
    as Howm.
  { intros weather rain_ snow_. unfold Adapters.resolveType.
    repeat match goal with
           | |- context [if ?b then _ else _] =>
               match type of b with bool => destruct b end
           end; discriminate. }
  split; [|split; [exact Howm|]].
  - intros [value|]; [|discriminate].
    unfold Adapters.determineWeatherType. destruct value as [|c0 rest0]; [discriminate|].
    generalize (c0 :: rest0). intros l.
    induction l as [|condition rest IH]; simpl; [discriminate|].
    destruct (Adapters.impliesSnow _); [discriminate|].
    destruct (Adapters.impliesRainNws _); [discriminate | exact IH].
  - intros current now. unfold Numbers.owmNowcast. simpl. apply Howm.
Qed.

Section LetterCase.

Lemma toLowerCase_truthy (s : string) :
  Js.truthy_string (Js.toLowerCase s) = Js.truthy_string s.
Proof. destruct s; reflexivity. Qed.

End LetterCase.

(** X29: The text matching of the adapters ignores letter case: lowering the
    upstream text beforehand changes neither the WeatherKit type, nor the
    text an NWS condition is matched on, nor the text an OpenWeatherMap
    entry is matched on. *)
Theorem type_mapping_ignores_letter_case :
  (forall text, Adapters.resolvePrecipType (Some (Js.toLowerCase text))
                = Adapters.resolvePrecipType (Some text))
  /\ (forall weather coverage,
        Adapters.conditionText {| Adapters.nws_weather := option_map Js.toLowerCase weather;
                                  Adapters.nws_coverage := option_map Js.toLowerCase coverage |}
        = Adapters.conditionText {| Adapters.nws_weather := weather;
                                    Adapters.nws_coverage := coverage |})
  /\ (forall main description rest,
        Adapters.owmText (Some ({| Adapters.owm_main := option_map Js.toLowerCase main;
                                   Adapters.owm_description :=
                                     option_map Js.toLowerCase description |} :: rest))
        = Adapters.owmText (Some ({| Adapters.owm_main := main;
                                     Adapters.owm_description := description |} :: rest))).
Proof.
  split; [|split].
  - intros text. unfold Adapters.resolvePrecipType. simpl.
    rewrite toLowerCase_truthy, toLowerCase_idempotent. reflexivity.
  - intros [weather|] [coverage|]; unfold Adapters.conditionText; simpl;
      rewrite ?toLowerCase_idempotent; reflexivity.
  - intros [main|] [description|] rest; unfold Adapters.owmText; simpl;
      rewrite ?toLowerCase_idempotent; reflexivity.
Qed.
